(** * clipboard-search: the collector (collect.js)

    A shallow embedding of the response collector: [slugify], the
    stability-polling extractor [extractFromTab], the collection pipeline
    [collectAll] and the command line [main], with the properties the
    specification states about them.

    Conventions of the embedding
    - A JavaScript string is a [string]: a sequence of code units below 256.
    - The browser, the clock, the synthesis process and the file system are
      explicit: an immutable [Env] says how the outside world answers, a
      [World] is threaded through every call and records what happened.
    - [console.log] and [console.error] calls are left out, and so is the
      [exec] by which the command-line [main] opens the viewer page. *)

From Stdlib Require Import ZArith Ascii String List Lia Bool.
From stdpp Require Import base gmap strings list.

Open Scope string_scope.
Open Scope Z_scope.

(** ** Characters and strings *)

Module Js.

Definition code (c : ascii) : N := N_of_ascii c.

Definition between (lo hi : N) (c : ascii) : bool :=
  ((lo <=? code c) && (code c <=? hi))%N.

(** [String.prototype.toLowerCase] on one code unit below 256: A-Z and the
    Latin-1 capitals (U+00C0..U+00DE without the multiplication sign). *)
Definition lowerChar (c : ascii) : ascii :=
  if between 65 90 c || (between 192 222 c && negb (code c =? 215)%N)
  then ascii_of_N (code c + 32)
  else c.

Definition toLowerCase (s : string) : string :=
  string_of_list_ascii (map lowerChar (list_ascii_of_string s)).

(** The character class [a-z0-9]. *)
Definition isAlnum (c : ascii) : bool :=
  between 97 122 c || between 48 57 c.

Definition isHyphen (c : ascii) : bool := (code c =? 45)%N.

Definition hyphen : ascii := "-"%char.

(** [.replace(/[^a-z0-9]+/g, "-")]: every maximal run of characters outside
    the class becomes one hyphen. [inRun] says that the hyphen of the
    current run is already out. *)
Fixpoint replaceRuns (inRun : bool) (l : list ascii) : list ascii :=
  match l with
  | [] => []
  | c :: r =>
      if isAlnum c then c :: replaceRuns false r
      else if inRun then replaceRuns true r
      else hyphen :: replaceRuns true r
  end.

(** [.replace(/^-+/, "")] *)
Fixpoint dropHyphens (l : list ascii) : list ascii :=
  match l with
  | [] => []
  | c :: r => if isHyphen c then dropHyphens r else l
  end.

(** [.replace(/-+$/, "")] *)
Definition dropTrailingHyphens (l : list ascii) : list ascii :=
  rev (dropHyphens (rev l)).

(** [.slice(0, e)] with JavaScript's treatment of a negative or too large
    end index. *)
Definition slice0 (e : Z) (l : list ascii) : list ascii :=
  let len := Z.of_nat (length l) in
  let stop := if e <? 0 then Z.max (len + e) 0 else Z.min e len in
  take (Z.to_nat stop) l.

(** [haystack.includes(needle)]; a regular expression that is a literal,
    such as [/chatgpt\.com/], tests exactly this. *)
Fixpoint includes (needle haystack : string) : bool :=
  String.prefix needle haystack ||
  match haystack with
  | EmptyString => false
  | String _ rest => includes needle rest
  end.


(** White space below 256, as [trim] sees it. *)
Definition isSpace (c : ascii) : bool :=
  between 9 13 c || (code c =? 32)%N || (code c =? 160)%N.

Fixpoint dropSpaces (l : list ascii) : list ascii :=
  match l with
  | [] => []
  | c :: r => if isSpace c then dropSpaces r else l
  end.

(** [s.trim()] *)
Definition trim (s : string) : string :=
  string_of_list_ascii
    (rev (dropSpaces (rev (dropSpaces (list_ascii_of_string s))))).

(** [s.split(sep)] for a non-empty [sep], scanning from the left. [skip]
    counts the characters of a separator still to pass over, [cur] is the
    piece being read. *)
Fixpoint splitFrom (sep : string) (skip : nat) (cur : string) (s : string)
  : list string :=
  match s with
  | EmptyString => [cur]
  | String c rest =>
      match skip with
      | S k => splitFrom sep k cur rest
      | O =>
          if String.prefix sep s
          then cur :: splitFrom sep (String.length sep - 1) EmptyString rest
          else splitFrom sep 0 (cur +:+ String c EmptyString) rest
      end
  end.

Definition split (sep s : string) : list string := splitFrom sep 0 EmptyString s.

(** [pieces.join(sep)] *)
Fixpoint join (sep : string) (pieces : list string) : string :=
  match pieces with
  | [] => EmptyString
  | p :: rest =>
      match rest with
      | [] => p
      | _ => p +:+ sep +:+ join sep rest
      end
  end.

(** The length in bytes of a string written as UTF-8: one byte for a code
    unit below 128, two for the others below 256. *)
Definition utf8Length (s : string) : Z :=
  fold_right (fun c n => (if (code c <? 128)%N then 1 else 2) + n) 0
             (list_ascii_of_string s).

(** What [parseInt] gives: [NaN] or an integer. *)
Inductive Num :=
| NaN
| Int (z : Z).

Definition isDigit (c : ascii) : bool := between 48 57 c.

Fixpoint digitsFrom (acc : Z) (l : list ascii) : Z :=
  match l with
  | [] => acc
  | c :: r =>
      if isDigit c then digitsFrom (acc * 10 + (Z.of_N (code c) - 48)) r
      else acc
  end.

(** [parseInt(s, 10)]: leading white space, an optional sign, then the
    digits as far as they go; [NaN] without a digit. The integer is the one
    the digits write, which is what JavaScript gives below 2^53. *)
Definition parseInt (s : string) : Num :=
  let l := dropSpaces (list_ascii_of_string s) in
  let signed :=
    match l with
    | c :: r =>
        if (code c =? 45)%N then (-1, r)
        else if (code c =? 43)%N then (1, r)
        else (1, l)
    | [] => (1, l)
    end in
  match snd signed with
  | c :: _ => if isDigit c then Int (fst signed * digitsFrom 0 (snd signed)) else NaN
  | [] => NaN
  end.

End Js.

(** ** slugify *)

Definition DEFAULT_MAX_LEN : Z := 60.

Definition slugChars (maxLen : Z) (l : list ascii) : list ascii :=
  Js.dropTrailingHyphens
    (Js.slice0 maxLen
       (Js.dropTrailingHyphens
          (Js.dropHyphens
             (Js.replaceRuns false (map Js.lowerChar l))))).

(** [slugify(text, maxLen = 60)] *)
Definition slugifyTo (maxLen : Z) (text : string) : string :=
  string_of_list_ascii (slugChars maxLen (list_ascii_of_string text)).

Definition slugify (text : string) : string := slugifyTo DEFAULT_MAX_LEN text.

(** The alphanumeric words of a string: its maximal runs of [a-z0-9]. [cur]
    is the word being read. *)
Fixpoint wordsFrom (cur : list ascii) (l : list ascii) : list (list ascii) :=
  match l with
  | [] => match cur with [] => [] | _ => [cur] end
  | c :: r =>
      if Js.isAlnum c then wordsFrom (cur ++ [c]) r
      else match cur with
           | [] => wordsFrom [] r
           | _ => cur :: wordsFrom [] r
           end
  end.

Definition words (s : string) : list (list ascii) :=
  wordsFrom [] (list_ascii_of_string s).

(** ASCII punctuation, and a string with its punctuation taken out. *)
Definition isPunct (c : ascii) : bool :=
  Js.between 33 47 c || Js.between 58 64 c || Js.between 91 96 c
  || Js.between 123 126 c.

Definition dropPunct (s : string) : string :=
  string_of_list_ascii
    (filter (fun c => negb (isPunct c)) (list_ascii_of_string s)).


(** ** Dates *)

(** A [Date] by its UTC fields, as [toISOString] prints them. *)
Record Date := mkDate {
  year : Z; month : Z; day : Z;
  hours : Z; minutes : Z; seconds : Z; millis : Z
}.

Module DateFmt.

Definition digit (n : Z) : ascii := ascii_of_N (48 + Z.to_N (n mod 10)).

Definition pad2 (n : Z) : list ascii := [digit (n / 10); digit n].
Definition pad3 (n : Z) : list ascii := digit (n / 100) :: pad2 n.
Definition pad4 (n : Z) : list ascii := digit (n / 1000) :: pad3 n.
Definition pad6 (n : Z) : list ascii :=
  digit (n / 100000) :: digit (n / 10000) :: pad4 n.

(** Years 0000 to 9999 print with four digits, the others with a sign and
    six digits. *)
Definition yearChars (y : Z) : list ascii :=
  if (0 <=? y) && (y <=? 9999) then pad4 y
  else (if y <? 0 then "-"%char else "+"%char) :: pad6 (Z.abs y).

Definition isoChars (d : Date) : list ascii :=
  yearChars (year d) ++ "-"%char :: pad2 (month d) ++ "-"%char :: pad2 (day d)
  ++ "T"%char :: pad2 (hours d) ++ ":"%char :: pad2 (minutes d)
  ++ ":"%char :: pad2 (seconds d) ++ "."%char :: pad3 (millis d) ++ ["Z"%char].

(** [Date.prototype.toISOString] *)
Definition toISOString (d : Date) : string := string_of_list_ascii (isoChars d).

(** [.replace(/[:.]/g, "-")] on one character *)
Definition dashChar (c : ascii) : ascii :=
  if ((Js.code c =? 58) || (Js.code c =? 46))%N then Js.hyphen else c.

(** [new Date().toISOString().replace(/[:.]/g, "-").slice(0, 19)] *)
Definition stampChars (d : Date) : list ascii :=
  Js.slice0 19 (map dashChar (isoChars d)).

Definition stamp (d : Date) : string := string_of_list_ascii (stampChars d).

Definition isLeap (y : Z) : bool :=
  (y mod 4 =? 0) && (negb (y mod 100 =? 0) || (y mod 400 =? 0)).

Definition daysInMonth (y m : Z) : Z :=
  if m =? 2 then (if isLeap y then 29 else 28)
  else if (m =? 4) || (m =? 6) || (m =? 9) || (m =? 11) then 30
  else 31.

(** The fields are those of a calendar date and a time of day. *)
Definition valid (d : Date) : bool :=
  (1 <=? month d) && (month d <=? 12)
  && (1 <=? day d) && (day d <=? daysInMonth (year d) (month d))
  && (0 <=? hours d) && (hours d <=? 23)
  && (0 <=? minutes d) && (minutes d <=? 59)
  && (0 <=? seconds d) && (seconds d <=? 59)
  && (0 <=? millis d) && (millis d <=? 999).

(** Days from 1970-01-01 to the civil date [y]-[m]-[d]. *)
Definition daysFromCivil (y m d : Z) : Z :=
  let y' := if m <=? 2 then y - 1 else y in
  let era := y' / 400 in
  let yoe := y' - era * 400 in
  let mp := if 2 <? m then m - 3 else m + 9 in
  let doy := (153 * mp + 2) / 5 + d - 1 in
  let doe := yoe * 365 + yoe / 4 - yoe / 100 + doy in
  era * 146097 + doe - 719468.

(** [Date.prototype.getTime]: milliseconds since the epoch. *)
Definition getTime (d : Date) : Z :=
  (((daysFromCivil (year d) (month d) (day d) * 24 + hours d) * 60
    + minutes d) * 60 + seconds d) * 1000 + millis d.

(** The whole second a date falls in. *)
Definition secondOf (d : Date) : Z := getTime d / 1000.

End DateFmt.

(** ** The browser and the world around a run *)

Record Tab := mkTab {
  tab_id : string;
  tab_type : string;
  tab_url : string;
  tab_title : string
}.

Record Engine := mkEngine {
  name : string;
  slug : string;
  urlMatch : string -> bool;
  extractScript : string
}.

(** What one [Runtime.evaluate] call does: it resolves, with a string under
    [result.result.value] or with nothing usable there, or it rejects. *)
Inductive EvalOutcome :=
| Returned (value : option string)
| Rejected.

Inductive Exn :=
| ConnectionRefused
| EvaluationFailed
| CloseFailed
| ProcessFailed
| ViewerFailed
| NoSuchFile.

(** One entry of [responses]. The fields [chars] and [file] exist only on the
    entries that have them in the source. *)
Record Response := mkResponse {
  r_engine : string;
  r_slug : string;
  r_status : string;
  r_chars : option Z;
  r_file : option string
}.

Record ResponseFile := mkResponseFile {
  rf_engine : string;
  rf_path : string
}.

Inductive Payload :=
| PStarted (query : string) (engines : list string)
| PEngineDone (engine status : string) (chars : Z)
| PSynthesizing
| PComplete (folderName query : string) (responses : list Response).

Inductive Event :=
| Connected (client : nat) (target : Tab)
| ConnectFailed (target : Tab)
| Evaluated (client : nat) (expression : string) (outcome : EvalOutcome)
| Closed (client : nat) (resolved : bool)
| Slept (ms : Z)
| MadeDir (path : string)
| Progress (event : string) (payload : Payload)
| SynthesisRun (query : string) (files : list ResponseFile).

(** How the outside answers. Calls are numbered in the order they are made. *)
Record Env := mkEnv {
  dirname : string;
  (** [CDP.List]: the open tabs, or nothing when the endpoint refuses *)
  cdpList : option (list Tab);
  (** whether the k-th [CDP({target, ...})] resolves *)
  cdpConnect : nat -> bool;
  (** the k-th [Runtime.evaluate]: its outcome and the time it takes, in ms *)
  runtimeEvaluate : nat -> EvalOutcome * N;
  (** whether [close] resolves on the k-th client *)
  clientClose : nat -> bool;
  (** the UTC fields of an instant given in ms since the epoch *)
  utc : Z -> Date;
  (** [new URL(u).searchParams.get]; nothing for a URL that does not parse *)
  searchParams : string -> option (string -> option string);
  (** the text the [claude] process prints, or nothing when it fails *)
  claude : string -> list ResponseFile -> option string;
  (** the page [generateViewer] renders, or nothing when it throws *)
  renderViewer : string -> string -> list Response -> option string -> option string
}.

Record World := mkWorld {
  now : Z;
  connections : nat;
  evaluations : nat;
  files : gmap string string;
  trace : list Event
}.

Definition emit (e : Event) (w : World) : World :=
  mkWorld (now w) (connections w) (evaluations w) (files w) (trace w ++ [e]).

Definition advance (ms : Z) (w : World) : World :=
  mkWorld (now w + ms) (connections w) (evaluations w) (files w) (trace w).

Definition store (path content : string) (w : World) : World :=
  mkWorld (now w) (connections w) (evaluations w)
          (<[path := content]> (files w)) (trace w).

(** ** Computations: state, exceptions *)

(** [Hung] marks a loop that used up its iteration budget; no claim relies on
    it, and [extractFromTab] is shown never to produce it. *)
Inductive Res (A : Type) :=
| Ok (a : A)
| Thrown (e : Exn)
| Hung.
Arguments Ok {A} a.
Arguments Thrown {A} e.
Arguments Hung {A}.

Definition M (A : Type) : Type := World -> Res A * World.

Definition ret {A} (a : A) : M A := fun w => (Ok a, w).

Definition bind {A B} (c : M A) (k : A -> M B) : M B :=
  fun w =>
    match c w with
    | (Ok a, w') => k a w'
    | (Thrown e, w') => (Thrown e, w')
    | (Hung, w') => (Hung, w')
    end.

Definition throw {A} (e : Exn) : M A := fun w => (Thrown e, w).

(** [try { c } catch (e) { h e }] *)
Definition tryCatch {A} (c : M A) (h : Exn -> M A) : M A :=
  fun w =>
    match c w with
    | (Thrown e, w') => h e w'
    | other => other
    end.

(** [try { c } finally { f }]: [f] runs on every way out of [c]; when [f]
    itself throws, that is what the caller sees. *)
Definition tryFinally {A} (c : M A) (f : M unit) : M A :=
  fun w =>
    match c w with
    | (Hung, w') => (Hung, w')
    | (r, w') =>
        match f w' with
        | (Ok _, w'') => (r, w'')
        | (Thrown e, w'') => (Thrown e, w'')
        | (Hung, w'') => (Hung, w'')
        end
    end.

Declare Scope js_scope.
Delimit Scope js_scope with js.
Notation "'do' x <- c ; k" := (bind c (fun x => k))
  (at level 10, x name, c at level 100, k at level 200) : js_scope.
Notation "'exec' c ; k" := (bind c (fun _ => k))
  (at level 10, c at level 100, k at level 200) : js_scope.
Open Scope js_scope.


(** ** Primitive operations *)

(** [Date.now()] *)
Definition dateNow : M Z := fun w => (Ok (now w), w).

(** [new Date()] *)
Definition newDate (env : Env) : M Date := fun w => (Ok (utc env (now w)), w).

(** [await sleep(ms)] *)
Definition sleep (ms : Z) : M unit :=
  fun w => (Ok tt, emit (Slept ms) (advance ms w)).

(** [await CDP({ target, host, port })]: the new client, numbered. *)
Definition cdpOpen (env : Env) (target : Tab) : M nat :=
  fun w =>
    let k := connections w in
    let w1 := mkWorld (now w) (S k) (evaluations w) (files w) (trace w) in
    if cdpConnect env k then (Ok k, emit (Connected k target) w1)
    else (Thrown ConnectionRefused, emit (ConnectFailed target) w1).

(** [await Runtime.evaluate({ expression, returnByValue: true })], giving
    [result?.result?.value]. *)
Definition evaluate (env : Env) (client : nat) (expression : string)
  : M (option string) :=
  fun w =>
    let k := evaluations w in
    let w1 := mkWorld (now w + Z.of_N (snd (runtimeEvaluate env k)))
                      (connections w) (S k) (files w) (trace w) in
    let w2 := emit (Evaluated client expression (fst (runtimeEvaluate env k))) w1 in
    match fst (runtimeEvaluate env k) with
    | Returned v => (Ok v, w2)
    | Rejected => (Thrown EvaluationFailed, w2)
    end.

(** [await client.close()] *)
Definition closeClient (env : Env) (client : nat) : M unit :=
  fun w =>
    if clientClose env client then (Ok tt, emit (Closed client true) w)
    else (Thrown CloseFailed, emit (Closed client false) w).

(** [if (client) { try { await client.close(); } catch (_) {} }] for a client
    that is set. *)
Definition closeQuietly (env : Env) (client : nat) : M unit :=
  tryCatch (closeClient env client) (fun _ => ret tt).

(** [fs.writeFileSync(path, content, "utf-8")] *)
Definition writeFileSync (path content : string) : M unit :=
  fun w => (Ok tt, store path content w).

(** [fs.existsSync(path)] *)
Definition existsSync (path : string) : M bool :=
  fun w => (Ok (match files w !! path with Some _ => true | None => false end), w).

(** [fs.mkdirSync(path, { recursive: true })] *)
Definition mkdirSync (path : string) : M unit :=
  fun w => (Ok tt, emit (MadeDir path) w).

(** [onProgress(event, payload)] *)
Definition onProgress (event : string) (payload : Payload) : M unit :=
  fun w => (Ok tt, emit (Progress event payload) w).

(** [path.join(a, b)] for a [b] that needs no normalising. *)
Definition pathJoin (a b : string) : string := a +:+ "/" +:+ b.

(** [value || fallback] for a value that is a string or missing. *)
Definition orElse (value : option string) (fallback : string) : string :=
  match value with
  | Some s => if (String.length s =? 0)%nat then fallback else s
  | None => fallback
  end.

Definition nl : string := String (ascii_of_nat 10) "".

(** ** CONFIG *)

Definition DEFAULT_TIMEOUT : Z := 90.
Definition POLL_INTERVAL : Z := 2000.
Definition STABLE_CHECKS : Z := 3.
Definition OUTPUT_DIR (env : Env) : string := pathJoin (dirname env) "responses".

(** The four engines. An [extractScript] runs inside the page, whose answers
    are [runtimeEvaluate]'s; its text is abridged to a label here. *)
Definition ENGINES : list Engine :=
  [ mkEngine "ChatGPT" "chatgpt" (Js.includes "chatgpt.com")
             "(() => { /* ChatGPT selectors */ })()";
    mkEngine "Claude" "claude" (Js.includes "claude.ai")
             "(() => { /* Claude selectors */ })()";
    mkEngine "Perplexity" "perplexity" (Js.includes "perplexity.ai")
             "(() => { /* Perplexity selectors */ })()";
    mkEngine "Google AI Studio" "google-ai-studio" (Js.includes "aistudio.google.com")
             "(() => { /* Google AI Studio selectors */ })()" ].

(** ** CORE: extract the response from a single tab *)

Definition INCOMPLETE_NOTE : string :=
  nl +:+ nl +:+ "> [Response may be incomplete - timed out]".

(** What one poll leaves behind: the function returns [text], or the loop
    goes on with these values of [lastText] and [stableCount]. *)
Inductive Step :=
| Return (text : string)
| Continue (lastText : string) (stableCount : Z).

(** The body of the [try] inside the loop, after [text] is read. *)
Definition observe (text lastText : string) (stableCount : Z) : Step :=
  if (0 <? String.length text)%nat && String.eqb text lastText then
    let stableCount := stableCount + 1 in
    if STABLE_CHECKS <=? stableCount then Return text
    else Continue lastText stableCount
  else
    let stableCount := 0 in
    if (0 <? String.length text)%nat then Continue text stableCount
    else Continue lastText stableCount.

(** How the loop ends. *)
Inductive LoopExit :=
| Stabilized (text : string)
| DeadlineReached (lastText : string).

(** [while (Date.now() < deadline) { try { ... } catch (evalErr) { } await
    sleep(POLL_INTERVAL); }]. Every pass takes [POLL_INTERVAL] at least, so
    the number of passes is bounded; [budget] is that bound. *)
Fixpoint pollLoop (budget : nat) (env : Env) (client : nat) (engine : Engine)
    (deadline : Z) (lastText : string) (stableCount : Z) : M LoopExit :=
  match budget with
  | O => fun w => (Hung, w)
  | S budget' =>
      do t <- dateNow;
      if t <? deadline then
        do step <- tryCatch
                     (do value <- evaluate env client (extractScript engine);
                      let text := orElse value "" in
                      ret (observe text lastText stableCount))
                     (fun _ => ret (Continue lastText stableCount));
        match step with
        | Return text => ret (Stabilized text)
        | Continue lastText' stableCount' =>
            exec sleep POLL_INTERVAL;
            pollLoop budget' env client engine deadline lastText' stableCount'
        end
      else ret (DeadlineReached lastText)
  end.

Definition pollBudget (timeoutSec : Z) : nat :=
  Z.to_nat (timeoutSec * 1000 / POLL_INTERVAL) + 2.

(** The [return] statement that ends [extractFromTab]. *)
Inductive Exit :=
| Stable (text : string)
| Partial (lastText : string)
| NoResponse
| ConnectionError.

(** The value each [return] gives. *)
Definition returned (e : Exit) : option string :=
  match e with
  | Stable text => Some text
  | Partial lastText => Some (lastText +:+ INCOMPLETE_NOTE)
  | NoResponse => None
  | ConnectionError => None
  end.

(** The body of the outer [try], once [client] is set. *)
Definition pollTab (env : Env) (client : nat) (engine : Engine) (timeoutSec : Z)
  : M Exit :=
  do t0 <- dateNow;
  let deadline := t0 + timeoutSec * 1000 in
  do out <- pollLoop (pollBudget timeoutSec) env client engine deadline "" 0;
  match out with
  | Stabilized text => ret (Stable text)
  | DeadlineReached lastText =>
      if (0 <? String.length lastText)%nat then ret (Partial lastText)
      else ret NoResponse
  end.

(** [extractFromTab] up to the [return] it takes. When [CDP(...)] rejects,
    [catch] returns [null] and [finally] finds [client] unset. *)
Definition extractExit (env : Env) (target : Tab) (engine : Engine)
    (timeoutSec : Z) : M Exit :=
  fun w =>
    match cdpOpen env target w with
    | (Ok client, w1) =>
        tryFinally
          (tryCatch (pollTab env client engine timeoutSec)
                    (fun _ => ret ConnectionError))
          (closeQuietly env client) w1
    | (Thrown _, w1) => (Ok ConnectionError, w1)
    | (Hung, w1) => (Hung, w1)
    end.

Definition extractFromTab (env : Env) (target : Tab) (engine : Engine)
    (timeoutSec : Z) : M (option string) :=
  do e <- extractExit env target engine timeoutSec;
  ret (returned e).

(** *** Reading a run back from its trace *)

(** The events a computation added. *)
Definition eventsSince (w w' : World) : list Event :=
  drop (length (trace w)) (trace w').

(** The outcomes of the [Runtime.evaluate] calls among some events. *)
Fixpoint pollsOf (evs : list Event) : list EvalOutcome :=
  match evs with
  | [] => []
  | Evaluated _ _ o :: rest => o :: pollsOf rest
  | _ :: rest => pollsOf rest
  end.

(** The connections opened and closed among some events. *)
Fixpoint sessionsOf (evs : list Event) : list Event :=
  match evs with
  | [] => []
  | Connected c t :: rest => Connected c t :: sessionsOf rest
  | ConnectFailed t :: rest => ConnectFailed t :: sessionsOf rest
  | Closed c b :: rest => Closed c b :: sessionsOf rest
  | _ :: rest => sessionsOf rest
  end.

(** The text a poll shows, the empty string when it shows none. *)
Definition textOf (o : EvalOutcome) : string :=
  match o with
  | Returned v => orElse v ""
  | Rejected => ""
  end.

Definition succeeded (o : EvalOutcome) : bool :=
  match o with Returned _ => true | Rejected => false end.

(** The loop replayed on a list of poll outcomes: how it ends, and the polls
    it did not get to. *)
Fixpoint replay (polls : list EvalOutcome) (lastText : string) (stableCount : Z)
  : LoopExit * list EvalOutcome :=
  match polls with
  | [] => (DeadlineReached lastText, [])
  | Rejected :: rest => replay rest lastText stableCount
  | Returned v :: rest =>
      match observe (orElse v "") lastText stableCount with
      | Return text => (Stabilized text, rest)
      | Continue lastText' stableCount' => replay rest lastText' stableCount'
      end
  end.

(** The last non-empty text among some polls, [fallback] when there is none. *)
Fixpoint lastNonEmpty (fallback : string) (polls : list EvalOutcome) : string :=
  match polls with
  | [] => fallback
  | o :: rest =>
      lastNonEmpty (if (0 <? String.length (textOf o))%nat then textOf o else fallback) rest
  end.

(** [k] polls in a row, from position [i] on, all showing [v]. *)
Definition showsAt (polls : list EvalOutcome) (i k : nat) (v : string) : Prop :=
  forall j, (j < k)%nat -> polls !! (i + j)%nat = Some (Returned (Some v)).

Definition shows (v : string) (o : EvalOutcome) : bool := String.eqb (textOf o) v.

(** The first [k] polls are there and all show one non-empty text: that
    text. *)
Definition runAt (k : nat) (polls : list EvalOutcome) : option string :=
  match polls with
  | [] => None
  | o :: _ =>
      if (0 <? String.length (textOf o))%nat && (k <=? length polls)%nat
         && forallb (shows (textOf o)) (take k polls)
      then Some (textOf o)
      else None
  end.

(** The text of the first [k] consecutive polls that all show one non-empty
    text, if there are such polls. *)
Fixpoint firstRun (k : nat) (polls : list EvalOutcome) : option string :=
  match runAt k polls with
  | Some v => Some v
  | None =>
      match polls with
      | [] => None
      | _ :: rest => firstRun k rest
      end
  end.

(** [lastText] and [stableCount] after some polls, none of which made the
    function return. *)
Fixpoint loopState (polls : list EvalOutcome) (lastText : string) (stableCount : Z)
  : option (string * Z) :=
  match polls with
  | [] => Some (lastText, stableCount)
  | Rejected :: rest => loopState rest lastText stableCount
  | Returned v :: rest =>
      match observe (orElse v "") lastText stableCount with
      | Return _ => None
      | Continue lastText' stableCount' => loopState rest lastText' stableCount'
      end
  end.

(** The text of the last poll that resolved, [seen] when none did. *)
Fixpoint lastShownFrom (seen : option string) (polls : list EvalOutcome) : option string :=
  match polls with
  | [] => seen
  | o :: rest => lastShownFrom (if succeeded o then Some (textOf o) else seen) rest
  end.

Definition lastShown (polls : list EvalOutcome) : option string :=
  lastShownFrom None polls.

(** The exit that goes with the way the loop ended. *)
Definition exitOf (out : LoopExit) : Exit :=
  match out with
  | Stabilized text => Stable text
  | DeadlineReached lastText =>
      if (0 <? String.length lastText)%nat then Partial lastText else NoResponse
  end.

(** ** QUERY EXTRACTION *)

Definition PLACEHOLDER_QUERY : string := "[clipboard query]".

(** The first loop of [extractQuery]: the [q] or [prompt] parameter of the
    first page whose URL has one longer than 10 characters. *)
Fixpoint queryFromUrls (env : Env) (targets : list Tab) : option string :=
  match targets with
  | [] => None
  | t :: rest =>
      if negb (String.eqb (tab_type t) "page") then queryFromUrls env rest
      else
        match searchParams env (tab_url t) with
        | None => queryFromUrls env rest
        | Some get =>
            let q := orElse (get "q") (orElse (get "prompt") "") in
            if (10 <? String.length q)%nat then Some q
            else queryFromUrls env rest
        end
  end.

(** What the title of the Perplexity page gives. *)
Definition queryFromTitle (title : string) : option string :=
  if Js.includes " - " title
  then Some (Js.trim (Js.join " - " (removelast (Js.split " - " title))))
  else if (5 <? String.length title)%nat then Some (Js.trim title)
  else None.

Definition isPerplexitySearch (t : Tab) : bool :=
  String.eqb (tab_type t) "page" && Js.includes "perplexity.ai/search" (tab_url t).

Definition extractQuery (env : Env) (targets : list Tab) : M string :=
  match queryFromUrls env targets with
  | Some q => ret q
  | None =>
      match List.find isPerplexitySearch targets with
      | Some perpTab =>
          fun w =>
            match cdpOpen env perpTab w with
            | (Ok client, w1) =>
                (do found <- tryFinally
                               (tryCatch
                                  (do value <- evaluate env client "document.title || ''";
                                   ret (queryFromTitle (orElse value "")))
                                  (fun _ => ret None))
                               (closeQuietly env client);
                 ret (match found with
                      | Some q => q
                      | None => PLACEHOLDER_QUERY
                      end)) w1
            | (Thrown _, w1) => (Ok PLACEHOLDER_QUERY, w1)
            | (Hung, w1) => (Hung, w1)
            end
      | None => ret PLACEHOLDER_QUERY
      end
  end.

(** ** SYNTHESIS *)

(** [execFileSync("claude", args, ...)] *)
Definition execClaude (env : Env) (query : string) (responseFiles : list ResponseFile)
  : M string :=
  fun w =>
    let w1 := emit (SynthesisRun query responseFiles) w in
    match claude env query responseFiles with
    | Some text => (Ok text, w1)
    | None => (Thrown ProcessFailed, w1)
    end.

Definition synthesisDoc (query : string) (d : Date) (responseFiles : list ResponseFile)
    (result : string) : string :=
  "# Cross-LLM Synthesis" +:+ nl +:+ nl
  +:+ "**Query:** " +:+ query +:+ nl
  +:+ "**Date:** " +:+ DateFmt.toISOString d +:+ nl
  +:+ "**Sources:** " +:+ Js.join ", " (map rf_engine responseFiles) +:+ nl +:+ nl
  +:+ "---" +:+ nl +:+ nl
  +:+ Js.trim result.

Definition synthesize (env : Env) (query : string) (responseFiles : list ResponseFile)
    (promptDir : string) : M unit :=
  tryCatch
    (do result <- execClaude env query responseFiles;
     let synthesisPath := pathJoin promptDir "synthesis.md" in
     do d <- newDate env;
     writeFileSync synthesisPath (synthesisDoc query d responseFiles result))
    (fun _ => ret tt).

(** [generateViewer] of viewer.js, as far as the collector sees it: it writes
    [index.html] or throws. *)
Definition generateViewer (env : Env) (promptDir query : string)
    (responses : list Response) (synthesisPath : option string) : M string :=
  fun w =>
    match renderViewer env promptDir query responses synthesisPath with
    | Some html =>
        (Ok (pathJoin promptDir "index.html"),
         store (pathJoin promptDir "index.html") html w)
    | None => (Thrown ViewerFailed, w)
    end.

(** ** The collection pipeline *)

(** [CDP.List({ host, port })] *)
Definition listTabs (env : Env) : M (list Tab) :=
  fun w =>
    match cdpList env with
    | Some targets => (Ok targets, w)
    | None => (Thrown ConnectionRefused, w)
    end.

Record Options := mkOptions {
  timeout : option Z;
  doSynthesize : option bool
}.

Record Result := mkResult {
  promptDir : string;
  folderName : string;
  query : string;
  responses : list Response;
  synthesisPath : option string;
  synthesisFile : option string;
  viewerFile : option string
}.

Definition NO_RESPONSE : string := "*No response collected*".

(** The metadata every engine file starts with. *)
Definition engineHeader (engine : Engine) (tab : Tab) (d : Date) (query : string)
  : string :=
  "# " +:+ name engine +:+ " Response" +:+ nl +:+ nl
  +:+ "**Source:** " +:+ name engine +:+ nl
  +:+ "**URL:** " +:+ tab_url tab +:+ nl
  +:+ "**Date:** " +:+ DateFmt.toISOString d +:+ nl
  +:+ "**Query:** " +:+ query +:+ nl +:+ nl
  +:+ "---" +:+ nl +:+ nl.

Definition promptDoc (query : string) (d : Date) : string :=
  "# Query" +:+ nl +:+ nl +:+ query +:+ nl +:+ nl
  +:+ "**Date:** " +:+ DateFmt.toISOString d +:+ nl.

(** [if (text)]: the text when it is a non-empty string. *)
Definition truthy (text : option string) : option string :=
  match text with
  | Some t => if (String.length t =? 0)%nat then None else Some t
  | None => None
  end.

(** [targets.find((t) => t.type === "page" && engine.urlMatch.test(t.url))] *)
Definition findTab (targets : list Tab) (engine : Engine) : option Tab :=
  List.find (fun t => String.eqb (tab_type t) "page" && urlMatch engine (tab_url t))
            targets.

Definition engineFile (promptDir : string) (engine : Engine) : string :=
  pathJoin promptDir (slug engine +:+ ".md").

(** [for (const x of xs) { ... }] over a state. *)
Fixpoint forEach {A S : Type} (body : S -> A -> M S) (xs : list A) (s : S) : M S :=
  match xs with
  | [] => ret s
  | x :: rest => do s' <- body s x; forEach body rest s'
  end.

(** One pass of the loop over [ENGINES] in [collectAll]; the state is
    [responses] and [responseFiles]. *)
Definition collectEngine (env : Env) (targets : list Tab) (promptDir query : string)
    (timeoutSec : Z) (acc : list Response * list ResponseFile) (engine : Engine)
  : M (list Response * list ResponseFile) :=
  match findTab targets engine with
  | None =>
      exec onProgress "engine_done" (PEngineDone (name engine) "no_tab" 0);
      ret ((fst acc ++ [mkResponse (name engine) (slug engine) "no_tab" None None])%list,
           snd acc)
  | Some tab =>
      do text <- extractFromTab env tab engine timeoutSec;
      let filePath := engineFile promptDir engine in
      do d <- newDate env;
      let md := engineHeader engine tab d query in
      match truthy text with
      | Some t =>
          let chars := Z.of_nat (String.length t) in
          exec onProgress "engine_done" (PEngineDone (name engine) "ok" chars);
          exec writeFileSync filePath (md +:+ t);
          ret ((fst acc ++ [mkResponse (name engine) (slug engine) "ok" (Some chars)
                                       (Some (slug engine +:+ ".md"))])%list,
               (snd acc ++ [mkResponseFile (name engine) filePath])%list)
      | None =>
          exec onProgress "engine_done" (PEngineDone (name engine) "failed" 0);
          exec writeFileSync filePath (md +:+ NO_RESPONSE);
          ret ((fst acc ++ [mkResponse (name engine) (slug engine) "failed" None None])%list,
               snd acc)
      end
  end.

(** [folderName]: the stamp of the start, an underscore, the slug. *)
Definition folderNameOf (d : Date) (query : string) : string :=
  DateFmt.stamp d +:+ "_" +:+ slugify query.

Definition collectAll (env : Env) (opts : Options) : M Result :=
  let timeoutSec :=
    match timeout opts with
    | Some t => if t =? 0 then DEFAULT_TIMEOUT else t
    | None => DEFAULT_TIMEOUT
    end in
  let synthesisWanted :=
    match doSynthesize opts with
    | Some false => false
    | _ => true
    end in
  do targets <- listTabs env;
  do query <- extractQuery env targets;
  do started <- newDate env;
  let folderName := folderNameOf started query in
  let promptDir := pathJoin (OUTPUT_DIR env) folderName in
  exec mkdirSync promptDir;
  do d <- newDate env;
  exec writeFileSync (pathJoin promptDir "prompt.md") (promptDoc query d);
  exec onProgress "started" (PStarted query (map name ENGINES));
  do collected <- forEach (collectEngine env targets promptDir query timeoutSec)
                          ENGINES ([], []);
  let responses := fst collected in
  let responseFiles := snd collected in
  let synthesisPath := pathJoin promptDir "synthesis.md" in
  do synthesis <-
    (if synthesisWanted && (2 <=? length responseFiles)%nat then
       exec onProgress "synthesizing" PSynthesizing;
       exec synthesize env query responseFiles promptDir;
       do present <- existsSync synthesisPath;
       ret (if present then Some synthesisPath else None)
     else ret None);
  do viewer <-
    tryCatch
      (do present <- existsSync synthesisPath;
       do htmlPath <- generateViewer env promptDir query responses
                                     (if present then Some synthesisPath else None);
       ret (Some "index.html"))
      (fun _ => ret None);
  exec onProgress "complete" (PComplete folderName query responses);
  ret (mkResult promptDir folderName query responses synthesis
                (match synthesis with Some _ => Some "synthesis.md" | None => None end)
                viewer).

(** Whether the synthesis process was run among some events. *)
Fixpoint synthesisRuns (evs : list Event) : nat :=
  match evs with
  | [] => 0
  | SynthesisRun _ _ :: rest => S (synthesisRuns rest)
  | _ :: rest => synthesisRuns rest
  end.

Definition okCount (rs : list Response) : nat :=
  length (List.filter (fun r => String.eqb (r_status r) "ok") rs).

(** ** MAIN: the command line *)

Record CliOptions := mkCliOptions {
  cliTimeout : Js.Num
}.

(** The loop of [parseArgs] over [args], from the index it stands at; a
    "--timeout" takes the argument after it when that one is not empty. *)
Fixpoint parseFrom (args : list string) (opts : CliOptions) : CliOptions :=
  match args with
  | [] => opts
  | arg :: rest =>
      if String.eqb arg "--timeout" then
        match rest with
        | value :: rest' =>
            if (0 <? String.length value)%nat
            then parseFrom rest' (mkCliOptions (Js.parseInt value))
            else parseFrom rest opts
        | [] => opts
        end
      else parseFrom rest opts
  end.

(** [parseArgs()], for [process.argv] being [argv]. *)
Definition parseArgs (argv : list string) : CliOptions :=
  parseFrom (drop 2 argv) (mkCliOptions (Js.Int DEFAULT_TIMEOUT)).

(** The seconds [extractFromTab] has when it is given [n]. With [NaN] the
    deadline is [NaN] and [Date.now() < deadline] is false at once: no poll
    is made, as with 0 seconds. *)
Definition secondsOf (n : Js.Num) : Z :=
  match n with
  | Js.Int z => z
  | Js.NaN => 0
  end.

(** [fs.statSync(path).size] *)
Definition statSize (path : string) : M Z :=
  fun w =>
    match files w !! path with
    | Some content => (Ok (Js.utf8Length content), w)
    | None => (Thrown NoSuchFile, w)
    end.

(** [xs.map(f)] for an [f] that may throw. *)
Fixpoint mapEach {A B : Type} (f : A -> M B) (xs : list A) : M (list B) :=
  match xs with
  | [] => ret []
  | x :: rest =>
      do y <- f x;
      do ys <- mapEach f rest;
      ret (y :: ys)
  end.

(** One pass of the loop over [ENGINES] in [main]; the state is
    [responseFiles]. *)
Definition mainEngine (env : Env) (targets : list Tab) (promptDir query : string)
    (timeoutSec : Z) (responseFiles : list ResponseFile) (engine : Engine)
  : M (list ResponseFile) :=
  match findTab targets engine with
  | None => ret responseFiles
  | Some tab =>
      do text <- extractFromTab env tab engine timeoutSec;
      let filePath := engineFile promptDir engine in
      do d <- newDate env;
      let md := engineHeader engine tab d query in
      match truthy text with
      | Some t =>
          exec writeFileSync filePath (md +:+ t);
          ret (responseFiles ++ [mkResponseFile (name engine) filePath])%list
      | None =>
          exec writeFileSync filePath (md +:+ NO_RESPONSE);
          ret responseFiles
      end
  end.

(** An entry of [viewerResponses]. *)
Definition viewerResponse (r : ResponseFile) : M Response :=
  let eng := List.find (fun e => String.eqb (name e) (rf_engine r)) ENGINES in
  do size <- statSize (rf_path r);
  ret (mkResponse (rf_engine r)
                  (match eng with
                   | Some e => slug e
                   | None => Js.toLowerCase (rf_engine r)
                   end)
                  "ok" (Some size) None).

(** How [main] ends: by [process.exit(code)] or at its last line. *)
Inductive Ended :=
| Exited (code : Z)
| Done.

Definition main (env : Env) (argv : list string) : M Ended :=
  let opts := parseArgs argv in
  do listed <- tryCatch (do targets <- listTabs env; ret (Some targets))
                        (fun _ => ret None);
  match listed with
  | None => ret (Exited 1)
  | Some targets =>
      do query <- extractQuery env targets;
      do ts <- newDate env;
      let folderName := folderNameOf ts query in
      let promptDir := pathJoin (OUTPUT_DIR env) folderName in
      exec mkdirSync promptDir;
      do d <- newDate env;
      exec writeFileSync (pathJoin promptDir "prompt.md") (promptDoc query d);
      do responseFiles <-
        forEach (mainEngine env targets promptDir query (secondsOf (cliTimeout opts)))
                ENGINES [];
      if (length responseFiles =? 0)%nat then ret (Exited 1)
      else
        exec synthesize env query responseFiles promptDir;
        exec tryCatch
               (let synthPath := pathJoin promptDir "synthesis.md" in
                do viewerResponses <- mapEach viewerResponse responseFiles;
                do present <- existsSync synthPath;
                do htmlPath <- generateViewer env promptDir query viewerResponses
                                 (if present then Some synthPath else None);
                ret tt)
               (fun _ => ret tt);
        ret Done
  end.

(** ** Notions the proofs use *)

(** The world after one [Runtime.evaluate] of the engine's script. *)
Definition polled (env : Env) (client : nat) (engine : Engine) (w : World) : World :=
  emit (Evaluated client (extractScript engine) (fst (runtimeEvaluate env (evaluations w))))
       (mkWorld (now w + Z.of_N (snd (runtimeEvaluate env (evaluations w))))
                (connections w) (S (evaluations w)) (files w) (trace w)).

(** The events of the polling loop: evaluations and sleeps. *)
Definition pollEvent (e : Event) : Prop :=
  match e with
  | Evaluated _ _ _ => True
  | Slept _ => True
  | _ => False
  end.

(** The events of the browser: no file, no progress, no synthesis. *)
Definition browserEvent (e : Event) : Prop :=
  match e with
  | Connected _ _ => True
  | ConnectFailed _ => True
  | Evaluated _ _ _ => True
  | Closed _ _ => True
  | Slept _ => True
  | _ => False
  end.

(** What the loop leaves unchanged, and what it adds. *)
Record pollRun (lastText : string) (stableCount : Z) (w : World) (out : LoopExit)
    (w' : World) (evs : list Event) : Prop := {
  run_trace : trace w' = (trace w ++ evs)%list;
  run_files : files w' = files w;
  run_connections : connections w' = connections w;
  run_clock : now w <= now w';
  run_events : Forall pollEvent evs;
  run_replay : replay (pollsOf evs) lastText stableCount = (out, [])
}.

(** What a call of [extractExit] does: either the connection is refused, or
    a client is opened, polled and closed. *)
Inductive extraction (env : Env) (target : Tab) (w : World) (e : Exit) (w' : World) : Prop :=
| extraction_refused :
    cdpConnect env (connections w) = false ->
    e = ConnectionError ->
    eventsSince w w' = [ConnectFailed target] ->
    extraction env target w e w'
| extraction_polled (evs : list Event) (out : LoopExit) :
    cdpConnect env (connections w) = true ->
    eventsSince w w' =
      (Connected (connections w) target :: evs
       ++ [Closed (connections w) (clientClose env (connections w))])%list ->
    Forall pollEvent evs ->
    replay (pollsOf evs) "" 0 = (out, []) ->
    e = exitOf out ->
    extraction env target w e w'.

(** While [stableCount] is positive, [lastText] is what the last resolved
    poll showed. *)
Definition counted (seen : option string) (lastText : string) (stableCount : Z) : Prop :=
  0 <= stableCount /\ (1 <= stableCount -> seen = Some lastText /\ lastText <> "").

Definition showsNothing (o : EvalOutcome) : bool := (String.length (textOf o) =? 0)%nat.

(** A list of slug characters: letters, digits and single hyphens; after a
    hyphen ([afterHyphen]) no hyphen comes next. *)
Fixpoint clean (afterHyphen : bool) (l : list ascii) : Prop :=
  match l with
  | [] => True
  | c :: r =>
      (Js.isAlnum c = true /\ clean false r)
      \/ (c = Js.hyphen /\ afterHyphen = false /\ clean true r)
  end.

(** The words put back together with single hyphens. *)
Fixpoint joinWords (ws : list (list ascii)) : list ascii :=
  match ws with
  | [] => []
  | w :: rest =>
      match rest with
      | [] => w
      | _ => w ++ Js.hyphen :: joinWords rest
      end
  end.

(** ** Concrete worlds *)

Definition someDate : Date := mkDate 2024 5 17 9 30 15 250.

(** A browser with the tabs [tabs], where every connection and every close
    succeeds and the page answers by [page]; no URL carries a query, the
    synthesis process and the viewer fail. *)
Definition browserWith (tabs : list Tab) (page : nat -> EvalOutcome * N) : Env :=
  mkEnv "/app" (Some tabs) (fun _ => true) page (fun _ => true)
        (fun _ => someDate) (fun _ => None) (fun _ _ => None) (fun _ _ _ _ => None).

Definition browser (page : nat -> EvalOutcome * N) : Env := browserWith [] page.

Definition startWorld : World := mkWorld 1000 0 0 ∅ [].

Definition someTab : Tab := mkTab "T1" "page" "https://chatgpt.com/c/1" "ChatGPT".

Definition someEngine : Engine :=
  mkEngine "ChatGPT" "chatgpt" (Js.includes "chatgpt.com")
           "(() => { /* ChatGPT selectors */ })()".

Definition steadyPage : nat -> EvalOutcome * N := fun _ => (Returned (Some "Paris"), 0%N).

Definition brokenPage : nat -> EvalOutcome * N := fun _ => (Rejected, 100%N).

Definition changingPage : nat -> EvalOutcome * N :=
  fun k => (Returned (Some (if Nat.even k then "Par" else "Paris")), 0%N).

Definition flakyPage : nat -> EvalOutcome * N :=
  fun k => (if Nat.even k then Returned (Some "Paris") else Rejected, 0%N).

(** A status a response can carry. *)
Definition knownStatus (r : Response) : Prop :=
  r_status r = "ok" \/ r_status r = "no_tab" \/ r_status r = "failed".

(** The file a response stands for, in the files [after] a run that started
    with the files [before]. *)
Definition fileOf (promptDir : string) (before after : gmap string string)
    (r : Response) : Prop :=
  let path := pathJoin promptDir (r_slug r +:+ ".md") in
  (r_status r = "no_tab" -> after !! path = before !! path)
  /\ (r_status r = "ok" -> exists content, after !! path = Some content)
  /\ (r_status r = "failed" ->
      exists header, after !! path = Some (header +:+ NO_RESPONSE)).

(** [opts.doSynthesize !== false] *)
Definition synthesisWanted (opts : Options) : bool :=
  match doSynthesize opts with
  | Some false => false
  | _ => true
  end.

(** What a run of [collectAll] that returns [r] has done between [w] and
    [w']. *)
Record collected (env : Env) (opts : Options) (w : World) (r : Result) (w' : World)
  : Prop := {
  col_events :
    exists evs, trace w' = (trace w ++ evs)%list
      /\ synthesisRuns evs =
         (if synthesisWanted opts && (2 <=? okCount (responses r))%nat then 1 else 0)%nat;
  col_folder :
    exists t, now w <= t <= now w'
      /\ folderName r = folderNameOf (utc env t) (query r);
  col_dir : promptDir r = pathJoin (OUTPUT_DIR env) (folderName r);
  col_engines : map r_engine (responses r) = map name ENGINES;
  col_slugs : map r_slug (responses r) = map slug ENGINES;
  col_status : Forall knownStatus (responses r);
  col_files : Forall (fileOf (promptDir r) (files w) (files w')) (responses r);
  col_prompt :
    exists d, files w' !! pathJoin (promptDir r) "prompt.md" = Some (promptDoc (query r) d);
  col_synthesis :
    forall p, synthesisPath r = Some p ->
      p = pathJoin (promptDir r) "synthesis.md" /\ synthesisFile r = Some "synthesis.md"
      /\ exists content, files w' !! p = Some content;
  col_no_synthesis :
    synthesisPath r = None -> synthesisFile r = None;
  col_synthesized :
    synthesisWanted opts && (2 <=? okCount (responses r))%nat = true ->
    exists rfs, length rfs = okCount (responses r)
      /\ forall text, claude env (query r) rfs = Some text ->
           synthesisPath r = Some (pathJoin (promptDir r) "synthesis.md")
           /\ exists d, files w' !! pathJoin (promptDir r) "synthesis.md"
                        = Some (synthesisDoc (query r) d rfs text)
}.

Definition claudeTab : Tab := mkTab "T2" "page" "https://claude.ai/chat/7" "Claude".

Definition defaults : Options := mkOptions None None.

(** A page that shows "Paris" four times and fails from then on. *)
Definition mixedPage : nat -> EvalOutcome * N :=
  fun k => (if (k <? 4)%nat then Returned (Some "Paris") else Rejected, 0%N).

(** A page that shows "Paris" twice and then shows nothing. *)
Definition fadingPage : nat -> EvalOutcome * N :=
  fun k => (Returned (Some (if (k <? 2)%nat then "Paris" else "")), 0%N).

(** ** The calendar *)

(** Days from the year 0 to the first of March of year [y], up to a
    constant. *)
Definition marchFirst (y : Z) : Z := 365 * y + y / 4 - y / 100 + y / 400.

(** The year and the month of a date in the calendar that starts in March,
    and the day of that year. *)
Definition shiftYear (y m : Z) : Z := if m <=? 2 then y - 1 else y.
Definition shiftMonth (m : Z) : Z := if 2 <? m then m - 3 else m + 9.
Definition dayOfYear (mp d : Z) : Z := (153 * mp + 2) / 5 + d - 1.

Definition validDay (y m d : Z) : Prop :=
  1 <= m <= 12 /\ 1 <= d <= DateFmt.daysInMonth y m.

(** The fields a folder stamp shows. *)
Definition stampKey (d : Date) : list Z :=
  [year d; month d; day d; hours d; minutes d; seconds d].

Fixpoint lexCompare (a b : list Z) : comparison :=
  match a, b with
  | [], [] => Eq
  | [], _ :: _ => Lt
  | _ :: _, [] => Gt
  | x :: a', y :: b' =>
      match x ?= y with
      | Eq => lexCompare a' b'
      | c => c
      end
  end.

(** Two instants of one second, and a third one later. *)
Definition noonEarly : Date := mkDate 2024 5 17 12 0 0 100.
Definition noonLate : Date := mkDate 2024 5 17 12 0 0 900.
Definition afterNoon : Date := mkDate 2024 5 17 12 0 1 0.

(** ** The instant of the folder name *)

(** The civil date of a day counted from 1970-01-01. *)
Definition civilFromDays (days : Z) : Z * Z * Z :=
  let z := days + 719468 in
  let era := z / 146097 in
  let doe := z - era * 146097 in
  let yoe := (doe - doe / 1460 + doe / 36524 - doe / 146096) / 365 in
  let doy := doe - (365 * yoe + yoe / 4 - yoe / 100) in
  let mp := (5 * doy + 2) / 153 in
  let d := doy - (153 * mp + 2) / 5 + 1 in
  let m := if mp <? 10 then mp + 3 else mp - 9 in
  let y := yoe + era * 400 in
  (if m <=? 2 then y + 1 else y, m, d).

(** The UTC date of an instant in milliseconds since the epoch. *)
Definition dateOf (t : Z) : Date :=
  let ms := t mod 86400000 in
  let '(y, m, d) := civilFromDays (t / 86400000) in
  mkDate y m d (ms / 3600000) (ms / 60000 mod 60) (ms / 1000 mod 60) (ms mod 1000).

(** The clock when [extractQuery] has returned: the instant [new Date()]
    reads for the folder name, in [collectAll] and in [main]. *)
Definition stampedAt (env : Env) (w : World) : Z :=
  match cdpList env with
  | Some targets => now (snd (extractQuery env targets w))
  | None => now w
  end.

(** [utc env] gives the instant [t] its date, in the years 0000 to 9999. *)
Definition onCalendar (env : Env) (t : Z) : Prop :=
  DateFmt.valid (utc env t) = true
  /\ DateFmt.getTime (utc env t) = t
  /\ 0 <= year (utc env t) <= 9999.

(** The calls of [onProgress] among some events. *)
Fixpoint progressOf (evs : list Event) : list (string * Payload) :=
  match evs with
  | [] => []
  | Progress event payload :: rest => (event, payload) :: progressOf rest
  | _ :: rest => progressOf rest
  end.

(** The runs of the synthesis process among some events. *)
Fixpoint synthesisCalls (evs : list Event) : list (string * list ResponseFile) :=
  match evs with
  | [] => []
  | SynthesisRun q fs :: rest => (q, fs) :: synthesisCalls rest
  | _ :: rest => synthesisCalls rest
  end.

(** The directories made among some events. *)
Fixpoint madeDirs (evs : list Event) : list string :=
  match evs with
  | [] => []
  | MadeDir path :: rest => path :: madeDirs rest
  | _ :: rest => madeDirs rest
  end.

(** [q] as a URL has it in its query part: a space is written [+]. The
    queries below have no other character that a URL would escape. *)
Definition formEncode (q : string) : string :=
  string_of_list_ascii
    (map (fun c => if (Js.code c =? 32)%N then "+"%char else c) (list_ascii_of_string q)).

(** A Perplexity search page for [q]. *)
Definition searchPage (q : string) : Tab :=
  mkTab "T9" "page" ("https://www.perplexity.ai/search?q=" +:+ formEncode q)
        (q +:+ " - Perplexity").

(** A browser with the search page for [q] and the calendar of the world:
    the URL of the page carries [q], and the page takes [ms] milliseconds to
    evaluate a script, which gives the title of the page. *)
Definition askedBrowser (q : string) (ms : N) : Env :=
  mkEnv "/app" (Some [searchPage q])
        (fun _ => true) (fun _ => (Returned (Some (q +:+ " - Perplexity")), ms))
        (fun _ => true) dateOf
        (fun url => if String.eqb url (tab_url (searchPage q))
                    then Some (fun k => if String.eqb k "q" then Some q else None)
                    else None)
        (fun _ _ => None) (fun _ _ _ _ => None).

Definition worldAt (d : Date) : World := mkWorld (DateFmt.getTime d) 0 0 ∅ [].

(** ** What a run leaves for an engine *)

(** The text an engine file ends with, and the status of its engine. *)
Definition engineText (text : option string) : string :=
  match truthy text with
  | Some t => t
  | None => NO_RESPONSE
  end.

Definition engineStatus (text : option string) : string :=
  match truthy text with
  | Some _ => "ok"
  | None => "failed"
  end.

(** What a run leaves for the engine [e], given the tabs: without a matching
    page tab the status "no_tab" and the engine file as it was in [before];
    with a tab, the engine file with the header and the text, or the note,
    that [extractFromTab] gave for that tab, and the status that goes with
    it. *)
Definition collectedFrom (env : Env) (timeoutSec : Z) (targets : list Tab)
    (promptDir query : string) (before after : gmap string string)
    (e : Engine) (status : string) : Prop :=
  match findTab targets e with
  | None =>
      status = "no_tab"
      /\ after !! engineFile promptDir e = before !! engineFile promptDir e
  | Some tab =>
      exists d text w0,
        fst (extractFromTab env tab e timeoutSec w0) = Ok text
        /\ status = engineStatus text
        /\ after !! engineFile promptDir e
           = Some (engineHeader e tab d query +:+ engineText text)
  end.

(** The timeout of the command line is a number JavaScript holds exactly. *)
Definition exactTimeout (argv : list string) : Prop :=
  match cliTimeout (parseArgs argv) with
  | Js.Int z => Z.abs z < 2 ^ 53
  | Js.NaN => True
  end.

(** The entries [main] pushes to [responseFiles]: one for every engine whose
    status is "ok", in order. *)
Fixpoint okFiles (promptDir : string) (engines : list Engine) (statuses : list string)
  : list ResponseFile :=
  match engines, statuses with
  | e :: engines', s :: statuses' =>
      ((if String.eqb s "ok" then [mkResponseFile (name e) (engineFile promptDir e)] else [])
         ++ okFiles promptDir engines' statuses')%list
  | _, _ => []
  end.

(** What a run of [main] that ends by [ended] has done between [w] and [w'],
    for the tabs [targets]. *)
Record mainReport (env : Env) (argv : list string) (targets : list Tab) (w : World)
    (ended : Ended) (w' : World) (query : string) (statuses : list string) : Prop := {
  main_query : fst (extractQuery env targets w) = Ok query;
  main_made :
    madeDirs (eventsSince w w')
    = [pathJoin (OUTPUT_DIR env) (folderNameOf (utc env (stampedAt env w)) query)];
  main_prompt :
    exists d,
      files w' !! pathJoin (pathJoin (OUTPUT_DIR env)
                              (folderNameOf (utc env (stampedAt env w)) query)) "prompt.md"
      = Some (promptDoc query d);
  main_engines :
    Forall2 (collectedFrom env (secondsOf (cliTimeout (parseArgs argv))) targets
               (pathJoin (OUTPUT_DIR env) (folderNameOf (utc env (stampedAt env w)) query))
               query (files w) (files w'))
            ENGINES statuses;
  main_exit :
    ended = if (length (okFiles (pathJoin (OUTPUT_DIR env)
                                   (folderNameOf (utc env (stampedAt env w)) query))
                                ENGINES statuses) =? 0)%nat
            then Exited 1 else Done;
  main_synthesis :
    synthesisCalls (eventsSince w w')
    = match okFiles (pathJoin (OUTPUT_DIR env)
                       (folderNameOf (utc env (stampedAt env w)) query))
                    ENGINES statuses with
      | [] => []
      | rfs => [(query, rfs)]
      end;
  main_synthesized :
    forall text,
      okFiles (pathJoin (OUTPUT_DIR env) (folderNameOf (utc env (stampedAt env w)) query))
              ENGINES statuses <> [] ->
      claude env query
             (okFiles (pathJoin (OUTPUT_DIR env)
                         (folderNameOf (utc env (stampedAt env w)) query))
                      ENGINES statuses) = Some text ->
      exists d,
        files w' !! pathJoin (pathJoin (OUTPUT_DIR env)
                                (folderNameOf (utc env (stampedAt env w)) query))
                             "synthesis.md"
        = Some (synthesisDoc query d
                  (okFiles (pathJoin (OUTPUT_DIR env)
                              (folderNameOf (utc env (stampedAt env w)) query))
                           ENGINES statuses)
                  text)
}.

Definition aiStudioTab : Tab :=
  mkTab "T4" "page" "https://aistudio.google.com/prompts/new_chat" "Google AI Studio".

(** A page that shows "Paris" eight times and fails from then on. *)
Definition tiringPage : nat -> EvalOutcome * N :=
  fun k => (if (k <? 8)%nat then Returned (Some "Paris") else Rejected, 0%N).

(** A browser with a ChatGPT, a Claude and an AI Studio tab on that page,
    where the synthesis process prints a text and the viewer renders. *)
Definition threeTabs : Env :=
  mkEnv "/app" (Some [someTab; claudeTab; aiStudioTab]) (fun _ => true) tiringPage
        (fun _ => true) dateOf (fun _ => None) (fun _ _ => Some "Both agree.")
        (fun _ _ _ _ => Some "<html></html>").

(** ** More notions for the extractor *)

(** How many of some polls show the text [v]. *)
Definition showCount (v : string) (polls : list EvalOutcome) : nat :=
  length (List.filter (shows v) polls).

(** ** More notions for the query *)

(** The [q] parameter of a tab's URL, else its [prompt] parameter; empty when
    there is none or the URL does not parse. *)
Definition urlParam (env : Env) (t : Tab) : string :=
  match searchParams env (tab_url t) with
  | Some get => orElse (get "q") (orElse (get "prompt") "")
  | None => ""
  end.

(** A page whose URL carries a query of more than 10 characters. *)
Definition carriesQuery (env : Env) (t : Tab) : bool :=
  String.eqb (tab_type t) "page" && (10 <? String.length (urlParam env t))%nat.

(** A browser whose pages are [tabs], whose URLs carry the parameters
    [params] and whose pages answer by [page]. *)
Definition browserAsked (tabs : list Tab) (params : string -> option (string -> option string))
    (page : nat -> EvalOutcome * N) : Env :=
  mkEnv "/app" (Some tabs) (fun _ => true) page (fun _ => true)
        (fun _ => someDate) params (fun _ _ => None) (fun _ _ _ _ => None).

Definition searchTab : Tab :=
  mkTab "T3" "page" "https://www.perplexity.ai/search?q=capital+of+France"
        "capital of France - Perplexity".

(** The parameters of the URLs of [claudeTab] and [searchTab]. *)
Definition paramsOf (url : string) : option (string -> option string) :=
  if String.eqb url (tab_url searchTab)
  then Some (fun k => if String.eqb k "q" then Some "capital of France" else None)
  else Some (fun _ => None).

Definition titlePage : nat -> EvalOutcome * N :=
  fun _ => (Returned (Some "capital of France - Perplexity"), 0%N).

(** No separator [sep] starts inside [cur] when [s] comes after it. *)
Fixpoint clearOf (sep cur s : string) : bool :=
  match cur with
  | EmptyString => true
  | String _ rest => negb (String.prefix sep (cur +:+ s)) && clearOf sep rest s
  end.

(** A string without its first [n] characters. *)
Fixpoint dropChars (n : nat) (s : string) : string :=
  match n, s with
  | O, _ => s
  | S k, EmptyString => EmptyString
  | S k, String _ rest => dropChars k rest
  end.

(** ** More notions for the pipeline *)

(** The [engine_done] call that goes with a response. *)
Definition engineDone (r : Response) : string * Payload :=
  ("engine_done",
   PEngineDone (r_engine r) (r_status r)
               (match r_chars r with Some chars => chars | None => 0 end)).

Definition isOk (r : Response) : bool := String.eqb (r_status r) "ok".

(** The entry of [responseFiles] that goes with a response. *)
Definition fileEntry (promptDir : string) (r : Response) : ResponseFile :=
  mkResponseFile (r_engine r) (pathJoin promptDir (r_slug r +:+ ".md")).

(** [opts.timeout || DEFAULT_TIMEOUT] *)
Definition timeoutOf (opts : Options) : Z :=
  match timeout opts with
  | Some t => if t =? 0 then DEFAULT_TIMEOUT else t
  | None => DEFAULT_TIMEOUT
  end.

(** What the response [r] of the engine [e] says, given the tabs, and what
    the engine's file holds in [after]; [text] is what [extractFromTab] gave
    for the engine's tab at some moment of the run. *)
Definition answered (env : Env) (timeoutSec : Z) (targets : list Tab)
    (promptDir query : string) (after : gmap string string) (e : Engine) (r : Response)
  : Prop :=
  r_engine r = name e /\ r_slug r = slug e /\
  match findTab targets e with
  | None => r_status r = "no_tab" /\ r_chars r = None /\ r_file r = None
  | Some tab =>
      (r_status r = "ok"
       /\ exists d text w0,
            fst (extractFromTab env tab e timeoutSec w0) = Ok (Some text)
            /\ text <> "" /\ r_chars r = Some (Z.of_nat (String.length text))
            /\ r_file r = Some (slug e +:+ ".md")
            /\ after !! engineFile promptDir e = Some (engineHeader e tab d query +:+ text))
      \/ (r_status r = "failed" /\ r_chars r = None /\ r_file r = None
          /\ exists d text w0,
               fst (extractFromTab env tab e timeoutSec w0) = Ok text
               /\ truthy text = None
               /\ after !! engineFile promptDir e
                  = Some (engineHeader e tab d query +:+ NO_RESPONSE))
  end.

(** More of what a run of [collectAll] that returns [r] has done. *)
Record reported (env : Env) (opts : Options) (targets : list Tab) (w : World)
    (r : Result) (w' : World) : Prop := {
  rep_progress :
    progressOf (eventsSince w w') =
    (("started", PStarted (query r) (map name ENGINES))
       :: map engineDone (responses r)
       ++ (if synthesisWanted opts && (2 <=? okCount (responses r))%nat
           then [("synthesizing", PSynthesizing)] else [])
       ++ [("complete", PComplete (folderName r) (query r) (responses r))])%list;
  rep_answers :
    Forall2 (answered env (timeoutOf opts) targets (promptDir r) (query r) (files w'))
            ENGINES (responses r);
  rep_synthesis :
    synthesisCalls (eventsSince w w') =
    if synthesisWanted opts && (2 <=? okCount (responses r))%nat
    then [(query r, map (fileEntry (promptDir r)) (List.filter isOk (responses r)))]
    else [];
  rep_skipped :
    synthesisWanted opts && (2 <=? okCount (responses r))%nat = false ->
    synthesisPath r = None /\ synthesisFile r = None
    /\ files w' !! pathJoin (promptDir r) "synthesis.md"
       = files w !! pathJoin (promptDir r) "synthesis.md";
  rep_query : fst (extractQuery env targets w) = Ok (query r);
  rep_folder : folderName r = folderNameOf (utc env (stampedAt env w)) (query r);
  rep_dir : promptDir r = pathJoin (OUTPUT_DIR env) (folderName r);
  rep_clock : now w <= stampedAt env w <= now w';
  rep_made : madeDirs (eventsSince w w') = [promptDir r];
  rep_synthesized :
    synthesisWanted opts && (2 <=? okCount (responses r))%nat = true ->
    forall text,
      claude env (query r)
             (map (fileEntry (promptDir r)) (List.filter isOk (responses r))) = Some text ->
      synthesisPath r = Some (pathJoin (promptDir r) "synthesis.md")
      /\ exists d, files w' !! pathJoin (promptDir r) "synthesis.md"
                   = Some (synthesisDoc (query r) d
                             (map (fileEntry (promptDir r)) (List.filter isOk (responses r)))
                             text);
  rep_viewer :
    match renderViewer env (promptDir r) (query r) (responses r)
            (match files w' !! pathJoin (promptDir r) "synthesis.md" with
             | Some _ => Some (pathJoin (promptDir r) "synthesis.md")
             | None => None
             end) with
    | Some html =>
        viewerFile r = Some "index.html"
        /\ files w' !! pathJoin (promptDir r) "index.html" = Some html
    | None =>
        viewerFile r = None
        /\ files w' !! pathJoin (promptDir r) "index.html"
           = files w !! pathJoin (promptDir r) "index.html"
    end
}.

(** A run with synthesis switched off. *)
Definition withoutSynthesis : Options := mkOptions None (Some false).

(** A browser where the synthesis process prints [text] and the viewer
    renders [html]. *)
Definition studio (tabs : list Tab) (page : nat -> EvalOutcome * N) (text html : string)
  : Env :=
  mkEnv "/app" (Some tabs) (fun _ => true) page (fun _ => true)
        (fun _ => someDate) (fun _ => None) (fun _ _ => Some text)
        (fun _ _ _ _ => Some html).

(** A browser whose endpoint refuses. *)
Definition noBrowser : Env :=
  mkEnv "/app" None (fun _ => true) steadyPage (fun _ => true)
        (fun _ => someDate) (fun _ => None) (fun _ _ => None) (fun _ _ _ _ => None).

(** The options with the timeout [t]. *)
Definition within (t : Z) (doSynthesize : option bool) : Options :=
  mkOptions (Some t) doSynthesize.

(** * submit.js: click the submit buttons of the AI tabs *)

Module Submit.

Record Submitter := mkSubmitter {
  name : string;
  urlMatch : string -> bool;
  script : string;
  awaitPromise : bool
}.

(** The three submitters. A [script] runs inside the page, whose answers are
    [runtimeEvaluate]'s; its text is abridged to a label here. *)
Definition SUBMITTERS : list Submitter :=
  [ mkSubmitter "ChatGPT" (Js.includes "chatgpt.com")
                "(() => { /* click send-button */ })()" false;
    mkSubmitter "Google AI Studio" (Js.includes "aistudio.google.com")
                "(() => { /* dismiss dialogs, click Run */ })()" true;
    mkSubmitter "Claude" (Js.includes "claude.ai")
                "(() => { /* click Send message */ })()" false ].

(** The [result] field of an entry: [null], the value the script gave, or the
    message of the error that was caught, which is kept as the error. *)
Inductive Outcome :=
| Null
| Value (text : string)
| Message (err : Exn).

Record Entry := mkEntry {
  engine : string;
  status : string;
  result : Outcome
}.

(** [targets.find((t) => t.type === "page" && sub.urlMatch.test(t.url))] *)
Definition findTab (targets : list Tab) (sub : Submitter) : option Tab :=
  List.find (fun t => String.eqb (tab_type t) "page" && urlMatch sub (tab_url t))
            targets.

(** One pass of the loop over [SUBMITTERS] in [submitAll]; the state is
    [results]. When [CDP(...)] rejects, [catch] pushes the error and [finally]
    finds [client] unset. *)
Definition submitOne (env : Env) (targets : list Tab) (results : list Entry)
    (sub : Submitter) : M (list Entry) :=
  match findTab targets sub with
  | None => ret (results ++ [mkEntry (name sub) "no_tab" Null])%list
  | Some tab =>
      fun w =>
        match cdpOpen env tab w with
        | (Ok client, w1) =>
            tryFinally
              (tryCatch
                 (do value <- evaluate env client (script sub);
                  let val := orElse value "done" in
                  ret (results ++ [mkEntry (name sub) "ok" (Value val)])%list)
                 (fun err => ret (results ++ [mkEntry (name sub) "error" (Message err)])%list))
              (closeQuietly env client) w1
        | (Thrown err, w1) =>
            (Ok (results ++ [mkEntry (name sub) "error" (Message err)])%list, w1)
        | (Hung, w1) => (Hung, w1)
        end
  end.

Definition submitAll (env : Env) : M (list Entry) :=
  do targets <- listTabs env;
  forEach (submitOne env targets) SUBMITTERS [].

End Submit.

(** What the entry of a submitter says, given the tabs. *)
Definition submitted (targets : list Tab) (sub : Submit.Submitter) (entry : Submit.Entry)
  : Prop :=
  Submit.engine entry = Submit.name sub /\
  match Submit.findTab targets sub with
  | None => Submit.status entry = "no_tab" /\ Submit.result entry = Submit.Null
  | Some _ =>
      (Submit.status entry = "ok"
       /\ exists text, text <> "" /\ Submit.result entry = Submit.Value text)
      \/ (Submit.status entry = "error"
          /\ exists err, Submit.result entry = Submit.Message err)
  end.

(** Sessions that do not overlap: a connection is refused, or a client is
    opened and the next event of a connection closes it. *)
Fixpoint closedInTurn (sessions : list Event) : bool :=
  match sessions with
  | [] => true
  | ConnectFailed _ :: rest => closedInTurn rest
  | Connected client _ :: Closed client' _ :: rest =>
      Nat.eqb client client' && closedInTurn rest
  | _ => false
  end.

(** The clients opened among some events. *)
Fixpoint clientsOf (evs : list Event) : list nat :=
  match evs with
  | [] => []
  | Connected client _ :: rest => client :: clientsOf rest
  | _ :: rest => clientsOf rest
  end.

(** The clients that evaluated a script among some events. *)
Fixpoint evaluatorsOf (evs : list Event) : list nat :=
  match evs with
  | [] => []
  | Evaluated client _ _ :: rest => client :: evaluatorsOf rest
  | _ :: rest => evaluatorsOf rest
  end.

(** The waits among some events. *)
Fixpoint sleepsOf (evs : list Event) : list Z :=
  match evs with
  | [] => []
  | Slept ms :: rest => ms :: sleepsOf rest
  | _ :: rest => sleepsOf rest
  end.

(** * viewer.js: escaping the texts the page shows *)

Module Viewer.

(** [text.replace(/c/g, replacement)] for a pattern of one character [c]. *)
Fixpoint replaceAll (c : ascii) (replacement : string) (text : string) : string :=
  match text with
  | EmptyString => EmptyString
  | String a rest =>
      if Ascii.eqb a c then replacement +:+ replaceAll c replacement rest
      else String a (replaceAll c replacement rest)
  end.

Definition amp : ascii := "&"%char.
Definition lt : ascii := "<"%char.
Definition gt : ascii := ">"%char.
Definition quot : ascii := "034"%char.

Definition escapeHtml (text : string) : string :=
  replaceAll quot "&quot;"
    (replaceAll gt "&gt;"
       (replaceAll lt "&lt;"
          (replaceAll amp "&amp;" text))).

End Viewer.

(** What becomes of one character when a text is escaped in one pass. *)
Definition escapeChar (c : ascii) : string :=
  if Ascii.eqb c Viewer.amp then "&amp;"
  else if Ascii.eqb c Viewer.lt then "&lt;"
  else if Ascii.eqb c Viewer.gt then "&gt;"
  else if Ascii.eqb c Viewer.quot then "&quot;"
  else String c "".

Fixpoint escapeOnce (text : string) : string :=
  match text with
  | EmptyString => EmptyString
  | String c rest => escapeChar c +:+ escapeOnce rest
  end.

Fixpoint occurs (c : ascii) (text : string) : bool :=
  match text with
  | EmptyString => false
  | String a rest => Ascii.eqb a c || occurs c rest
  end.

(** * Proofs *)

(** ** Traces *)

Lemma eventsSince_app w w' evs :
  trace w' = (trace w ++ evs)%list -> eventsSince w w' = evs.
Proof. intros H. unfold eventsSince. rewrite H. apply drop_app_length. Qed.

Lemma pollsOf_app a b : pollsOf (a ++ b)%list = (pollsOf a ++ pollsOf b)%list.
Proof. induction a as [|[] a IH]; simpl; rewrite ?IH; reflexivity. Qed.

Lemma sessionsOf_app a b : sessionsOf (a ++ b)%list = (sessionsOf a ++ sessionsOf b)%list.
Proof. induction a as [|[] a IH]; simpl; rewrite ?IH; reflexivity. Qed.

Lemma synthesisRuns_app a b :
  synthesisRuns (a ++ b)%list = (synthesisRuns a + synthesisRuns b)%nat.
Proof. induction a as [|[] a IH]; simpl; rewrite ?IH; reflexivity. Qed.

Lemma pollEvent_browser e : pollEvent e -> browserEvent e.
Proof. destruct e; cbn; trivial. Qed.

Lemma sessionsOf_polls evs : Forall pollEvent evs -> sessionsOf evs = [].
Proof.
  induction 1 as [|e evs He _ IH]; [reflexivity|].
  destruct e; cbn in *; try contradiction; exact IH.
Qed.

Lemma synthesisRuns_browser evs : Forall browserEvent evs -> synthesisRuns evs = 0%nat.
Proof.
  induction 1 as [|e evs He _ IH]; [reflexivity|].
  destruct e; cbn in *; try contradiction; exact IH.
Qed.

(** ** The polling loop *)

Lemma pollLoop_step budget env client engine deadline lastText stableCount w :
  pollLoop (S budget) env client engine deadline lastText stableCount w =
  if now w <? deadline then
    match
      match fst (runtimeEvaluate env (evaluations w)) with
      | Returned v => observe (orElse v "") lastText stableCount
      | Rejected => Continue lastText stableCount
      end
    with
    | Return text => (Ok (Stabilized text), polled env client engine w)
    | Continue lastText' stableCount' =>
        pollLoop budget env client engine deadline lastText' stableCount'
                 (emit (Slept POLL_INTERVAL) (advance POLL_INTERVAL (polled env client engine w)))
    end
  else (Ok (DeadlineReached lastText), w).
Proof.
  cbn [pollLoop]. unfold bind at 1. unfold dateNow at 1.
  destruct (now w <? deadline); [|reflexivity].
  unfold bind at 1. unfold tryCatch, bind, evaluate. fold (polled env client engine w).
  destruct (fst (runtimeEvaluate env (evaluations w))) as [v|]; cbn.
  - destruct (observe (orElse v "") lastText stableCount); reflexivity.
  - reflexivity.
Qed.

(** With a budget that covers the time left, the loop ends by itself, and
    its exit is the replay of the polls it made. *)
Lemma pollLoop_runs env client engine deadline :
  forall budget lastText stableCount w,
    (1 <= budget)%nat ->
    deadline - now w <= POLL_INTERVAL * (Z.of_nat budget - 1) ->
    exists out w' evs,
      pollLoop budget env client engine deadline lastText stableCount w = (Ok out, w')
      /\ pollRun lastText stableCount w out w' evs.
Proof.
  induction budget as [|budget IH]; intros lastText stableCount w Hpos Hb; [lia|].
  rewrite pollLoop_step.
  destruct (Z.ltb_spec (now w) deadline) as [Hlt|Hge].
  - set (w1 := emit (Slept POLL_INTERVAL) (advance POLL_INTERVAL (polled env client engine w))).
    assert (Hclock : now w + POLL_INTERVAL <= now w1).
    { subst w1. cbn [now emit advance polled]. lia. }
    set (o := fst (runtimeEvaluate env (evaluations w))) in *.
    assert (Hcont : forall l s,
      match o with
      | Returned v => observe (orElse v "") lastText stableCount
      | Rejected => Continue lastText stableCount
      end = Continue l s ->
      exists out w' evs,
        pollLoop budget env client engine deadline l s w1 = (Ok out, w')
        /\ pollRun lastText stableCount w out w' evs).
    { intros l s Hstep.
      destruct (IH l s w1) as (out & w' & evs & Hrun & [Ht Hf Hc Hk He Hr]);
        [unfold POLL_INTERVAL in *; lia..|].
      exists out, w', (Evaluated client (extractScript engine) o :: Slept POLL_INTERVAL :: evs).
      split; [exact Hrun|]. split.
      - rewrite Ht. subst w1. cbn [trace emit advance polled]. fold o.
        rewrite <- !app_assoc. reflexivity.
      - rewrite Hf. reflexivity.
      - rewrite Hc. reflexivity.
      - unfold POLL_INTERVAL in *. lia.
      - repeat constructor. exact He.
      - cbn [pollsOf replay]. clear - Hstep Hr.
        destruct o as [v|]; [rewrite Hstep|injection Hstep as <- <-]; exact Hr. }
    destruct o as [v|] eqn:Eo.
    + destruct (observe (orElse v "") lastText stableCount) as [text|l s] eqn:Eobs.
      * exists (Stabilized text), (polled env client engine w),
          [Evaluated client (extractScript engine) (Returned v)].
        split; [reflexivity|]. split.
        -- cbn [trace emit polled]. fold o. rewrite Eo. reflexivity.
        -- reflexivity.
        -- reflexivity.
        -- cbn [now emit polled]. lia.
        -- repeat constructor.
        -- cbn [pollsOf replay]. rewrite Eobs. reflexivity.
      * apply Hcont. reflexivity.
    + apply Hcont. reflexivity.
  - exists (DeadlineReached lastText), w, []. split; [reflexivity|].
    split; cbn; rewrite ?app_nil_r; try reflexivity; try lia. constructor.
Qed.

Lemma pollBudget_enough timeoutSec t0 :
  (1 <= pollBudget timeoutSec)%nat /\
  (t0 + timeoutSec * 1000) - t0 <= POLL_INTERVAL * (Z.of_nat (pollBudget timeoutSec) - 1).
Proof.
  unfold pollBudget, POLL_INTERVAL. split; [lia|].
  destruct (Z.le_gt_cases 0 (timeoutSec * 1000 / 2000)) as [H|H].
  - rewrite Nat2Z.inj_add, Z2Nat.id by exact H.
    pose proof (Z.mul_succ_div_gt (timeoutSec * 1000) 2000 ltac:(lia)). lia.
  - rewrite Nat2Z.inj_add. rewrite Z2Nat.nonpos by lia.
    assert (timeoutSec * 1000 < 0).
    { destruct (Z.lt_ge_cases (timeoutSec * 1000) 0); [assumption|].
      pose proof (Z.div_pos (timeoutSec * 1000) 2000 ltac:(lia) ltac:(lia)). lia. }
    lia.
Qed.

Lemma extractExit_runs env target engine timeoutSec w :
  exists e w',
    extractExit env target engine timeoutSec w = (Ok e, w')
    /\ files w' = files w
    /\ (exists evs, trace w' = (trace w ++ evs)%list)
    /\ now w <= now w'
    /\ extraction env target w e w'.
Proof.
  unfold extractExit, cdpOpen.
  destruct (cdpConnect env (connections w)) eqn:Hc.
  - set (c := connections w).
    set (w1 := emit (Connected c target) _).
    unfold tryFinally, tryCatch, pollTab, bind at 1. unfold dateNow at 1.
    destruct (pollBudget_enough timeoutSec (now w1)) as [Hpos Hb].
    destruct (pollLoop_runs env c engine (now w1 + timeoutSec * 1000) _ "" 0 w1 Hpos Hb)
      as (out & w2 & evs & Hrun & [Ht Hf Hcn Hk Hs Hr]).
    unfold bind. rewrite Hrun.
    assert (Hclose : closeQuietly env c w2 = (Ok tt, emit (Closed c (clientClose env c)) w2)).
    { unfold closeQuietly, tryCatch, closeClient. destruct (clientClose env c); reflexivity. }
    exists (exitOf out), (emit (Closed c (clientClose env c)) w2).
    split; [|split; [|split; [|split]]].
    + destruct out as [text|lastText]; cbn [exitOf].
      * unfold ret. rewrite Hclose. reflexivity.
      * destruct (0 <? String.length lastText)%nat; unfold ret; rewrite Hclose; reflexivity.
    + cbn [files emit]. rewrite Hf. reflexivity.
    + eexists. cbn [trace emit]. rewrite Ht. subst w1. cbn [trace emit]. rewrite <- !app_assoc. reflexivity.
    + subst w1. cbn [now emit] in *. exact Hk.
    + eapply extraction_polled with (evs := evs) (out := out); try assumption; try reflexivity.
      apply eventsSince_app. cbn [trace emit]. rewrite Ht. subst w1. cbn [trace emit].
      rewrite <- !app_assoc. reflexivity.
  - eexists ConnectionError, _. split; [reflexivity|]. split; [reflexivity|]. split; [|split].
    + eexists. cbn [trace emit]. reflexivity.
    + cbn [now emit]. lia.
    + apply extraction_refused; [assumption|reflexivity|]. apply eventsSince_app. reflexivity.
Qed.

Lemma extraction_events env target w e w' :
  extraction env target w e w' -> Forall browserEvent (eventsSince w w').
Proof.
  intros [Hc -> Hev | evs out Hc Hev Hs Hr ->]; rewrite Hev.
  - repeat constructor.
  - constructor; [exact I|]. apply Forall_app. split.
    + eapply Forall_impl; [exact Hs|]. exact pollEvent_browser.
    + repeat constructor.
Qed.

(** [extractFromTab] as its callers see it: it returns, touches no file, and
    leaves browser events only. *)
Lemma extractFromTab_effects env target engine timeoutSec w :
  exists e w' evs,
    extractExit env target engine timeoutSec w = (Ok e, w')
    /\ extractFromTab env target engine timeoutSec w = (Ok (returned e), w')
    /\ files w' = files w
    /\ trace w' = (trace w ++ evs)%list
    /\ Forall browserEvent evs
    /\ now w <= now w'.
Proof.
  destruct (extractExit_runs env target engine timeoutSec w)
    as (e & w' & Hrun & Hf & [evs Ht] & Hk & Hex).
  exists e, w', evs. split; [exact Hrun|]. split.
  { unfold extractFromTab, bind. rewrite Hrun. reflexivity. }
  split; [exact Hf|]. split; [exact Ht|]. split; [|exact Hk].
  rewrite <- (eventsSince_app _ _ _ Ht). exact (extraction_events _ _ _ _ _ Hex).
Qed.

(** *** The step [observe] *)

Lemma length_pos_iff (s : string) : (0 <? String.length s)%nat = true <-> s <> "".
Proof. destruct s; cbn; split; intros; congruence. Qed.

Lemma orElse_empty v : orElse v "" = match v with Some s => s | None => "" end.
Proof. destruct v as [[|c s]|]; reflexivity. Qed.

Lemma observe_same v s :
  v <> "" ->
  observe v v s = if STABLE_CHECKS <=? s + 1 then Return v else Continue v (s + 1).
Proof.
  intros Hv. unfold observe. rewrite (proj2 (length_pos_iff v) Hv), String.eqb_refl. reflexivity.
Qed.

Lemma observe_new v l s : v <> "" -> v <> l -> observe v l s = Continue v 0.
Proof.
  intros Hv Hl. unfold observe. rewrite (proj2 (length_pos_iff v) Hv).
  rewrite (proj2 (String.eqb_neq v l) Hl). reflexivity.
Qed.

Lemma observe_empty l s : observe "" l s = Continue l 0.
Proof. reflexivity. Qed.

Lemma observe_cases v l s :
  (v <> "" /\ v = l /\ STABLE_CHECKS <= s + 1 /\ observe v l s = Return v)
  \/ (v <> "" /\ v = l /\ s + 1 < STABLE_CHECKS /\ observe v l s = Continue l (s + 1))
  \/ (v <> "" /\ v <> l /\ observe v l s = Continue v 0)
  \/ (v = "" /\ observe v l s = Continue l 0).
Proof.
  destruct (string_dec v "") as [->|Hv]; [right; right; right; split; reflexivity|].
  destruct (string_dec v l) as [->|Hl].
  - rewrite observe_same by assumption. destruct (Z.leb_spec STABLE_CHECKS (s + 1)); [left|right; left]; auto.
  - right; right; left. auto using observe_new.
Qed.

Lemma textOf_shown o v : v <> "" -> textOf o = v -> o = Returned (Some v).
Proof.
  intros Hv H. destruct o as [v'|]; unfold textOf in H; [|congruence].
  rewrite orElse_empty in H. destruct v'; congruence.
Qed.

(** *** The loop replayed *)

Lemma observe_count v l s : 0 <= s ->
  match observe v l s with Return _ => True | Continue _ s' => 0 <= s' end.
Proof.
  intros Hs. destruct (observe_cases v l s) as [(_&_&_&->)|[(_&_&_&->)|[(_&_&->)|(_&->)]]]; lia.
Qed.

Lemma runAt_inv k polls v :
  runAt k polls = Some v ->
  v <> "" /\ (k <= length polls)%nat /\ Forall (fun o => o = Returned (Some v)) (take k polls)
  /\ exists o rest, polls = o :: rest /\ textOf o = v.
Proof.
  unfold runAt. destruct polls as [|o rest]; [discriminate|].
  destruct (0 <? String.length (textOf o))%nat eqn:Hlen; [|discriminate].
  destruct (k <=? length (o :: rest))%nat eqn:Hk; [|discriminate].
  destruct (forallb _ _) eqn:Hall; [|discriminate].
  cbn [andb]. intros [= <-].
  apply length_pos_iff in Hlen. apply Nat.leb_le in Hk.
  split; [assumption|]. split; [assumption|]. split; [|eauto].
  rewrite List.forallb_forall in Hall. apply List.Forall_forall. intros x Hx.
  apply textOf_shown; [assumption|]. apply String.eqb_eq. apply Hall, Hx.
Qed.

Lemma replay_shown v rest l s :
  replay (Returned (Some v) :: rest) l s =
  match observe v l s with
  | Return text => (Stabilized text, rest)
  | Continue l' s' => replay rest l' s'
  end.
Proof. cbn [replay]. rewrite orElse_empty. reflexivity. Qed.

(** Polls that go on showing [lastText] make the function return it as soon
    as the count is there. *)
Lemma replay_same v : v <> "" -> forall n s rest out left,
  (1 <= n)%nat ->
  STABLE_CHECKS <= s + Z.of_nat n ->
  replay (replicate n (Returned (Some v)) ++ rest)%list v s = (out, left) ->
  out = Stabilized v.
Proof.
  intros Hv. induction n as [|n IH]; intros s rest out left Hpos Hn Hr; [lia|].
  cbn [replicate app] in Hr. rewrite replay_shown, observe_same in Hr by assumption.
  destruct (Z.leb_spec STABLE_CHECKS (s + 1)) as [Hge|Hlt]; [congruence|].
  eapply IH; [| |exact Hr]; lia.
Qed.

Lemma replay_four v rest l s out left :
  v <> "" -> 0 <= s ->
  replay (Returned (Some v) :: replicate 3 (Returned (Some v)) ++ rest)%list l s = (out, left) ->
  out = Stabilized v.
Proof.
  intros Hv Hs Hr. rewrite replay_shown in Hr.
  destruct (observe_cases v l s) as [(_&_&_&E)|[(_&<-&_&E)|[(_&_&E)|(?&_)]]];
    [| | |contradiction]; rewrite E in Hr.
  - congruence.
  - eapply replay_same; [exact Hv| | |exact Hr]; unfold STABLE_CHECKS; lia.
  - eapply replay_same; [exact Hv| | |exact Hr]; unfold STABLE_CHECKS; lia.
Qed.

Lemma replay_firstRun4 polls : forall l s out v,
  0 <= s ->
  replay polls l s = (out, []) ->
  firstRun 4 polls = Some v ->
  out = Stabilized v.
Proof.
  induction polls as [|o rest IH]; intros l s out v Hs Hr Hf; [discriminate|].
  cbn [firstRun] in Hf. destruct (runAt 4 (o :: rest)) as [v'|] eqn:Hrun.
  - injection Hf as ->. apply runAt_inv in Hrun as (Hv & Hlen & Hall & _).
    destruct rest as [|o2 [|o3 [|o4 rest]]]; cbn in Hlen; try lia.
    cbn [take] in Hall. rewrite take_0 in Hall.
    inversion Hall as [|? ? -> Hall2]; subst. inversion Hall2 as [|? ? -> Hall3]; subst.
    inversion Hall3 as [|? ? -> Hall4]; subst. inversion Hall4 as [|? ? -> _]; subst.
    eapply (replay_four v rest); [eassumption|eassumption|exact Hr].
  - destruct o as [v0|]; cbn [replay] in Hr.
    + pose proof (observe_count (orElse v0 "") l s Hs) as Hc.
      destruct (observe (orElse v0 "") l s) as [text|l' s'].
      * injection Hr as _ ->. discriminate.
      * eapply IH; eassumption.
    + eapply IH; eassumption.
Qed.

Lemma extractFromTab_exit env target engine timeoutSec w e w' :
  extractExit env target engine timeoutSec w = (Ok e, w') ->
  extractFromTab env target engine timeoutSec w = (Ok (returned e), w').
Proof. intros H. unfold extractFromTab, bind. rewrite H. reflexivity. Qed.

(** The polls of a call, replayed, end the way the call ended. *)
Lemma extraction_replay env target w e w' :
  extraction env target w e w' ->
  exists out,
    replay (pollsOf (eventsSince w w')) "" 0 = (out, [])
    /\ (e = exitOf out \/ (e = ConnectionError /\ pollsOf (eventsSince w w') = [])).
Proof.
  intros [Hc -> Hev | evs out Hc Hev Hs Hr ->]; rewrite Hev.
  - exists (DeadlineReached ""). split; [reflexivity|]. right. split; reflexivity.
  - exists out. cbn [pollsOf]. rewrite pollsOf_app. cbn [pollsOf]. rewrite app_nil_r. auto.
Qed.

Lemma extraction_sessions env target w e w' :
  extraction env target w e w' ->
  sessionsOf (eventsSince w w') = [ConnectFailed target]
  \/ exists c b, sessionsOf (eventsSince w w') = [Connected c target; Closed c b]
                 /\ last (eventsSince w w') = Some (Closed c b).
Proof.
  intros [Hc -> Hev | evs out Hc Hev Hs Hr ->]; rewrite Hev.
  - left. reflexivity.
  - right. eexists _, _. cbn [sessionsOf]. rewrite sessionsOf_app, (sessionsOf_polls _ Hs). split; [reflexivity|].
    rewrite app_comm_cons. apply last_snoc.
Qed.

(** C1, as the code has it. When the polls of a call show one non-empty text
    four times in a row, [extractFromTab] returns that text, by the [return]
    of the stable case: the first of the four polls sets [lastText], the
    next three count up to [STABLE_CHECKS]. Nothing is polled after that. *)
Theorem stable_after_four_polls env target engine timeoutSec w v :
  firstRun 4 (pollsOf (eventsSince w (snd (extractFromTab env target engine timeoutSec w)))) = Some v ->
  fst (extractFromTab env target engine timeoutSec w) = Ok (Some v)
  /\ fst (extractExit env target engine timeoutSec w) = Ok (Stable v).
Proof.
  destruct (extractExit_runs env target engine timeoutSec w) as (e & w' & Hrun & _ & _ & _ & Hex).
  rewrite (extractFromTab_exit _ _ _ _ _ _ _ Hrun), Hrun. cbn [fst snd].
  destruct (extraction_replay _ _ _ _ _ Hex) as (out & Hr & [-> | [_ Hnil]]); intros Hf.
  - rewrite (replay_firstRun4 _ "" 0 out v (Z.le_refl 0) Hr Hf). split; reflexivity.
  - rewrite Hnil in Hf. discriminate.
Qed.

Lemma stable_after_four_polls_witness :
  fst (extractFromTab (browser steadyPage) someTab someEngine 90 startWorld) = Ok (Some "Paris")
  /\ fst (extractExit (browser steadyPage) someTab someEngine 90 startWorld) = Ok (Stable "Paris").
Proof. apply stable_after_four_polls. vm_compute. reflexivity. Defined.

Lemma three_polls_not_stable :
  let run := extractFromTab (browser steadyPage) someTab someEngine 6 startWorld in
  pollsOf (eventsSince startWorld (snd run))
    = [Returned (Some "Paris"); Returned (Some "Paris"); Returned (Some "Paris")]
  /\ firstRun 3 (pollsOf (eventsSince startWorld (snd run))) = Some "Paris"
  /\ fst run = Ok (Some ("Paris" +:+ INCOMPLETE_NOTE))
  /\ fst run <> Ok (Some "Paris")
  /\ fst (extractExit (browser steadyPage) someTab someEngine 6 startWorld) = Ok (Partial "Paris").
Proof. vm_compute. repeat split; try reflexivity. discriminate. Qed.

Lemma showsNothing_iff o : showsNothing o = true <-> textOf o = "".
Proof. unfold showsNothing. destruct (textOf o); cbn; split; congruence. Qed.

Lemma replay_nothing polls : forall l s,
  forallb showsNothing polls = true ->
  replay polls l s = (DeadlineReached l, []).
Proof.
  induction polls as [|o rest IH]; intros l s H; [reflexivity|].
  cbn [forallb] in H. apply andb_true_iff in H as [Ho Hrest].
  apply showsNothing_iff in Ho. destruct o as [v|]; cbn [replay].
  - unfold textOf in Ho. rewrite Ho, observe_empty. apply IH, Hrest.
  - apply IH, Hrest.
Qed.

Lemma loopState_app a : forall b l s,
  loopState (a ++ b)%list l s =
  match loopState a l s with
  | Some (l', s') => loopState b l' s'
  | None => None
  end.
Proof.
  induction a as [|o a IH]; intros b l s; [reflexivity|].
  destruct o as [v|]; cbn [app loopState]; [|apply IH].
  destruct (observe (orElse v "") l s); [reflexivity|apply IH].
Qed.

(** C5. When no poll of a call shows a non-empty text (the script may reject
    every time), [extractFromTab] returns [null], by "no response found" or
    by the connection error, never the timed-out text. And a poll that shows
    nothing leaves [lastText] as it was. *)
Theorem nothing_shown_no_answer env target engine timeoutSec w :
  (forallb showsNothing
     (pollsOf (eventsSince w (snd (extractFromTab env target engine timeoutSec w)))) = true ->
   fst (extractFromTab env target engine timeoutSec w) = Ok None
   /\ (fst (extractExit env target engine timeoutSec w) = Ok NoResponse
       \/ fst (extractExit env target engine timeoutSec w) = Ok ConnectionError))
  /\ (forall polls lastText stableCount o,
        loopState polls "" 0 = Some (lastText, stableCount) ->
        textOf o = "" ->
        exists stableCount', loopState (polls ++ [o])%list "" 0 = Some (lastText, stableCount')).
Proof.
  split.
  - destruct (extractExit_runs env target engine timeoutSec w) as (e & w' & Hrun & _ & _ & _ & Hex).
    rewrite (extractFromTab_exit _ _ _ _ _ _ _ Hrun), Hrun. cbn [fst snd]. intros Hall.
    destruct (extraction_replay _ _ _ _ _ Hex) as (out & Hr & [-> | [-> _]]).
    + rewrite (replay_nothing _ "" 0 Hall) in Hr. injection Hr as <-. cbn. auto.
    + cbn. auto.
  - intros polls l s o Hst Ho. rewrite loopState_app, Hst.
    destruct o as [v|]; cbn [loopState].
    + unfold textOf in Ho. rewrite Ho, observe_empty. eauto.
    + eauto.
Qed.

Lemma nothing_shown_no_answer_witness :
  (fst (extractFromTab (browser brokenPage) someTab someEngine 10 startWorld) = Ok None
   /\ (fst (extractExit (browser brokenPage) someTab someEngine 10 startWorld) = Ok NoResponse
       \/ fst (extractExit (browser brokenPage) someTab someEngine 10 startWorld) = Ok ConnectionError))
  /\ exists stableCount',
       loopState ([Returned (Some "Paris"); Returned (Some "Paris")] ++ [Returned (Some "")])%list "" 0
       = Some ("Paris", stableCount').
Proof.
  pose proof (nothing_shown_no_answer (browser brokenPage) someTab someEngine 10 startWorld) as [H1 H2].
  split.
  - apply H1. vm_compute. reflexivity.
  - apply (H2 _ "Paris" 1 (Returned (Some ""))); reflexivity.
Defined.

(** *** Runs without a stable value *)

Lemma firstRun_cons k o polls :
  firstRun k (o :: polls) = match runAt k (o :: polls) with Some v => Some v | None => firstRun k polls end.
Proof. reflexivity. Qed.

Lemma firstRun_skip k a : forall b, firstRun k (a ++ b)%list = None -> firstRun k b = None.
Proof.
  induction a as [|o a IH]; intros b H; [exact H|].
  cbn [app] in H. rewrite firstRun_cons in H. destruct (runAt k _); [discriminate|]. apply IH, H.
Qed.

Lemma runAt_replicate v n rest :
  v <> "" -> (3 <= n)%nat ->
  runAt 3 (replicate n (Returned (Some v)) ++ rest)%list = Some v.
Proof.
  intros Hv Hn. destruct n as [|[|[|n]]]; try lia.
  cbn [replicate app]. unfold runAt.
  assert (Ht : textOf (Returned (Some v)) = v) by (unfold textOf; apply orElse_empty).
  rewrite Ht, (proj2 (length_pos_iff v) Hv). cbn [length Nat.leb andb take forallb].
  unfold shows. rewrite Ht, String.eqb_refl. reflexivity.
Qed.

Lemma firstRun_replicate v n rest :
  v <> "" -> (3 <= n)%nat ->
  firstRun 3 (replicate n (Returned (Some v)) ++ rest)%list = Some v.
Proof.
  intros Hv Hn. pose proof (runAt_replicate v n rest Hv Hn) as H.
  destruct n as [|n]; [lia|]. cbn [replicate app] in *. rewrite firstRun_cons, H. reflexivity.
Qed.

Lemma lastNonEmpty_cons fallback o rest :
  lastNonEmpty fallback (o :: rest) =
  lastNonEmpty (if (0 <? String.length (textOf o))%nat then textOf o else fallback) rest.
Proof. reflexivity. Qed.

Lemma replay_never_stable polls : forall h0 l s,
  0 <= s -> (1 <= s -> l <> "") ->
  firstRun 3 (h0 ++ replicate (Z.to_nat s) (Returned (Some l)) ++ List.filter succeeded polls)%list = None ->
  replay polls l s = (DeadlineReached (lastNonEmpty l polls), []).
Proof.
  induction polls as [|o rest IH]; intros h0 l s Hs Hl Hno; [reflexivity|].
  destruct o as [v|]; [|cbn [replay List.filter succeeded] in *; rewrite lastNonEmpty_cons; cbn; eapply IH; eassumption].
  cbn [replay List.filter succeeded] in *. rewrite lastNonEmpty_cons.
  change (textOf (Returned v)) with (orElse v ""). set (t := orElse v "") in *.
  assert (Hv : t <> "" -> Returned v = Returned (Some t)).
  { intros Ht. apply textOf_shown; [exact Ht|reflexivity]. }
  destruct (observe_cases t l s) as [(Ht&El&Hge&->)|[(Ht&El&Hlt&->)|[(Ht&Hne&->)|(Ht&->)]]].
  - exfalso. rewrite (Hv Ht), El in Hno.
    change (Returned (Some l) :: List.filter succeeded rest)
      with ([Returned (Some l)] ++ List.filter succeeded rest)%list in Hno.
    rewrite (app_assoc (replicate _ _)) in Hno.
    change [Returned (Some l)] with (replicate 1 (Returned (Some l))) in Hno.
    rewrite <- replicate_add in Hno.
    apply firstRun_skip in Hno. rewrite firstRun_replicate in Hno; [discriminate|congruence|].
    unfold STABLE_CHECKS in Hge. lia.
  - rewrite (proj2 (length_pos_iff t) Ht), El.
    apply (IH h0); [lia|congruence|].
    rewrite (Hv Ht), El in Hno.
    replace (Z.to_nat (s + 1)) with (Z.to_nat s + 1)%nat by lia.
    rewrite replicate_add. cbn [replicate]. rewrite <- !app_assoc. exact Hno.
  - rewrite (proj2 (length_pos_iff t) Ht).
    apply (IH (h0 ++ replicate (Z.to_nat s) (Returned (Some l)) ++ [Returned v])%list); [lia|lia|].
    cbn [Z.to_nat replicate app]. rewrite <- !app_assoc. exact Hno.
  - rewrite Ht. cbn [String.length Nat.ltb Nat.leb].
    apply (IH (h0 ++ replicate (Z.to_nat s) (Returned (Some l)) ++ [Returned v])%list); [lia|lia|].
    cbn [Z.to_nat replicate app]. rewrite <- !app_assoc. exact Hno.
Qed.

(** C3, as the code has it. When some poll of a call shows a non-empty text
    and no three resolved polls in a row (rejected polls left out) show one
    non-empty text, [extractFromTab] returns the last non-empty text shown,
    followed by the note that the response may be incomplete. *)
Theorem partial_when_never_stable env target engine timeoutSec w :
  let polls := pollsOf (eventsSince w (snd (extractFromTab env target engine timeoutSec w))) in
  firstRun 3 (List.filter succeeded polls) = None ->
  lastNonEmpty "" polls <> "" ->
  fst (extractFromTab env target engine timeoutSec w)
    = Ok (Some (lastNonEmpty "" polls +:+ INCOMPLETE_NOTE))
  /\ fst (extractExit env target engine timeoutSec w) = Ok (Partial (lastNonEmpty "" polls)).
Proof.
  destruct (extractExit_runs env target engine timeoutSec w) as (e & w' & Hrun & _ & _ & _ & Hex).
  rewrite (extractFromTab_exit _ _ _ _ _ _ _ Hrun), Hrun. cbn [fst snd]. intros Hno Hsome.
  destruct (extraction_replay _ _ _ _ _ Hex) as (out & Hr & [-> | [_ Hnil]]).
  - rewrite (replay_never_stable _ [] "" 0) in Hr; [|lia|lia|exact Hno].
    injection Hr as <-. cbn [exitOf returned].
    rewrite (proj2 (length_pos_iff _) Hsome). split; reflexivity.
  - rewrite Hnil in Hsome. contradiction.
Qed.

Lemma partial_when_never_stable_witness :
  fst (extractFromTab (browser changingPage) someTab someEngine 10 startWorld)
    = Ok (Some ("Par" +:+ INCOMPLETE_NOTE))
  /\ fst (extractExit (browser changingPage) someTab someEngine 10 startWorld) = Ok (Partial "Par").
Proof.
  apply (partial_when_never_stable (browser changingPage) someTab someEngine 10 startWorld);
    vm_compute; [reflexivity|discriminate].
Defined.

Lemma stable_across_failed_polls :
  let run := extractFromTab (browser flakyPage) someTab someEngine 90 startWorld in
  let polls := pollsOf (eventsSince startWorld (snd run)) in
  polls = [Returned (Some "Paris"); Rejected; Returned (Some "Paris"); Rejected;
           Returned (Some "Paris"); Rejected; Returned (Some "Paris")]
  /\ firstRun 3 polls = None
  /\ lastNonEmpty "" polls = "Paris"
  /\ fst run = Ok (Some "Paris")
  /\ fst run <> Ok (Some ("Paris" +:+ INCOMPLETE_NOTE))
  /\ fst (extractExit (browser flakyPage) someTab someEngine 90 startWorld) = Ok (Stable "Paris").
Proof. vm_compute. repeat split; try reflexivity. discriminate. Qed.

Lemma counted_observe seen v l s l' s' :
  counted seen l s ->
  observe (orElse v "") l s = Continue l' s' ->
  counted (Some (orElse v "")) l' s'.
Proof.
  intros [Hs Hseen] Hobs.
  destruct (observe_cases (orElse v "") l s) as [(_&_&_&E)|[(Ht&El&_&E)|[(_&_&E)|(_&E)]]];
    rewrite E in Hobs; try discriminate; injection Hobs as <- <-; split; try lia.
  intros _. split; congruence.
Qed.

Lemma lastShownFrom_app a : forall seen b,
  lastShownFrom seen (a ++ b)%list = lastShownFrom (lastShownFrom seen a) b.
Proof. induction a as [|o a IH]; intros seen b; [reflexivity|]. cbn [app lastShownFrom]. apply IH. Qed.

Lemma loopState_counted polls : forall seen l s l' s',
  counted seen l s ->
  loopState polls l s = Some (l', s') ->
  counted (lastShownFrom seen polls) l' s'.
Proof.
  induction polls as [|o rest IH]; intros seen l s l' s' Hc Hst.
  - injection Hst as <- <-. exact Hc.
  - destruct o as [v|]; cbn [loopState lastShownFrom succeeded] in *.
    + destruct (observe (orElse v "") l s) as [|l1 s1] eqn:Hobs; [discriminate|].
      eapply IH; [|exact Hst]. eapply counted_observe; eassumption.
    + eapply IH; eassumption.
Qed.

Lemma replay_stable_last polls : forall seen l s t,
  counted seen l s ->
  replay polls l s = (Stabilized t, []) ->
  exists pre, polls = (pre ++ [Returned (Some t)])%list /\ lastShownFrom seen pre = Some t.
Proof.
  induction polls as [|o rest IH]; intros seen l s t Hc Hr; [discriminate|].
  destruct o as [v|]; cbn [replay] in Hr.
  - destruct (observe_cases (orElse v "") l s) as [(Ht&El&Hge&E)|[(Ht&El&_&E)|[(Ht&_&E)|(Ht&E)]]];
      rewrite E in Hr.
    + injection Hr as <- ->. exists []. split.
      * cbn [app]. f_equal. apply (textOf_shown (Returned v)); [exact Ht|reflexivity].
      * cbn [lastShownFrom]. destruct Hc as [_ Hc]. rewrite El.
        apply Hc. unfold STABLE_CHECKS in Hge. lia.
    + destruct (IH (Some (orElse v "")) l (s + 1) t) as (pre & -> & Hpre); [|exact Hr|].
      { eapply counted_observe; eassumption. }
      exists (Returned v :: pre). split; [reflexivity|exact Hpre].
    + destruct (IH (Some (orElse v "")) (orElse v "") 0 t) as (pre & -> & Hpre); [|exact Hr|].
      { eapply counted_observe; eassumption. }
      exists (Returned v :: pre). split; [reflexivity|exact Hpre].
    + destruct (IH (Some (orElse v "")) l 0 t) as (pre & -> & Hpre); [|exact Hr|].
      { eapply counted_observe; eassumption. }
      exists (Returned v :: pre). split; [reflexivity|exact Hpre].
  - destruct (IH seen l s t Hc Hr) as (pre & -> & Hpre).
    exists (Rejected :: pre). split; [reflexivity|exact Hpre].
Qed.

Lemma counted_start : counted None "" 0.
Proof. split; [lia|]. intros H. lia. Qed.

(** C4. With [stableCount] at 1 or more, a poll that resolves with a text
    other than the one the last resolved poll showed puts [stableCount] back
    to 0. And when [extractFromTab] returns by the stable case, the text it
    returns is what the last poll showed, and the resolved poll before it
    showed the same. *)
Theorem change_resets_count :
  (forall polls lastText stableCount o,
      loopState polls "" 0 = Some (lastText, stableCount) ->
      1 <= stableCount ->
      succeeded o = true ->
      lastShown polls <> Some (textOf o) ->
      exists lastText', loopState (polls ++ [o])%list "" 0 = Some (lastText', 0))
  /\ (forall env target engine timeoutSec w text,
         fst (extractExit env target engine timeoutSec w) = Ok (Stable text) ->
         exists before,
           pollsOf (eventsSince w (snd (extractExit env target engine timeoutSec w)))
             = (before ++ [Returned (Some text)])%list
           /\ lastShown before = Some text).
Proof.
  split.
  - intros polls l s o Hst Hs Ho Hchg.
    destruct (loopState_counted polls None "" 0 l s counted_start Hst) as [_ Hseen].
    destruct (Hseen Hs) as [Hlast Hl]. fold (lastShown polls) in Hlast.
    rewrite loopState_app, Hst. destruct o as [v|]; [|discriminate].
    cbn [loopState]. unfold textOf in Hchg.
    destruct (observe_cases (orElse v "") l s) as [(_&El&_&_)|[(_&El&_&_)|[(_&_&E)|(_&E)]]];
      try (rewrite Hlast, El in Hchg; contradiction); rewrite E; eauto.
  - intros env target engine timeoutSec w text.
    destruct (extractExit_runs env target engine timeoutSec w) as (e & w' & Hrun & _ & _ & _ & Hex).
    rewrite Hrun. cbn [fst snd]. intros [= ->].
    destruct (extraction_replay _ _ _ _ _ Hex) as (out & Hr & [He | [He _]]); [|discriminate].
    destruct out as [t|l]; cbn [exitOf] in He.
    + injection He as <-. apply (replay_stable_last _ None "" 0 text counted_start Hr).
    + destruct (0 <? String.length l)%nat; discriminate.
Qed.

Lemma change_resets_count_witness :
  (exists lastText',
      loopState ([Returned (Some "Par"); Returned (Some "Par")] ++ [Returned (Some "Paris")])%list "" 0
      = Some (lastText', 0))
  /\ exists before,
       pollsOf (eventsSince startWorld
                  (snd (extractExit (browser steadyPage) someTab someEngine 90 startWorld)))
         = (before ++ [Returned (Some "Paris")])%list
       /\ lastShown before = Some "Paris".
Proof.
  pose proof change_resets_count as [H1 H2]. split.
  - apply (H1 _ "Par" 1 (Returned (Some "Paris"))); [reflexivity|lia|reflexivity|discriminate].
  - apply (H2 (browser steadyPage) someTab someEngine 90 startWorld "Paris"). reflexivity.
Defined.

(** C9. [extractFromTab] always returns a string or [null]: for every
    browser, rejected connections and rejected evaluations included, nothing
    is thrown and the loop ends. The events of a call have either one failed
    connection and no client, or one client that is opened and closed once,
    the [close] being the last event of the call. *)
Theorem extractFromTab_contained env target engine timeoutSec w :
  (exists r, fst (extractFromTab env target engine timeoutSec w) = Ok r)
  /\ (let evs := eventsSince w (snd (extractFromTab env target engine timeoutSec w)) in
      sessionsOf evs = [ConnectFailed target]
      \/ exists client resolved,
           sessionsOf evs = [Connected client target; Closed client resolved]
           /\ last evs = Some (Closed client resolved)).
Proof.
  destruct (extractExit_runs env target engine timeoutSec w) as (e & w' & Hrun & _ & _ & _ & Hex).
  rewrite (extractFromTab_exit _ _ _ _ _ _ _ Hrun). cbn [fst snd]. split; [eauto|].
  apply (extraction_sessions _ _ _ _ _ Hex).
Qed.

(** *** slugify *)

Lemma alnum_not_hyphen c : Js.isAlnum c = true -> Js.isHyphen c = false.
Proof. destruct c as [[] [] [] [] [] [] [] []]; vm_compute; congruence. Qed.

Lemma alnum_lower c : Js.isAlnum c = true -> Js.lowerChar c = c.
Proof. destruct c as [[] [] [] [] [] [] [] []]; vm_compute; congruence. Qed.

Lemma isHyphen_iff c : Js.isHyphen c = true <-> c = Js.hyphen.
Proof. destruct c as [[] [] [] [] [] [] [] []]; vm_compute; split; congruence. Qed.

Lemma hyphen_not_alnum : Js.isAlnum Js.hyphen = false.
Proof. reflexivity. Qed.

Lemma clean_weaken l : clean true l -> clean false l.
Proof. destruct l as [|c r]; [trivial|]. cbn. intros [H|(_&H&_)]; [auto|discriminate]. Qed.

Lemma clean_replaceRuns l : forall b, clean b (Js.replaceRuns b l).
Proof.
  induction l as [|c r IH]; intros b; [exact I|].
  cbn [Js.replaceRuns]. destruct (Js.isAlnum c) eqn:Hc.
  - left. auto.
  - destruct b; [apply IH|]. right. auto.
Qed.

Lemma replaceRuns_clean l : forall b, clean b l -> Js.replaceRuns b l = l.
Proof.
  induction l as [|c r IH]; intros b H; [reflexivity|].
  cbn [Js.replaceRuns]. destruct H as [[Hc H]|(-> & -> & H)].
  - rewrite Hc, (IH false H). reflexivity.
  - rewrite hyphen_not_alnum, (IH true H). reflexivity.
Qed.

Lemma lower_clean l : forall b, clean b l -> map Js.lowerChar l = l.
Proof.
  induction l as [|c r IH]; intros b H; [reflexivity|].
  cbn [map]. destruct H as [[Hc H]|(-> & _ & H)].
  - rewrite (alnum_lower c Hc), (IH _ H). reflexivity.
  - rewrite (IH _ H). reflexivity.
Qed.

Lemma dropHyphens_clean l : clean true l -> Js.dropHyphens l = l.
Proof.
  destruct l as [|c r]; [reflexivity|]. intros [[Hc _]|(_ & H & _)]; [|discriminate].
  cbn [Js.dropHyphens]. rewrite (alnum_not_hyphen c Hc). reflexivity.
Qed.

Lemma clean_dropHyphens l : forall b, clean b l -> clean true (Js.dropHyphens l).
Proof.
  induction l as [|c r IH]; intros b H; [exact I|].
  cbn [Js.dropHyphens]. destruct H as [[Hc H]|(-> & _ & H)].
  - rewrite (alnum_not_hyphen c Hc). left. auto.
  - cbn. eapply IH, H.
Qed.

Lemma clean_prefix a : forall b t, clean b (a ++ t)%list -> clean b a.
Proof.
  induction a as [|c r IH]; intros b t H; [exact I|].
  cbn [app clean] in *. destruct H as [[Hc H]|(-> & -> & H)]; [left|right]; eauto.
Qed.

Lemma dropHyphens_suffix l : exists pre, l = (pre ++ Js.dropHyphens l)%list.
Proof.
  induction l as [|c r [pre IH]]; [exists []; reflexivity|].
  cbn [Js.dropHyphens]. destruct (Js.isHyphen c).
  - exists (c :: pre). cbn. congruence.
  - exists []. reflexivity.
Qed.

Lemma dropTrailing_prefix l : exists t, l = (Js.dropTrailingHyphens l ++ t)%list.
Proof.
  unfold Js.dropTrailingHyphens. destruct (dropHyphens_suffix (rev l)) as [pre H].
  exists (rev pre). rewrite <- rev_app_distr, <- H, rev_involutive. reflexivity.
Qed.

Lemma dropHyphens_idem l : Js.dropHyphens (Js.dropHyphens l) = Js.dropHyphens l.
Proof.
  induction l as [|c r IH]; [reflexivity|]. cbn [Js.dropHyphens].
  destruct (Js.isHyphen c) eqn:Hc; [exact IH|]. cbn [Js.dropHyphens]. rewrite Hc. reflexivity.
Qed.

Lemma dropTrailing_idem l :
  Js.dropTrailingHyphens (Js.dropTrailingHyphens l) = Js.dropTrailingHyphens l.
Proof. unfold Js.dropTrailingHyphens. rewrite rev_involutive, dropHyphens_idem. reflexivity. Qed.

Lemma dropTrailing_length l : (length (Js.dropTrailingHyphens l) <= length l)%nat.
Proof.
  destruct (dropTrailing_prefix l) as [t H]. rewrite H at 2. rewrite length_app. lia.
Qed.

Lemma slice0_prefix e l : exists t, l = (Js.slice0 e l ++ t)%list.
Proof. unfold Js.slice0. eexists. symmetry. apply take_drop. Qed.

Lemma slice0_length e l : 0 <= e -> (Z.of_nat (length (Js.slice0 e l)) <= e).
Proof.
  intros He. unfold Js.slice0. destruct (Z.ltb_spec e 0); [lia|]. rewrite length_take. lia.
Qed.

Lemma slice0_short e l : Z.of_nat (length l) <= e -> Js.slice0 e l = l.
Proof.
  intros He. unfold Js.slice0. destruct (Z.ltb_spec e 0); [lia|].
  apply take_ge. lia.
Qed.

(** What [slugChars] gives: slug characters, no hyphen at either end, no
    more than [maxLen] of them. *)
Lemma slugChars_shape maxLen l :
  0 <= maxLen ->
  let s := slugChars maxLen l in
  clean true s /\ Js.dropTrailingHyphens s = s /\ Z.of_nat (length s) <= maxLen.
Proof.
  intros Hm s. subst s. unfold slugChars.
  set (x := Js.dropHyphens _).
  assert (Hx : clean true x) by (eapply clean_dropHyphens, clean_replaceRuns).
  split; [|split].
  - destruct (dropTrailing_prefix (Js.slice0 maxLen (Js.dropTrailingHyphens x))) as [t1 H1].
    destruct (slice0_prefix maxLen (Js.dropTrailingHyphens x)) as [t2 H2].
    destruct (dropTrailing_prefix x) as [t3 H3].
    rewrite H3 in Hx. apply clean_prefix in Hx.
    rewrite H2 in Hx. apply clean_prefix in Hx.
    rewrite H1 in Hx. apply clean_prefix in Hx. exact Hx.
  - apply dropTrailing_idem.
  - pose proof (dropTrailing_length (Js.slice0 maxLen (Js.dropTrailingHyphens x))).
    pose proof (slice0_length maxLen (Js.dropTrailingHyphens x) Hm). lia.
Qed.

Lemma slugChars_fixed maxLen s :
  clean true s -> Js.dropTrailingHyphens s = s -> Z.of_nat (length s) <= maxLen ->
  slugChars maxLen s = s.
Proof.
  intros Hc Ht Hl. unfold slugChars.
  rewrite (lower_clean s true Hc), (replaceRuns_clean s false (clean_weaken s Hc)).
  rewrite (dropHyphens_clean s Hc), Ht, (slice0_short maxLen s Hl), Ht. reflexivity.
Qed.

Lemma slugChars_idem maxLen l :
  0 <= maxLen -> slugChars maxLen (slugChars maxLen l) = slugChars maxLen l.
Proof.
  intros Hm. destruct (slugChars_shape maxLen l Hm) as (Hc & Ht & Hl).
  apply slugChars_fixed; assumption.
Qed.

Lemma slugify_idem q : slugify (slugify q) = slugify q.
Proof.
  unfold slugify, slugifyTo. rewrite list_ascii_of_string_of_list_ascii.
  rewrite slugChars_idem; [reflexivity|unfold DEFAULT_MAX_LEN; lia].
Qed.

Lemma dropHyphens_app x y :
  Js.dropHyphens (x ++ y)%list =
  match Js.dropHyphens x with
  | [] => Js.dropHyphens y
  | _ => (Js.dropHyphens x ++ y)%list
  end.
Proof.
  induction x as [|c r IH]; [reflexivity|].
  cbn [app Js.dropHyphens]. destruct (Js.isHyphen c); [exact IH|reflexivity].
Qed.

Lemma dropTrailing_app a b :
  Js.dropTrailingHyphens (a ++ b)%list =
  match Js.dropTrailingHyphens b with
  | [] => Js.dropTrailingHyphens a
  | _ => (a ++ Js.dropTrailingHyphens b)%list
  end.
Proof.
  unfold Js.dropTrailingHyphens. rewrite rev_app_distr, dropHyphens_app.
  destruct (Js.dropHyphens (rev b)) as [|c r] eqn:E; [reflexivity|].
  rewrite rev_app_distr, rev_involutive.
  destruct (rev (c :: r)) eqn:E2; [|reflexivity].
  apply (f_equal (@length ascii)) in E2. rewrite length_rev in E2. discriminate.
Qed.

Lemma dropTrailing_word cur :
  Forall (fun c => Js.isAlnum c = true) cur -> Js.dropTrailingHyphens cur = cur.
Proof.
  intros H. unfold Js.dropTrailingHyphens.
  destruct (rev cur) as [|c r] eqn:E.
  - apply (f_equal (@rev ascii)) in E. rewrite rev_involutive in E. subst. reflexivity.
  - assert (Hc : Js.isAlnum c = true).
    { rewrite List.Forall_forall in H. apply H. apply in_rev. rewrite E. left. reflexivity. }
    cbn [Js.dropHyphens]. rewrite (alnum_not_hyphen c Hc), <- E. apply rev_involutive.
Qed.

Lemma wordsFrom_nonempty l : forall cur, Forall (fun w => w <> []) (wordsFrom cur l).
Proof.
  induction l as [|c r IH]; intros cur; cbn [wordsFrom].
  - destruct cur; [constructor|]. constructor; [discriminate|constructor].
  - destruct (Js.isAlnum c); [apply IH|]. destruct cur; [apply IH|].
    constructor; [discriminate|apply IH].
Qed.

Lemma joinWords_nil ws : Forall (fun w => w <> []) ws -> joinWords ws = [] -> ws = [].
Proof.
  destruct ws as [|w rest]; [reflexivity|]. intros H. inversion H as [|? ? Hw _]; subst.
  cbn [joinWords]. destruct rest; [congruence|]. destruct w; [congruence|discriminate].
Qed.

Lemma dropHyphens_runs_true l : Js.dropHyphens (Js.replaceRuns true l) = Js.replaceRuns true l.
Proof. apply dropHyphens_clean, clean_replaceRuns. Qed.

Lemma dropHyphens_runs l : Js.dropHyphens (Js.replaceRuns false l) = Js.replaceRuns true l.
Proof.
  destruct l as [|c r]; [reflexivity|]. cbn [Js.replaceRuns].
  destruct (Js.isAlnum c) eqn:Hc.
  - cbn [Js.dropHyphens]. rewrite (alnum_not_hyphen c Hc). reflexivity.
  - cbn. apply dropHyphens_runs_true.
Qed.

Lemma runs_words l :
  (forall cur, cur <> [] -> Forall (fun c => Js.isAlnum c = true) cur ->
     Js.dropTrailingHyphens (cur ++ Js.replaceRuns false l)%list = joinWords (wordsFrom cur l))
  /\ Js.dropTrailingHyphens (Js.replaceRuns true l) = joinWords (wordsFrom [] l).
Proof.
  induction l as [|c r [IH1 IH2]].
  - split; [|reflexivity]. intros cur Hne Hcur. cbn [Js.replaceRuns wordsFrom].
    rewrite app_nil_r, (dropTrailing_word cur Hcur). destruct cur; [congruence|reflexivity].
  - cbn [Js.replaceRuns wordsFrom]. destruct (Js.isAlnum c) eqn:Hc.
    + assert (Hstep : forall cur, Forall (fun c => Js.isAlnum c = true) cur ->
                Js.dropTrailingHyphens (cur ++ c :: Js.replaceRuns false r)%list
                = joinWords (wordsFrom (cur ++ [c]) r)).
      { intros cur Hcur. rewrite <- IH1.
        - rewrite <- app_assoc. reflexivity.
        - destruct cur; discriminate.
        - apply Forall_app. split; [exact Hcur|]. constructor; [exact Hc|constructor]. }
      split; [intros cur _ Hcur; apply Hstep, Hcur|]. apply (Hstep []). constructor.
    + split; [|exact IH2]. intros cur Hne Hcur.
      change (cur ++ Js.hyphen :: Js.replaceRuns true r)%list
        with (cur ++ [Js.hyphen] ++ Js.replaceRuns true r)%list.
      rewrite app_assoc, dropTrailing_app, IH2.
      destruct cur as [|c0 cur0] eqn:Ecur; [congruence|]. rewrite <- Ecur in *.
      destruct (joinWords (wordsFrom [] r)) as [|j js] eqn:Ej.
      * rewrite (joinWords_nil _ (wordsFrom_nonempty r []) Ej).
        rewrite dropTrailing_app. cbn. rewrite (dropTrailing_word cur Hcur).
        rewrite Ecur. reflexivity.
      * destruct (wordsFrom [] r) as [|w ws] eqn:Ew; [discriminate|].
        change (joinWords (cur :: w :: ws)) with (cur ++ Js.hyphen :: joinWords (w :: ws))%list.
        rewrite Ej, <- app_assoc. reflexivity.
Qed.

Lemma slugChars_words maxLen l :
  slugChars maxLen l =
  Js.dropTrailingHyphens (Js.slice0 maxLen (joinWords (wordsFrom [] (map Js.lowerChar l)))).
Proof.
  unfold slugChars. rewrite dropHyphens_runs. rewrite (proj2 (runs_words _)). reflexivity.
Qed.

Lemma words_lower q : words (Js.toLowerCase q) = wordsFrom [] (map Js.lowerChar (list_ascii_of_string q)).
Proof. unfold words, Js.toLowerCase. rewrite list_ascii_of_string_of_list_ascii. reflexivity. Qed.

Lemma slugify_words q1 q2 :
  words (Js.toLowerCase q1) = words (Js.toLowerCase q2) -> slugify q1 = slugify q2.
Proof.
  rewrite !words_lower. intros H. unfold slugify, slugifyTo. rewrite !slugChars_words, H. reflexivity.
Qed.

Lemma slugify_case q1 q2 : Js.toLowerCase q1 = Js.toLowerCase q2 -> slugify q1 = slugify q2.
Proof. intros H. apply slugify_words. rewrite H. reflexivity. Qed.

(** C6, as the code has it. [slugify] gives equal slugs for equal queries, it
    is idempotent, it gives equal slugs for queries equal up to letter case,
    and for queries that have the same lower-case alphanumeric words in the
    same order, whatever stands between and around the words. *)
Theorem slugify_stable :
  (forall q1 q2, q1 = q2 -> slugify q1 = slugify q2)
  /\ (forall q, slugify (slugify q) = slugify q)
  /\ (forall q1 q2, Js.toLowerCase q1 = Js.toLowerCase q2 -> slugify q1 = slugify q2)
  /\ (forall q1 q2, words (Js.toLowerCase q1) = words (Js.toLowerCase q2) -> slugify q1 = slugify q2).
Proof.
  split; [intros q1 q2 ->; reflexivity|].
  split; [exact slugify_idem|]. split; [exact slugify_case|exact slugify_words].
Qed.

Lemma slugify_stable_witness :
  slugify "What is the capital of France?" = slugify "What is the capital of France?"
  /\ slugify (slugify "What is the capital of France?") = slugify "What is the capital of France?"
  /\ slugify "What is the Capital of FRANCE?" = slugify "what is the capital of france?"
  /\ slugify "What is: the capital, of France?!" = slugify "what is the capital of France".
Proof.
  destruct slugify_stable as (H1 & H2 & H3 & H4).
  split; [apply H1; reflexivity|]. split; [apply H2|].
  split; [apply H3; vm_compute; reflexivity|apply H4; vm_compute; reflexivity].
Defined.

Lemma punctuation_inside_a_word :
  dropPunct "can't stop" = dropPunct "cant stop"
  /\ slugify "can't stop" = "can-t-stop"
  /\ slugify "cant stop" = "cant-stop"
  /\ slugify "can't stop" <> slugify "cant stop".
Proof. vm_compute. repeat split; try reflexivity. discriminate. Qed.

(** ** Paths *)

Lemma list_of_append a b :
  list_ascii_of_string (a +:+ b) = (list_ascii_of_string a ++ list_ascii_of_string b)%list.
Proof.
  induction a as [|c a IH]; [reflexivity|].
  simpl. rewrite IH. reflexivity.
Qed.

Lemma list_of_string_inj a b : list_ascii_of_string a = list_ascii_of_string b -> a = b.
Proof.
  intros H. rewrite <- (string_of_list_ascii_of_string a), <- (string_of_list_ascii_of_string b), H.
  reflexivity.
Qed.

Lemma append_inj_l a b x : a +:+ x = b +:+ x -> a = b.
Proof.
  intros H. apply list_of_string_inj. apply (f_equal list_ascii_of_string) in H.
  rewrite !list_of_append in H. exact (app_inv_tail _ _ _ H).
Qed.

Lemma pathJoin_inj d a b : pathJoin d a = pathJoin d b -> a = b.
Proof.
  unfold pathJoin. intros H. apply String.app_inj in H.
  apply (String.app_inj "/") in H. exact H.
Qed.

Lemma engineFile_inj d e1 e2 : engineFile d e1 = engineFile d e2 -> slug e1 = slug e2.
Proof. unfold engineFile. intros H. apply pathJoin_inj in H. exact (append_inj_l _ _ _ H). Qed.

(** ** extractQuery *)

(** Closes the goals about what a computation left behind, once the worlds
    are explicit. *)
Ltac effects :=
  cbn [files trace emit store advance now];
  repeat match goal with |- _ /\ _ => split end;
  first [ reflexivity
        | rewrite <- !app_assoc; reflexivity
        | rewrite app_nil_r; reflexivity
        | solve [repeat constructor]
        | lia
        | idtac ].

Lemma extractQuery_effects env targets w :
  exists q w' evs,
    extractQuery env targets w = (Ok q, w')
    /\ files w' = files w
    /\ trace w' = (trace w ++ evs)%list
    /\ Forall browserEvent evs
    /\ now w <= now w'.
Proof.
  unfold extractQuery.
  destruct (queryFromUrls env targets) as [q|].
  { exists q, w, []. effects. }
  destruct (List.find isPerplexitySearch targets) as [tab|].
  2:{ exists PLACEHOLDER_QUERY, w, []. effects. }
  unfold cdpOpen. destruct (cdpConnect env (connections w)).
  2:{ eexists PLACEHOLDER_QUERY, _, _. split; [reflexivity|]. effects. }
  set (c := connections w).
  unfold bind, tryFinally, tryCatch, evaluate, closeQuietly, closeClient, ret.
  cbn [evaluations emit].
  destruct (fst (runtimeEvaluate env (evaluations w))) as [v|];
    destruct (clientClose env c);
    eexists _, _, _; (split; [reflexivity|]); effects.
Qed.

(** ** One engine *)

Lemma okCount_cons r rs :
  okCount (r :: rs) = ((if String.eqb (r_status r) "ok" then 1 else 0) + okCount rs)%nat.
Proof. unfold okCount. cbn [List.filter]. destruct (String.eqb (r_status r) "ok"); reflexivity. Qed.

Lemma okCount_app a b : okCount (a ++ b)%list = (okCount a + okCount b)%nat.
Proof. unfold okCount. rewrite List.filter_app, length_app. reflexivity. Qed.

Lemma collectEngine_runs env targets promptDir query timeoutSec acc engine w :
  exists resp rfs w' evs,
    collectEngine env targets promptDir query timeoutSec acc engine w
      = (Ok ((fst acc ++ [resp])%list, (snd acc ++ rfs)%list), w')
    /\ trace w' = (trace w ++ evs)%list
    /\ synthesisRuns evs = 0%nat
    /\ now w <= now w'
    /\ r_engine resp = name engine
    /\ r_slug resp = slug engine
    /\ knownStatus resp
    /\ length rfs = (if String.eqb (r_status resp) "ok" then 1 else 0)%nat
    /\ (forall p, p <> engineFile promptDir engine -> files w' !! p = files w !! p)
    /\ fileOf promptDir (files w) (files w') resp.
Proof.
  unfold collectEngine. destruct (findTab targets engine) as [tab|].
  - destruct (extractFromTab_effects env tab engine timeoutSec w)
      as (e & w1 & evs & _ & Hrun & Hf & Ht & Hev & Hk).
    unfold bind at 1. rewrite Hrun. unfold bind at 1. unfold newDate at 1.
    destruct (truthy (returned e)) as [t|].
    + eexists _, [_], _, (evs ++ [_])%list. split; [reflexivity|].
      cbn [trace files emit store now]. rewrite Ht, Hf, <- app_assoc.
      split; [reflexivity|]. split.
      { rewrite synthesisRuns_app, (synthesisRuns_browser _ Hev). reflexivity. }
      split; [exact Hk|]. split; [reflexivity|]. split; [reflexivity|].
      split; [left; reflexivity|]. split; [reflexivity|]. split.
      { intros p Hp. apply lookup_insert_ne. congruence. }
      unfold fileOf. cbn [r_status r_slug]. fold (engineFile promptDir engine).
      split; [discriminate|]. split; [|discriminate].
      intros _. eexists. apply lookup_insert_eq.
    + eexists _, [], _, (evs ++ [_])%list. rewrite app_nil_r. split; [reflexivity|].
      cbn [trace files emit store now]. rewrite Ht, Hf, <- app_assoc.
      split; [reflexivity|]. split.
      { rewrite synthesisRuns_app, (synthesisRuns_browser _ Hev). reflexivity. }
      split; [exact Hk|]. split; [reflexivity|]. split; [reflexivity|].
      split; [right; right; reflexivity|]. split; [reflexivity|]. split.
      { intros p Hp. apply lookup_insert_ne. congruence. }
      unfold fileOf. cbn [r_status r_slug]. fold (engineFile promptDir engine).
      split; [discriminate|]. split; [discriminate|].
      intros _. eexists. apply lookup_insert_eq.
  - eexists _, [], _, [_]. rewrite app_nil_r. split; [reflexivity|].
    cbn [trace files emit store now].
    split; [reflexivity|]. split; [reflexivity|]. split; [lia|].
    split; [reflexivity|]. split; [reflexivity|].
    split; [right; left; reflexivity|]. split; [reflexivity|]. split; [reflexivity|].
    unfold fileOf. cbn [r_status r_slug]. split; [reflexivity|]. split; discriminate.
Qed.

(** ** The loop over the engines *)

Lemma fileOf_later promptDir before mid after r :
  fileOf promptDir before mid r ->
  after !! pathJoin promptDir (r_slug r +:+ ".md") = mid !! pathJoin promptDir (r_slug r +:+ ".md") ->
  fileOf promptDir before after r.
Proof.
  unfold fileOf. intros (H1 & H2 & H3) Heq. rewrite Heq. auto.
Qed.

Lemma fileOf_earlier promptDir before mid after r :
  fileOf promptDir mid after r ->
  mid !! pathJoin promptDir (r_slug r +:+ ".md") = before !! pathJoin promptDir (r_slug r +:+ ".md") ->
  fileOf promptDir before after r.
Proof.
  unfold fileOf. intros (H1 & H2 & H3) Heq. rewrite <- Heq. auto.
Qed.

Lemma collect_loop env targets promptDir query timeoutSec : forall engines acc w,
  exists rs rfs w' evs,
    forEach (collectEngine env targets promptDir query timeoutSec) engines acc w
      = (Ok ((fst acc ++ rs)%list, (snd acc ++ rfs)%list), w')
    /\ trace w' = (trace w ++ evs)%list
    /\ synthesisRuns evs = 0%nat
    /\ now w <= now w'
    /\ map r_engine rs = map name engines
    /\ map r_slug rs = map slug engines
    /\ Forall knownStatus rs
    /\ length rfs = okCount rs
    /\ (forall p, (forall e, In e engines -> p <> engineFile promptDir e) ->
                  files w' !! p = files w !! p)
    /\ (NoDup (map slug engines) -> Forall (fileOf promptDir (files w) (files w')) rs).
Proof.
  induction engines as [|engine rest IH]; intros acc w.
  - exists [], [], w, []. rewrite !app_nil_r. destruct acc. cbn.
    repeat split; try reflexivity; try constructor; try lia.
  - destruct (collectEngine_runs env targets promptDir query timeoutSec acc engine w)
      as (resp & rfs1 & w1 & evs1 & Hrun & Ht1 & Hs1 & Hk1 & Hn & Hsl & Hst & Hlen & Hfr & Hfile).
    destruct (IH ((fst acc ++ [resp])%list, (snd acc ++ rfs1)%list) w1)
      as (rs & rfs & w' & evs & Hloop & Ht & Hs & Hk & Hns & Hsls & Hsts & Hlens & Hfrs & Hfiles).
    exists (resp :: rs), (rfs1 ++ rfs)%list, w', (evs1 ++ evs)%list.
    cbn [forEach]. unfold bind. rewrite Hrun, Hloop. cbn [fst snd].
    rewrite <- !app_assoc. split; [reflexivity|].
    split; [rewrite Ht, Ht1, <- app_assoc; reflexivity|].
    split; [rewrite synthesisRuns_app, Hs1, Hs; reflexivity|].
    split; [lia|]. split; [cbn [map]; congruence|]. split; [cbn [map]; congruence|].
    split; [constructor; assumption|].
    split; [rewrite length_app, okCount_cons, Hlen, Hlens; reflexivity|].
    split.
    + intros p Hp. rewrite Hfrs, Hfr; [reflexivity| |].
      * apply Hp. left. reflexivity.
      * intros e He. apply Hp. right. exact He.
    + intros Hnd. cbn [map] in Hnd. apply NoDup_cons in Hnd as [Hnotin Hnd].
      assert (Hother : forall s, In s (map slug rest) ->
                pathJoin promptDir (s +:+ ".md") <> engineFile promptDir engine).
      { intros s Hin Heq. unfold engineFile in Heq. apply pathJoin_inj, append_inj_l in Heq.
        apply Hnotin. apply list_elem_of_In. rewrite <- Heq. exact Hin. }
      constructor.
      * eapply fileOf_later; [exact Hfile|]. apply Hfrs. intros e He Heq.
        rewrite Hsl in Heq. apply engineFile_inj in Heq.
        apply Hnotin. apply list_elem_of_In. fold (engineFile promptDir engine) in *.
        rewrite Heq. apply in_map. exact He.
      * specialize (Hfiles Hnd). rewrite List.Forall_forall in Hfiles |- *.
        intros r Hr. eapply fileOf_earlier; [apply Hfiles, Hr|].
        apply Hfr. apply Hother. rewrite <- Hsls. apply in_map. exact Hr.
Qed.

(** ** Synthesis and the viewer *)

Lemma synthesize_runs env query rfs promptDir w :
  exists w',
    synthesize env query rfs promptDir w = (Ok tt, w')
    /\ trace w' = (trace w ++ [SynthesisRun query rfs])%list
    /\ now w' = now w
    /\ (forall p, p <> pathJoin promptDir "synthesis.md" -> files w' !! p = files w !! p)
    /\ (forall text, claude env query rfs = Some text ->
          files w' !! pathJoin promptDir "synthesis.md"
          = Some (synthesisDoc query (utc env (now w)) rfs text)).
Proof.
  unfold synthesize, tryCatch, bind, execClaude, newDate, writeFileSync, ret.
  destruct (claude env query rfs) as [text|].
  - eexists. split; [reflexivity|]. cbn [trace files now emit store].
    split; [reflexivity|]. split; [reflexivity|]. split.
    + intros p Hp. apply lookup_insert_ne. congruence.
    + intros ? [= <-]. apply lookup_insert_eq.
  - eexists. split; [reflexivity|]. cbn [trace files now emit store].
    split; [reflexivity|]. split; [reflexivity|]. split; [reflexivity|]. discriminate.
Qed.

Lemma viewer_runs env promptDir query rs w :
  exists v w',
    tryCatch
      (do present <- existsSync (pathJoin promptDir "synthesis.md");
       do htmlPath <- generateViewer env promptDir query rs
                        (if present then Some (pathJoin promptDir "synthesis.md") else None);
       ret (Some "index.html"))
      (fun _ => ret None) w = (Ok v, w')
    /\ trace w' = trace w
    /\ now w' = now w
    /\ (forall p, p <> pathJoin promptDir "index.html" -> files w' !! p = files w !! p).
Proof.
  unfold tryCatch, bind, existsSync, generateViewer, ret.
  destruct (renderViewer env promptDir query rs _) as [html|].
  - eexists _, _. split; [reflexivity|]. cbn [trace files now store].
    split; [reflexivity|]. split; [reflexivity|].
    intros p Hp. apply lookup_insert_ne. congruence.
  - eexists _, _. split; [reflexivity|]. auto.
Qed.

(** The files of a run have different names. *)
Lemma engine_files_apart d e :
  In e ENGINES ->
  pathJoin d "prompt.md" <> engineFile d e
  /\ pathJoin d "synthesis.md" <> engineFile d e
  /\ pathJoin d "index.html" <> engineFile d e.
Proof.
  intros He. unfold engineFile.
  repeat split; intros Heq; apply pathJoin_inj in Heq;
    cbn [ENGINES In] in He;
    repeat (destruct He as [<-|He]; [cbn in Heq; discriminate|]); contradiction.
Qed.

Lemma engine_slugs_apart : NoDup (map slug ENGINES).
Proof.
  cbn. repeat constructor; rewrite ?list_elem_of_In; cbn; intuition discriminate.
Qed.

(** ** collectAll *)

Lemma bind_ok {A B} (c : M A) (k : A -> M B) w a w' :
  c w = (Ok a, w') -> bind c k w = k a w'.
Proof. intros H. unfold bind. rewrite H. reflexivity. Qed.

Lemma bind_thrown {A B} (c : M A) (k : A -> M B) w e w' :
  c w = (Thrown e, w') -> bind c k w = (Thrown e, w').
Proof. intros H. unfold bind. rewrite H. reflexivity. Qed.

Lemma collectAll_runs env opts w targets :
  cdpList env = Some targets ->
  exists r w', collectAll env opts w = (Ok r, w') /\ collected env opts w r w'.
Proof.
  intros Hlist. unfold collectAll.
  set (timeoutSec := match timeout opts with Some t => _ | None => _ end).
  fold (synthesisWanted opts).
  rewrite (bind_ok _ _ w targets w) by (unfold listTabs; rewrite Hlist; reflexivity).
  destruct (extractQuery_effects env targets w) as (q & w1 & evs1 & Hq & Hf1 & Ht1 & Hev1 & Hk1).
  rewrite (bind_ok _ _ _ _ _ Hq).
  rewrite (bind_ok _ _ w1 (utc env (now w1)) w1) by reflexivity.
  set (fname := folderNameOf (utc env (now w1)) q).
  set (dir := pathJoin (OUTPUT_DIR env) fname).
  rewrite (bind_ok _ _ w1 tt (emit (MadeDir dir) w1)) by reflexivity.
  rewrite (bind_ok _ _ _ (utc env (now w1)) (emit (MadeDir dir) w1)) by reflexivity.
  set (w2 := store (pathJoin dir "prompt.md") (promptDoc q (utc env (now w1))) (emit (MadeDir dir) w1)).
  rewrite (bind_ok _ _ _ tt w2) by reflexivity.
  set (w3 := emit (Progress "started" (PStarted q (map name ENGINES))) w2).
  rewrite (bind_ok _ _ _ tt w3) by reflexivity.
  destruct (collect_loop env targets dir q timeoutSec ENGINES ([], []) w3)
    as (rs & rfs & w4 & evs4 & Hloop & Ht4 & Hs4 & Hk4 & Hns & Hsls & Hsts & Hlens & Hfr4 & Hfiles).
  cbn [fst snd app] in Hloop. rewrite (bind_ok _ _ _ _ _ Hloop). cbn [fst snd].
  specialize (Hfiles engine_slugs_apart).
  rewrite Hlens.
  assert (Hsynth : exists sp w5 evs5,
    (if synthesisWanted opts && (2 <=? okCount rs)%nat
     then
       (exec onProgress "synthesizing" PSynthesizing;
        exec synthesize env q rfs dir;
        do present <- existsSync (pathJoin dir "synthesis.md");
        ret (if present then Some (pathJoin dir "synthesis.md") else None))
     else ret None) w4 = (Ok sp, w5)
    /\ trace w5 = (trace w4 ++ evs5)%list
    /\ synthesisRuns evs5 = (if synthesisWanted opts && (2 <=? okCount rs)%nat then 1 else 0)%nat
    /\ now w5 = now w4
    /\ (forall p, p <> pathJoin dir "synthesis.md" -> files w5 !! p = files w4 !! p)
    /\ (forall p, sp = Some p -> p = pathJoin dir "synthesis.md" /\ exists c, files w5 !! p = Some c)
    /\ (synthesisWanted opts && (2 <=? okCount rs)%nat = true ->
        forall text, claude env q rfs = Some text ->
          sp = Some (pathJoin dir "synthesis.md")
          /\ exists d, files w5 !! pathJoin dir "synthesis.md" = Some (synthesisDoc q d rfs text))).
  { destruct (synthesisWanted opts && (2 <=? okCount rs)%nat).
    - set (w4' := emit (Progress "synthesizing" PSynthesizing) w4).
      destruct (synthesize_runs env q rfs dir w4') as (w5 & Hsy & Ht5 & Hk5 & Hfr5 & Hdoc).
      rewrite (bind_ok _ _ _ tt w4') by reflexivity.
      rewrite (bind_ok _ _ _ _ _ Hsy).
      unfold bind, existsSync, ret.
      eexists _, w5, _. split; [reflexivity|].
      split; [rewrite Ht5; subst w4'; cbn [trace emit]; rewrite <- app_assoc; reflexivity|].
      split; [reflexivity|]. split; [rewrite Hk5; reflexivity|]. split; [exact Hfr5|]. split.
      + intros p. destruct (files w5 !! pathJoin dir "synthesis.md") as [c|] eqn:E; [|discriminate].
        intros [= <-]. eauto.
      + intros _ text Htext. rewrite (Hdoc text Htext). split; [reflexivity|]. eauto.
    - exists None, w4, []. rewrite app_nil_r. repeat split; try reflexivity; try discriminate. }
  destruct Hsynth as (sp & w5 & evs5 & Hsy & Ht5 & Hs5 & Hk5 & Hfr5 & Hsp & Hdoc).
  rewrite (bind_ok _ _ _ _ _ Hsy).
  destruct (viewer_runs env dir q rs w5) as (v & w6 & Hv & Ht6 & Hk6 & Hfr6).
  rewrite (bind_ok _ _ _ _ _ Hv).
  rewrite (bind_ok _ _ _ tt (emit (Progress "complete" (PComplete fname q rs)) w6)) by reflexivity.
  eexists _, _. split; [reflexivity|].
  assert (Hkeep : forall e, In e ENGINES ->
            files w6 !! engineFile dir e = files w4 !! engineFile dir e).
  { intros e He. destruct (engine_files_apart dir e He) as (_ & H2 & H3).
    rewrite Hfr6, Hfr5; [reflexivity|congruence|congruence]. }
  assert (Hpre : forall e, In e ENGINES ->
            files w3 !! engineFile dir e = files w !! engineFile dir e).
  { intros e He. destruct (engine_files_apart dir e He) as (H1 & _ & _).
    subst w3 w2. cbn [files emit store]. rewrite lookup_insert_ne by exact H1.
    rewrite Hf1. reflexivity. }
  split; cbn [responses promptDir folderName query synthesisPath synthesisFile files emit trace now].
  - eexists. split.
    + rewrite Ht6, Ht5, Ht4. subst w3 w2. cbn [trace emit store]. rewrite Ht1.
      rewrite <- !app_assoc. reflexivity.
    + rewrite !synthesisRuns_app, (synthesisRuns_browser _ Hev1), Hs4, Hs5. cbn. lia.
  - exists (now w1). split; [|reflexivity]. rewrite Hk6, Hk5.
    subst w3 w2. cbn [now emit store] in Hk4. lia.
  - reflexivity.
  - exact Hns.
  - exact Hsls.
  - exact Hsts.
  - rewrite List.Forall_forall in Hfiles |- *. intros r Hr.
    assert (He : exists e, In e ENGINES /\ r_slug r = slug e).
    { assert (Hin : In (r_slug r) (map slug ENGINES)) by (rewrite <- Hsls; apply in_map, Hr).
      apply in_map_iff in Hin as (e & He & Hin). eauto. }
    destruct He as (e & He & Hsl).
    eapply fileOf_later; [eapply fileOf_earlier; [apply Hfiles, Hr|]|].
    + rewrite Hsl. apply (Hpre e He).
    + rewrite Hsl. apply (Hkeep e He).
  - exists (utc env (now w1)). rewrite Hfr6, Hfr5.
    + rewrite Hfr4.
      * subst w3 w2. cbn [files emit store]. apply lookup_insert_eq.
      * intros e He. apply (engine_files_apart dir e He).
    + intros H. apply pathJoin_inj in H. discriminate.
    + intros H. apply pathJoin_inj in H. discriminate.
  - intros p Hp. destruct (Hsp p Hp) as [-> [c Hc]]. split; [reflexivity|].
    rewrite Hp. split; [reflexivity|]. exists c. rewrite Hfr6; [exact Hc|].
    intros H. apply pathJoin_inj in H. discriminate.
  - intros ->. reflexivity.
  - intros Hw. exists rfs. split; [exact Hlens|]. intros text Htext.
    destruct (Hdoc Hw text Htext) as [-> [d Hd]]. split; [reflexivity|].
    exists d. rewrite Hfr6; [exact Hd|].
    intros H. apply pathJoin_inj in H. discriminate.
Qed.

Lemma collectAll_refused env opts w :
  cdpList env = None -> collectAll env opts w = (Thrown ConnectionRefused, w).
Proof.
  intros Hlist. unfold collectAll. apply bind_thrown. unfold listTabs. rewrite Hlist. reflexivity.
Qed.

Lemma collectAll_collected env opts w r w' :
  collectAll env opts w = (Ok r, w') -> collected env opts w r w'.
Proof.
  intros Hrun. destruct (cdpList env) as [targets|] eqn:Hlist.
  - destruct (collectAll_runs env opts w targets Hlist) as (r0 & w0 & Hrun0 & Hcol).
    rewrite Hrun in Hrun0. injection Hrun0 as <- <-. exact Hcol.
  - rewrite (collectAll_refused env opts w Hlist) in Hrun. discriminate.
Qed.

(** ** The claims about the pipeline *)


(** C2. When the tabs can be listed and synthesis is not switched off,
    [collectAll] returns a result, and the synthesis process runs once if at
    least two responses have status "ok" and does not run otherwise. *)
Theorem synthesis_needs_two_answers env opts w targets :
  cdpList env = Some targets ->
  doSynthesize opts <> Some false ->
  exists r w',
    collectAll env opts w = (Ok r, w')
    /\ synthesisRuns (eventsSince w w')
       = (if (2 <=? okCount (responses r))%nat then 1 else 0)%nat.
Proof.
  intros Hlist Hwant.
  destruct (collectAll_runs env opts w targets Hlist) as (r & w' & Hrun & Hcol).
  exists r, w'. split; [exact Hrun|].
  destruct (col_events _ _ _ _ _ Hcol) as (evs & Ht & Hs).
  rewrite (eventsSince_app _ _ _ Ht), Hs.
  assert (Hw : synthesisWanted opts = true).
  { unfold synthesisWanted. destruct (doSynthesize opts) as [[]|]; congruence. }
  rewrite Hw. reflexivity.
Qed.

Lemma synthesis_needs_two_answers_witness :
  exists r w',
    collectAll (browserWith [someTab; claudeTab] steadyPage) defaults startWorld = (Ok r, w')
    /\ synthesisRuns (eventsSince startWorld w')
       = (if (2 <=? okCount (responses r))%nat then 1 else 0)%nat.
Proof.
  apply (synthesis_needs_two_answers _ _ _ [someTab; claudeTab]); [reflexivity|discriminate].
Defined.


Lemma length_append a b : String.length (a +:+ b) = (String.length a + String.length b)%nat.
Proof. induction a as [|c a IH]; [reflexivity|]. simpl. rewrite IH. reflexivity. Qed.

Lemma collected_status env opts w r w' :
  collectAll env opts w = (Ok r, w') -> Forall knownStatus (responses r).
Proof. intros Hrun. exact (col_status _ _ _ _ _ (collectAll_collected _ _ _ _ _ Hrun)). Qed.

(** C10. Every response of a run of [collectAll] has status "ok", "no_tab" or
    "failed". An extraction that timed out with a partial text gives a
    response of status "ok" whose [chars] counts the text with its note. *)
Theorem statuses_at_the_interface :
  (forall env opts w r w',
      collectAll env opts w = (Ok r, w') ->
      Forall (fun resp => r_status resp = "ok" \/ r_status resp = "no_tab"
                          \/ r_status resp = "failed") (responses r))
  /\ (forall env targets promptDir query timeoutSec acc engine tab w lastText,
         findTab targets engine = Some tab ->
         fst (extractExit env tab engine timeoutSec w) = Ok (Partial lastText) ->
         exists w',
           collectEngine env targets promptDir query timeoutSec acc engine w
           = (Ok ((fst acc ++
                   [mkResponse (name engine) (slug engine) "ok"
                      (Some (Z.of_nat (String.length (lastText +:+ INCOMPLETE_NOTE))))
                      (Some (slug engine +:+ ".md"))])%list,
                  (snd acc ++ [mkResponseFile (name engine) (engineFile promptDir engine)])%list),
              w')).
Proof.
  split; [exact collected_status|].
  intros env targets promptDir query timeoutSec acc engine tab w lastText Htab Hexit.
  destruct (extractFromTab_effects env tab engine timeoutSec w)
    as (e & w1 & evs & Hex & Hrun & _).
  rewrite Hex in Hexit. cbn [fst] in Hexit. injection Hexit as ->.
  unfold collectEngine. rewrite Htab. unfold bind at 1. rewrite Hrun.
  unfold bind at 1. unfold newDate at 1. cbn [returned truthy].
  assert (Hlen : (String.length (lastText +:+ INCOMPLETE_NOTE) =? 0)%nat = false).
  { rewrite length_append. apply Nat.eqb_neq.
    assert (0 < String.length INCOMPLETE_NOTE)%nat by (vm_compute; lia). lia. }
  rewrite Hlen. eexists. reflexivity.
Qed.

Lemma statuses_at_the_interface_witness :
  (exists r w',
      collectAll (browserWith [someTab; claudeTab] mixedPage) defaults startWorld = (Ok r, w')
      /\ Forall (fun resp => r_status resp = "ok" \/ r_status resp = "no_tab"
                             \/ r_status resp = "failed") (responses r))
  /\ exists w',
       collectEngine (browserWith [someTab] fadingPage) [someTab] "/app/responses/run" "capital"
                     10 ([], []) someEngine startWorld
       = (Ok ([mkResponse "ChatGPT" "chatgpt" "ok"
                 (Some (Z.of_nat (String.length ("Paris" +:+ INCOMPLETE_NOTE))))
                 (Some "chatgpt.md")],
              [mkResponseFile "ChatGPT" "/app/responses/run/chatgpt.md"]), w').
Proof.
  destruct statuses_at_the_interface as [H1 H2]. split.
  - eexists _, _. split; [vm_compute; reflexivity|].
    eapply (H1 (browserWith [someTab; claudeTab] mixedPage) defaults startWorld).
    vm_compute. reflexivity.
  - apply (H2 (browserWith [someTab] fadingPage) [someTab] "/app/responses/run" "capital"
              10 ([], []) someEngine someTab startWorld "Paris"); vm_compute; reflexivity.
Defined.

(** ** The calendar *)

Lemma yearStart y :
  let era := y / 400 in let yoe := y - era * 400 in
  era * 146097 + (yoe * 365 + yoe / 4 - yoe / 100) = marchFirst y.
Proof.
  cbv zeta. unfold marchFirst.
  Z.to_euclidean_division_equations; lia.
Qed.

Lemma marchFirst_mono y1 y2 : y1 <= y2 -> marchFirst y1 <= marchFirst y2.
Proof. unfold marchFirst. intros H. Z.to_euclidean_division_equations; lia. Qed.

Lemma marchFirst_succ y :
  marchFirst (y + 1) = marchFirst y + 365 + (if DateFmt.isLeap (y + 1) then 1 else 0).
Proof.
  unfold marchFirst, DateFmt.isLeap.
  destruct (Z.eqb_spec ((y + 1) mod 4) 0), (Z.eqb_spec ((y + 1) mod 100) 0),
    (Z.eqb_spec ((y + 1) mod 400) 0); cbn [andb orb negb];
  (Z.to_euclidean_division_equations; lia).
Qed.


Lemma daysFromCivil_eq y m d :
  DateFmt.daysFromCivil y m d = marchFirst (shiftYear y m) + dayOfYear (shiftMonth m) d - 719468.
Proof.
  unfold DateFmt.daysFromCivil. cbv zeta. fold (shiftYear y m). fold (shiftMonth m).
  fold (dayOfYear (shiftMonth m) d).
  pose proof (yearStart (shiftYear y m)) as H. cbv zeta in H. lia.
Qed.


Lemma month_cases m : 1 <= m <= 12 ->
  m = 1 \/ m = 2 \/ m = 3 \/ m = 4 \/ m = 5 \/ m = 6 \/ m = 7 \/ m = 8 \/ m = 9 \/ m = 10 \/ m = 11 \/ m = 12.
Proof. lia. Qed.

Ltac months :=
  cbv beta iota zeta delta
    [DateFmt.daysInMonth shiftMonth shiftYear dayOfYear Z.eqb Z.leb Z.ltb Z.compare
     Pos.compare Pos.compare_cont Pos.eqb orb] in *.

Lemma dayOfYear_bounds y m d :
  validDay y m d ->
  0 <= dayOfYear (shiftMonth m) d
  /\ dayOfYear (shiftMonth m) d <= 364 + (if DateFmt.isLeap (shiftYear y m + 1) then 1 else 0).
Proof.
  intros [Hm Hd].
  destruct (month_cases m Hm) as [->|[->|[->|[->|[->|[->|[->|[->|[->|[->|[->| ->]]]]]]]]]]];
    months; try (destruct (DateFmt.isLeap _); Z.to_euclidean_division_equations; lia).
  replace (y - 1 + 1) with y by lia.
  destruct (DateFmt.isLeap y); Z.to_euclidean_division_equations; lia.
Qed.

Lemma dayOfYear_mono y1 y2 m1 d1 m2 d2 :
  validDay y1 m1 d1 -> validDay y2 m2 d2 ->
  shiftMonth m1 < shiftMonth m2 ->
  dayOfYear (shiftMonth m1) d1 < dayOfYear (shiftMonth m2) d2.
Proof.
  intros [Hm1 Hd1] [Hm2 Hd2].
  destruct (month_cases m1 Hm1) as [->|[->|[->|[->|[->|[->|[->|[->|[->|[->|[->| ->]]]]]]]]]]];
  destruct (month_cases m2 Hm2) as [->|[->|[->|[->|[->|[->|[->|[->|[->|[->|[->| ->]]]]]]]]]]];
    months; intros Hlt; try lia;
    destruct (DateFmt.isLeap y1), (DateFmt.isLeap y2); Z.to_euclidean_division_equations; lia.
Qed.

Lemma daysFromCivil_mono y1 m1 d1 y2 m2 d2 :
  validDay y1 m1 d1 -> validDay y2 m2 d2 ->
  y1 < y2 \/ (y1 = y2 /\ (m1 < m2 \/ (m1 = m2 /\ d1 < d2))) ->
  DateFmt.daysFromCivil y1 m1 d1 < DateFmt.daysFromCivil y2 m2 d2.
Proof.
  intros V1 V2 Hlt. rewrite !daysFromCivil_eq.
  pose proof (dayOfYear_bounds y1 m1 d1 V1) as [L1 U1].
  pose proof (dayOfYear_bounds y2 m2 d2 V2) as [L2 U2].
  destruct (Z.lt_trichotomy (shiftYear y1 m1) (shiftYear y2 m2)) as [Hy|[Hy|Hy]].
  - pose proof (marchFirst_succ (shiftYear y1 m1)) as Hs.
    assert (Hle : shiftYear y1 m1 + 1 <= shiftYear y2 m2) by lia.
    pose proof (marchFirst_mono _ _ Hle).
    destruct (DateFmt.isLeap (shiftYear y1 m1 + 1)); lia.
  - rewrite Hy.
    destruct V1 as [Hm1 Hd1], V2 as [Hm2 Hd2].
    assert (Hcase : shiftMonth m1 < shiftMonth m2 \/ (m1 = m2 /\ y1 = y2 /\ d1 < d2)).
    { unfold shiftYear, shiftMonth in *.
      destruct (Z.leb_spec m1 2), (Z.leb_spec m2 2), (Z.ltb_spec 2 m1), (Z.ltb_spec 2 m2); lia. }
    destruct Hcase as [Hmp|(-> & -> & Hd)].
    + pose proof (dayOfYear_mono y1 y2 m1 d1 m2 d2 (conj Hm1 Hd1) (conj Hm2 Hd2) Hmp). lia.
    + unfold dayOfYear. lia.
  - exfalso. unfold shiftYear in *.
    destruct (Z.leb_spec m1 2), (Z.leb_spec m2 2); destruct V1, V2; lia.
Qed.

(** ** Stamps *)

Lemma digit_code n : Js.code (DateFmt.digit n) = (48 + Z.to_N (n mod 10))%N.
Proof.
  unfold Js.code, DateFmt.digit. apply N_ascii_embedding.
  pose proof (Z.mod_pos_bound n 10 ltac:(lia)). lia.
Qed.

Lemma digit_dash n : DateFmt.dashChar (DateFmt.digit n) = DateFmt.digit n.
Proof.
  unfold DateFmt.dashChar. rewrite digit_code.
  pose proof (Z.mod_pos_bound n 10 ltac:(lia)).
  destruct (N.eqb_spec (48 + Z.to_N (n mod 10)) 58); [lia|].
  destruct (N.eqb_spec (48 + Z.to_N (n mod 10)) 46); [lia|]. reflexivity.
Qed.

Lemma stampChars_eq d :
  0 <= year d <= 9999 ->
  DateFmt.stampChars d =
  (DateFmt.pad4 (year d) ++ Js.hyphen :: DateFmt.pad2 (month d) ++ Js.hyphen :: DateFmt.pad2 (day d)
   ++ "T"%char :: DateFmt.pad2 (hours d) ++ Js.hyphen :: DateFmt.pad2 (minutes d)
   ++ Js.hyphen :: DateFmt.pad2 (seconds d))%list.
Proof.
  intros Hy. unfold DateFmt.stampChars, DateFmt.isoChars, DateFmt.yearChars.
  destruct (Z.leb_spec 0 (year d)); [|lia]. destruct (Z.leb_spec (year d) 9999); [|lia].
  cbn [andb]. unfold DateFmt.pad4, DateFmt.pad3, DateFmt.pad2.
  cbn [app map]. rewrite !digit_dash. reflexivity.
Qed.

Lemma digit_compare a b :
  Ascii.compare (DateFmt.digit a) (DateFmt.digit b) = (a mod 10 ?= b mod 10).
Proof.
  unfold Ascii.compare. fold (Js.code (DateFmt.digit a)). fold (Js.code (DateFmt.digit b)).
  rewrite !digit_code.
  pose proof (Z.mod_pos_bound a 10 ltac:(lia)). pose proof (Z.mod_pos_bound b 10 ltac:(lia)).
  rewrite <- N2Z.inj_compare, !N2Z.inj_add, !Z2N.id by lia.
  apply Z.add_compare_mono_l.
Qed.

(** Strings compare as their characters do. *)
Lemma compare_cons c1 l1 c2 l2 :
  String.compare (string_of_list_ascii (c1 :: l1)) (string_of_list_ascii (c2 :: l2)) =
  match Ascii.compare c1 c2 with
  | Eq => String.compare (string_of_list_ascii l1) (string_of_list_ascii l2)
  | c => c
  end.
Proof. cbn [string_of_list_ascii String.compare]. destruct (Ascii.compare c1 c2); reflexivity. Qed.

Lemma ascii_compare_refl c : Ascii.compare c c = Eq.
Proof. unfold Ascii.compare. apply N.compare_refl. Qed.

Lemma compare_refl s : String.compare s s = Eq.
Proof. induction s as [|c s IH]; [reflexivity|]. cbn. rewrite ascii_compare_refl. exact IH. Qed.

Lemma compare_app a : forall b r r',
  length a = length b ->
  String.compare (string_of_list_ascii (a ++ r)) (string_of_list_ascii (b ++ r')) =
  match String.compare (string_of_list_ascii a) (string_of_list_ascii b) with
  | Eq => String.compare (string_of_list_ascii r) (string_of_list_ascii r')
  | c => c
  end.
Proof.
  induction a as [|c a IH]; intros [|c' b] r r' Hlen; try discriminate; [reflexivity|].
  cbn [app]. rewrite !compare_cons. destruct (Ascii.compare c c'); try reflexivity.
  apply IH. cbn in Hlen. congruence.
Qed.

Lemma compare_pad2 n n' :
  0 <= n <= 99 -> 0 <= n' <= 99 ->
  String.compare (string_of_list_ascii (DateFmt.pad2 n)) (string_of_list_ascii (DateFmt.pad2 n'))
  = (n ?= n').
Proof.
  intros Hn Hn'. unfold DateFmt.pad2. rewrite !compare_cons, !digit_compare. cbn [string_of_list_ascii String.compare].
  destruct (Z.compare_spec ((n / 10) mod 10) ((n' / 10) mod 10));
    destruct (Z.compare_spec (n mod 10) (n' mod 10));
    symmetry; first [apply Z.compare_eq_iff | apply Z.compare_lt_iff | apply Z.compare_gt_iff];
    Z.to_euclidean_division_equations; lia.
Qed.

Lemma compare_pad4 n n' :
  0 <= n <= 9999 -> 0 <= n' <= 9999 ->
  String.compare (string_of_list_ascii (DateFmt.pad4 n)) (string_of_list_ascii (DateFmt.pad4 n'))
  = (n ?= n').
Proof.
  intros Hn Hn'. unfold DateFmt.pad4, DateFmt.pad3, DateFmt.pad2.
  rewrite !compare_cons, !digit_compare. cbn [string_of_list_ascii String.compare].
  destruct (Z.compare_spec ((n / 1000) mod 10) ((n' / 1000) mod 10));
    destruct (Z.compare_spec ((n / 100) mod 10) ((n' / 100) mod 10));
    destruct (Z.compare_spec ((n / 10) mod 10) ((n' / 10) mod 10));
    destruct (Z.compare_spec (n mod 10) (n' mod 10));
    symmetry; first [apply Z.compare_eq_iff | apply Z.compare_lt_iff | apply Z.compare_gt_iff];
    Z.to_euclidean_division_equations; lia.
Qed.

Lemma string_of_app a b :
  string_of_list_ascii (a ++ b) = string_of_list_ascii a +:+ string_of_list_ascii b.
Proof. induction a as [|c a IH]; [reflexivity|]. simpl. rewrite IH. reflexivity. Qed.

Lemma valid_fields d :
  DateFmt.valid d = true ->
  validDay (year d) (month d) (day d)
  /\ 0 <= hours d <= 23 /\ 0 <= minutes d <= 59
  /\ 0 <= seconds d <= 59 /\ 0 <= millis d <= 999.
Proof.
  unfold DateFmt.valid, validDay. rewrite !andb_true_iff, !Z.leb_le. tauto.
Qed.

Lemma daysInMonth_max y m : DateFmt.daysInMonth y m <= 31.
Proof.
  unfold DateFmt.daysInMonth.
  destruct (m =? 2); [destruct (DateFmt.isLeap y); lia|].
  destruct ((m =? 4) || (m =? 6) || (m =? 9) || (m =? 11)); lia.
Qed.

Lemma secondOf_eq d :
  DateFmt.valid d = true ->
  DateFmt.secondOf d =
  ((DateFmt.daysFromCivil (year d) (month d) (day d) * 24 + hours d) * 60 + minutes d) * 60
  + seconds d.
Proof.
  intros Hv. apply valid_fields in Hv as (_ & _ & _ & _ & Hms).
  unfold DateFmt.secondOf, DateFmt.getTime.
  symmetry. apply (Z.div_unique _ 1000 _ (millis d)); lia.
Qed.

(** The second a date falls in orders dates as their fields do. *)
Lemma secondOf_compare d1 d2 :
  DateFmt.valid d1 = true -> DateFmt.valid d2 = true ->
  (DateFmt.secondOf d1 ?= DateFmt.secondOf d2) = lexCompare (stampKey d1) (stampKey d2).
Proof.
  intros V1 V2. rewrite (secondOf_eq d1 V1), (secondOf_eq d2 V2).
  apply valid_fields in V1 as (D1 & Hh1 & Hm1 & Hs1 & _).
  apply valid_fields in V2 as (D2 & Hh2 & Hm2 & Hs2 & _).
  unfold stampKey. cbn [lexCompare].
  assert (Hlt : forall y1 m1 d1 y2 m2 d2, validDay y1 m1 d1 -> validDay y2 m2 d2 ->
            y1 < y2 \/ (y1 = y2 /\ (m1 < m2 \/ (m1 = m2 /\ d1 < d2))) ->
            DateFmt.daysFromCivil y1 m1 d1 + 1 <= DateFmt.daysFromCivil y2 m2 d2).
  { intros. pose proof (daysFromCivil_mono _ _ _ _ _ _ H H0 H1). lia. }
  destruct (Z.compare_spec (year d1) (year d2)) as [Ey|Ly|Gy].
  2:{ apply Z.compare_lt_iff.
      pose proof (Hlt _ _ _ _ _ _ D1 D2 ltac:(left; exact Ly)). lia. }
  2:{ apply Z.compare_gt_iff.
      pose proof (Hlt _ _ _ _ _ _ D2 D1 ltac:(left; exact Gy)). lia. }
  destruct (Z.compare_spec (month d1) (month d2)) as [Em|Lm|Gm].
  2:{ apply Z.compare_lt_iff.
      pose proof (Hlt _ _ _ _ _ _ D1 D2 ltac:(right; split; [exact Ey|left; exact Lm])). lia. }
  2:{ apply Z.compare_gt_iff.
      pose proof (Hlt _ _ _ _ _ _ D2 D1 ltac:(right; split; [symmetry; exact Ey|left; exact Gm])). lia. }
  destruct (Z.compare_spec (day d1) (day d2)) as [Ed|Ld|Gd].
  2:{ apply Z.compare_lt_iff.
      pose proof (Hlt _ _ _ _ _ _ D1 D2
                    ltac:(right; split; [exact Ey|right; split; [exact Em|exact Ld]])). lia. }
  2:{ apply Z.compare_gt_iff.
      pose proof (Hlt _ _ _ _ _ _ D2 D1
                    ltac:(right; split; [symmetry; exact Ey|right; split; [symmetry; exact Em|exact Gd]])).
      lia. }
  rewrite Ey, Em, Ed.
  destruct (Z.compare_spec (hours d1) (hours d2));
    destruct (Z.compare_spec (minutes d1) (minutes d2));
    destruct (Z.compare_spec (seconds d1) (seconds d2));
    first [apply Z.compare_eq_iff | apply Z.compare_lt_iff | apply Z.compare_gt_iff]; lia.
Qed.

Lemma stamp_compare d1 d2 :
  DateFmt.valid d1 = true -> DateFmt.valid d2 = true ->
  0 <= year d1 <= 9999 -> 0 <= year d2 <= 9999 ->
  String.compare (DateFmt.stamp d1) (DateFmt.stamp d2) = lexCompare (stampKey d1) (stampKey d2).
Proof.
  intros V1 V2 Y1 Y2. unfold DateFmt.stamp. rewrite !stampChars_eq by assumption.
  apply valid_fields in V1 as ((Hmo1 & Hd1) & Hh1 & Hm1 & Hs1 & _).
  apply valid_fields in V2 as ((Hmo2 & Hd2) & Hh2 & Hm2 & Hs2 & _).
  pose proof (daysInMonth_max (year d1) (month d1)).
  pose proof (daysInMonth_max (year d2) (month d2)).
  unfold stampKey. cbn [lexCompare].
  rewrite compare_app, compare_pad4 by (assumption || reflexivity).
  destruct (year d1 ?= year d2); try reflexivity.
  rewrite compare_cons, ascii_compare_refl.
  rewrite compare_app, compare_pad2 by (lia || reflexivity).
  destruct (month d1 ?= month d2); try reflexivity.
  rewrite compare_cons, ascii_compare_refl.
  rewrite compare_app, compare_pad2 by (lia || reflexivity).
  destruct (day d1 ?= day d2); try reflexivity.
  rewrite compare_cons, ascii_compare_refl.
  rewrite compare_app, compare_pad2 by (lia || reflexivity).
  destruct (hours d1 ?= hours d2); try reflexivity.
  rewrite compare_cons, ascii_compare_refl.
  rewrite compare_app, compare_pad2 by (lia || reflexivity).
  destruct (minutes d1 ?= minutes d2); try reflexivity.
  rewrite compare_cons, ascii_compare_refl.
  rewrite compare_pad2 by lia.
  destruct (seconds d1 ?= seconds d2); reflexivity.
Qed.

Lemma stampChars_length d : 0 <= year d <= 9999 -> length (DateFmt.stampChars d) = 19%nat.
Proof. intros Hy. rewrite stampChars_eq by exact Hy. reflexivity. Qed.

(** Folder names compare by the second of the start, then by the slug. *)
Lemma folderName_compare d1 q1 d2 q2 :
  DateFmt.valid d1 = true -> DateFmt.valid d2 = true ->
  0 <= year d1 <= 9999 -> 0 <= year d2 <= 9999 ->
  String.compare (folderNameOf d1 q1) (folderNameOf d2 q2) =
  match DateFmt.secondOf d1 ?= DateFmt.secondOf d2 with
  | Eq => String.compare (slugify q1) (slugify q2)
  | c => c
  end.
Proof.
  intros V1 V2 Y1 Y2. rewrite (secondOf_compare d1 d2 V1 V2), <- (stamp_compare d1 d2 V1 V2 Y1 Y2).
  unfold folderNameOf, DateFmt.stamp.
  rewrite <- (string_of_list_ascii_of_string ("_" +:+ slugify q1)).
  rewrite <- (string_of_list_ascii_of_string ("_" +:+ slugify q2)).
  rewrite <- !string_of_app.
  rewrite compare_app by (rewrite !stampChars_length by assumption; reflexivity).
  destruct (String.compare _ _); try reflexivity.
  simpl list_ascii_of_string. rewrite compare_cons, ascii_compare_refl.
  rewrite !string_of_list_ascii_of_string. reflexivity.
Qed.

(** ** Reading more from a trace *)

Lemma progressOf_app a b : progressOf (a ++ b)%list = (progressOf a ++ progressOf b)%list.
Proof. induction a as [|[] a IH]; simpl; rewrite ?IH; reflexivity. Qed.

Lemma synthesisCalls_app a b :
  synthesisCalls (a ++ b)%list = (synthesisCalls a ++ synthesisCalls b)%list.
Proof. induction a as [|[] a IH]; simpl; rewrite ?IH; reflexivity. Qed.

Lemma progressOf_browser evs : Forall browserEvent evs -> progressOf evs = [].
Proof.
  induction 1 as [|e evs He _ IH]; [reflexivity|].
  destruct e; cbn in *; try contradiction; exact IH.
Qed.

Lemma synthesisCalls_browser evs : Forall browserEvent evs -> synthesisCalls evs = [].
Proof.
  induction 1 as [|e evs He _ IH]; [reflexivity|].
  destruct e; cbn in *; try contradiction; exact IH.
Qed.


Lemma madeDirs_app a b : madeDirs (a ++ b)%list = (madeDirs a ++ madeDirs b)%list.
Proof. induction a as [|[] a IH]; simpl; rewrite ?IH; reflexivity. Qed.

Lemma madeDirs_browser evs : Forall browserEvent evs -> madeDirs evs = [].
Proof.
  induction 1 as [|e evs He _ IH]; [reflexivity|].
  destruct e; cbn in *; try contradiction; exact IH.
Qed.

(** ** More on the extractor *)

Lemma pollLoop_polls env client engine deadline :
  forall budget lastText stableCount w out w',
    pollLoop budget env client engine deadline lastText stableCount w = (Ok out, w') ->
    exists evs, trace w' = (trace w ++ evs)%list
      /\ (pollsOf evs = []
          \/ POLL_INTERVAL * (Z.of_nat (length (pollsOf evs)) - 1) < deadline - now w).
Proof.
  induction budget as [|budget IH]; intros lastText stableCount w out w' Hrun; [discriminate|].
  rewrite pollLoop_step in Hrun.
  destruct (Z.ltb_spec (now w) deadline) as [Hlt|Hge].
  - set (o := fst (runtimeEvaluate env (evaluations w))) in *.
    assert (Hcont : forall l s,
      pollLoop budget env client engine deadline l s
        (emit (Slept POLL_INTERVAL) (advance POLL_INTERVAL (polled env client engine w)))
      = (Ok out, w') ->
      exists evs, trace w' = (trace w ++ evs)%list
        /\ (pollsOf evs = []
            \/ POLL_INTERVAL * (Z.of_nat (length (pollsOf evs)) - 1) < deadline - now w)).
    { intros l s Hrec. destruct (IH _ _ _ _ _ Hrec) as (evs & Ht & Hn).
      exists (Evaluated client (extractScript engine) o :: Slept POLL_INTERVAL :: evs). split.
      - rewrite Ht. cbn [trace emit advance polled]. fold o. rewrite <- !app_assoc. reflexivity.
      - right. cbn [pollsOf length]. cbn [now emit advance polled] in Hn.
        unfold POLL_INTERVAL in *. destruct Hn as [->|Hn]; cbn [length]; lia. }
    destruct o as [v|] eqn:Eo.
    + destruct (observe (orElse v "") lastText stableCount) as [text|l s].
      * injection Hrun as <- <-. exists [Evaluated client (extractScript engine) (Returned v)].
        split; [cbn [trace emit polled]; fold o; rewrite Eo; reflexivity|].
        right. cbn. unfold POLL_INTERVAL. lia.
      * eapply Hcont, Hrun.
    + eapply Hcont, Hrun.
  - injection Hrun as <- <-. exists []. rewrite app_nil_r. auto.
Qed.

Lemma extractExit_counted env target engine timeoutSec w :
  exists e w',
    extractExit env target engine timeoutSec w = (Ok e, w')
    /\ (pollsOf (eventsSince w w') = []
        \/ POLL_INTERVAL * (Z.of_nat (length (pollsOf (eventsSince w w'))) - 1)
           < timeoutSec * 1000).
Proof.
  unfold extractExit, cdpOpen.
  destruct (cdpConnect env (connections w)) eqn:Hc.
  2:{ eexists _, _. split; [reflexivity|]. left.
      rewrite (eventsSince_app w _ [ConnectFailed target]) by reflexivity. reflexivity. }
  set (c := connections w). set (w1 := emit (Connected c target) _).
  unfold tryFinally, tryCatch, pollTab, bind at 1. unfold dateNow at 1.
  destruct (pollBudget_enough timeoutSec (now w1)) as [Hpos Hb].
  destruct (pollLoop_runs env c engine (now w1 + timeoutSec * 1000) _ "" 0 w1 Hpos Hb)
    as (out & w2 & evs0 & Hrun & _).
  destruct (pollLoop_polls _ _ _ _ _ _ _ _ _ _ Hrun) as (evs & Ht & Hn).
  unfold bind. rewrite Hrun.
  assert (Hclose : closeQuietly env c w2 = (Ok tt, emit (Closed c (clientClose env c)) w2)).
  { unfold closeQuietly, tryCatch, closeClient. destruct (clientClose env c); reflexivity. }
  exists (exitOf out), (emit (Closed c (clientClose env c)) w2). split.
  - destruct out as [text|lastText]; cbn [exitOf].
    + unfold ret. rewrite Hclose. reflexivity.
    + destruct (0 <? String.length lastText)%nat; unfold ret; rewrite Hclose; reflexivity.
  - rewrite (eventsSince_app w _ (Connected c target :: evs ++ [Closed c (clientClose env c)])).
    + cbn [pollsOf]. rewrite pollsOf_app. cbn [pollsOf]. rewrite app_nil_r.
      destruct Hn as [Hn|Hn]; [left; exact Hn|right; lia].
    + cbn [trace emit]. rewrite Ht. subst w1. cbn [trace emit]. rewrite <- !app_assoc. reflexivity.
Qed.

Lemma extractExit_polls env target engine timeoutSec w :
  let polls := pollsOf (eventsSince w (snd (extractExit env target engine timeoutSec w))) in
  polls = [] \/ POLL_INTERVAL * (Z.of_nat (length polls) - 1) < timeoutSec * 1000.
Proof.
  destruct (extractExit_counted env target engine timeoutSec w) as (e & w' & Hrun & Hn).
  rewrite Hrun. exact Hn.
Qed.

Lemma extractFromTab_world env target engine timeoutSec w :
  snd (extractFromTab env target engine timeoutSec w)
  = snd (extractExit env target engine timeoutSec w).
Proof.
  destruct (extractExit_runs env target engine timeoutSec w) as (e & w' & Hrun & _).
  rewrite (extractFromTab_exit _ _ _ _ _ _ _ Hrun), Hrun. reflexivity.
Qed.

(** Without time there is no poll and no text. *)
Lemma extractFromTab_no_time env target engine timeoutSec w :
  timeoutSec <= 0 -> fst (extractFromTab env target engine timeoutSec w) = Ok None.
Proof.
  intros Hneg.
  pose proof (extractExit_polls env target engine timeoutSec w) as Hn. cbv zeta in Hn.
  assert (Hnil : pollsOf (eventsSince w (snd (extractExit env target engine timeoutSec w))) = []).
  { destruct Hn as [Hn|Hn]; [exact Hn|].
    destruct (pollsOf _); [reflexivity|]. cbn [length] in Hn. unfold POLL_INTERVAL in Hn. lia. }
  destruct (extractExit_runs env target engine timeoutSec w) as (e & w' & Hrun & _ & _ & _ & Hex).
  rewrite (extractFromTab_exit _ _ _ _ _ _ _ Hrun). rewrite Hrun in Hnil. cbn [fst snd] in *.
  destruct (extraction_replay _ _ _ _ _ Hex) as (out & Hr & [-> | [-> _]]); [|reflexivity].
  rewrite Hnil in Hr. injection Hr as <-. reflexivity.
Qed.

(** X1 (extractFromTab, lines 267-297). The polls of a call are at least
    [POLL_INTERVAL] apart and each starts before the deadline: with n polls,
    n at least 1, (n - 1) * 2000 ms is less than the timeout; a timeout of
    zero or less allows no poll. *)
Theorem polls_fit_the_timeout env target engine timeoutSec w :
  let polls := pollsOf (eventsSince w (snd (extractFromTab env target engine timeoutSec w))) in
  (polls <> [] -> POLL_INTERVAL * (Z.of_nat (length polls) - 1) < timeoutSec * 1000)
  /\ (timeoutSec <= 0 -> polls = []
      /\ fst (extractFromTab env target engine timeoutSec w) = Ok None).
Proof.
  cbv zeta. rewrite extractFromTab_world.
  pose proof (extractExit_polls env target engine timeoutSec w) as Hn. cbv zeta in Hn.
  split; [destruct Hn; [contradiction|auto]|].
  intros Hneg.
  assert (Hnil : pollsOf (eventsSince w (snd (extractExit env target engine timeoutSec w))) = []).
  { destruct Hn as [Hn|Hn]; [exact Hn|].
    destruct (pollsOf _); [reflexivity|]. cbn [length] in Hn. unfold POLL_INTERVAL in Hn. lia. }
  split; [exact Hnil|].
  destruct (extractExit_runs env target engine timeoutSec w) as (e & w' & Hrun & _ & _ & _ & Hex).
  rewrite (extractFromTab_exit _ _ _ _ _ _ _ Hrun). rewrite Hrun in Hnil. cbn [fst snd] in *.
  destruct (extraction_replay _ _ _ _ _ Hex) as (out & Hr & [-> | [-> _]]); [|reflexivity].
  rewrite Hnil in Hr. injection Hr as <-. reflexivity.
Qed.

Lemma polls_fit_the_timeout_witness :
  let polls := pollsOf (eventsSince startWorld
                 (snd (extractFromTab (browser changingPage) someTab someEngine 0 startWorld))) in
  polls = []
  /\ fst (extractFromTab (browser changingPage) someTab someEngine 0 startWorld) = Ok None.
Proof.
  apply (polls_fit_the_timeout (browser changingPage) someTab someEngine 0 startWorld). lia.
Defined.

Lemma replay_stable_text polls : forall l s t rest,
  replay polls l s = (Stabilized t, rest) ->
  t <> "" /\ In (Returned (Some t)) polls.
Proof.
  induction polls as [|o polls IH]; intros l s t rest Hr; [discriminate|].
  destruct o as [v|]; cbn [replay] in Hr.
  - destruct (observe_cases (orElse v "") l s) as [(Ht&_&_&E)|[(_&_&_&E)|[(_&_&E)|(_&E)]]];
      rewrite E in Hr.
    + injection Hr as <- _. split; [exact Ht|]. left.
      apply (textOf_shown (Returned v)); [exact Ht|reflexivity].
    + destruct (IH _ _ _ _ Hr). split; [assumption|right; assumption].
    + destruct (IH _ _ _ _ Hr). split; [assumption|right; assumption].
    + destruct (IH _ _ _ _ Hr). split; [assumption|right; assumption].
  - destruct (IH _ _ _ _ Hr). split; [assumption|right; assumption].
Qed.

Lemma replay_deadline_text polls : forall l s l' rest,
  replay polls l s = (DeadlineReached l', rest) ->
  l' = l \/ (l' <> "" /\ In (Returned (Some l')) polls).
Proof.
  induction polls as [|o polls IH]; intros l s l' rest Hr.
  - injection Hr as <- _. left. reflexivity.
  - destruct o as [v|]; cbn [replay] in Hr.
    + destruct (observe_cases (orElse v "") l s) as [(Ht&_&_&E)|[(_&_&_&E)|[(Ht&_&E)|(_&E)]]];
        rewrite E in Hr; try discriminate.
      * destruct (IH _ _ _ _ Hr) as [->|[H1 H2]]; [left; reflexivity|right; split; [exact H1|right; exact H2]].
      * destruct (IH _ _ _ _ Hr) as [->|[H1 H2]]; [|right; split; [exact H1|right; exact H2]].
        right. split; [exact Ht|]. left.
        apply (textOf_shown (Returned v)); [exact Ht|reflexivity].
      * destruct (IH _ _ _ _ Hr) as [->|[H1 H2]]; [left; reflexivity|right; split; [exact H1|right; exact H2]].
    + destruct (IH _ _ _ _ Hr) as [->|[H1 H2]]; [left; reflexivity|right; split; [exact H1|right; exact H2]].
Qed.

(** X2 (extractFromTab, lines 278-307). A text that [extractFromTab] returns
    is never empty, so [if (text)] in the callers tells a text from [null];
    and it is a text some poll of the call showed, as it is or followed by
    the note of the timed-out case. *)
Theorem returned_text_is_shown env target engine timeoutSec w text :
  fst (extractFromTab env target engine timeoutSec w) = Ok (Some text) ->
  text <> ""
  /\ exists shown,
       In (Returned (Some shown))
          (pollsOf (eventsSince w (snd (extractFromTab env target engine timeoutSec w))))
       /\ shown <> ""
       /\ (text = shown \/ text = shown +:+ INCOMPLETE_NOTE).
Proof.
  destruct (extractExit_runs env target engine timeoutSec w) as (e & w' & Hrun & _ & _ & _ & Hex).
  rewrite (extractFromTab_exit _ _ _ _ _ _ _ Hrun). cbn [fst snd]. intros [= Hret].
  destruct (extraction_replay _ _ _ _ _ Hex) as (out & Hr & [-> | [-> _]]); [|discriminate].
  destruct out as [t|l]; cbn [exitOf returned] in Hret.
  - injection Hret as <-. destruct (replay_stable_text _ _ _ _ _ Hr) as [Ht Hin].
    split; [exact Ht|]. exists t. auto.
  - destruct (0 <? String.length l)%nat eqn:Hl; [|discriminate].
    cbn [returned] in Hret. injection Hret as <-. apply length_pos_iff in Hl.
    split.
    + intros Hempty. apply (f_equal String.length) in Hempty.
      rewrite length_append in Hempty. destruct l; [congruence|discriminate].
    + destruct (replay_deadline_text _ _ _ _ _ Hr) as [->|[_ Hin]]; [congruence|].
      exists l. auto.
Qed.

Lemma returned_text_is_shown_witness :
  "Par" +:+ INCOMPLETE_NOTE <> ""
  /\ exists shown,
       In (Returned (Some shown))
          (pollsOf (eventsSince startWorld
             (snd (extractFromTab (browser changingPage) someTab someEngine 10 startWorld))))
       /\ shown <> ""
       /\ ("Par" +:+ INCOMPLETE_NOTE = shown \/ "Par" +:+ INCOMPLETE_NOTE = shown +:+ INCOMPLETE_NOTE).
Proof.
  apply (returned_text_is_shown (browser changingPage) someTab someEngine 10 startWorld).
  vm_compute. reflexivity.
Defined.

(** *** How many polls a stable text takes *)

Lemma showCount_cons v o polls :
  showCount v (o :: polls) = ((if shows v o then 1 else 0) + showCount v polls)%nat.
Proof. unfold showCount. cbn [List.filter]. destruct (shows v o); reflexivity. Qed.

Lemma shows_returned v : shows v (Returned (Some v)) = true.
Proof. unfold shows, textOf. rewrite orElse_empty. apply String.eqb_refl. Qed.

Lemma replay_stable_count polls : forall l s t rest (seenBefore : nat),
  replay polls l s = (Stabilized t, rest) ->
  0 <= s ->
  (l = t -> s + 1 <= Z.of_nat seenBefore) ->
  (4 <= seenBefore + showCount t polls)%nat.
Proof.
  induction polls as [|o polls IH]; intros l s t rest c Hr Hs Hc; [discriminate|].
  rewrite showCount_cons. destruct o as [v|]; cbn [replay] in Hr.
  - destruct (observe_cases (orElse v "") l s) as [(Ht&El&Hge&E)|[(Ht&El&Hlt&E)|[(Ht&Hne&E)|(Ht&E)]]];
      rewrite E in Hr.
    + injection Hr as <- _.
      rewrite (textOf_shown (Returned v) _ Ht eq_refl), shows_returned.
      specialize (Hc (eq_sym El)). unfold STABLE_CHECKS in Hge. lia.
    + destruct (string_dec l t) as [Elt|Nlt].
      * subst t. rewrite (textOf_shown (Returned v) _ Ht eq_refl), El, shows_returned.
        specialize (Hc eq_refl).
        pose proof (IH l (s + 1) l rest (S c) Hr ltac:(lia) ltac:(intros _; lia)). lia.
      * pose proof (IH l (s + 1) t rest c Hr ltac:(lia) ltac:(intros; contradiction)). lia.
    + destruct (string_dec (orElse v "") t) as [Evt|Nvt].
      * rewrite (textOf_shown (Returned v) _ Ht eq_refl), Evt, shows_returned.
        rewrite Evt in Hr.
        pose proof (IH t 0 t rest 1%nat Hr ltac:(lia) ltac:(intros _; lia)). lia.
      * pose proof (IH _ 0 t rest 0%nat Hr ltac:(lia) ltac:(intros; contradiction)). lia.
    + destruct (string_dec l t) as [Elt|Nlt].
      * subst t. destruct (Z.le_gt_cases 1 (Z.of_nat c)) as [Hc1|Hc0].
        -- pose proof (IH l 0 l rest c Hr ltac:(lia) ltac:(intros _; lia)). lia.
        -- (* nothing seen before: the text was empty from the start *)
           pose proof (IH l 0 l rest 1%nat Hr ltac:(lia) ltac:(intros _; lia)) as H.
           specialize (Hc eq_refl). lia.
      * pose proof (IH l 0 t rest c Hr ltac:(lia) ltac:(intros; contradiction)). lia.
  - destruct (shows t Rejected);
      pose proof (IH l s t rest c Hr Hs Hc); lia.
Qed.

(** X3 (extractFromTab, lines 280-285). A text returned by the stable case
    was shown by at least four polls of the call: the one that set
    [lastText] and the three that counted. *)
Theorem stable_text_took_four_polls env target engine timeoutSec w text :
  fst (extractExit env target engine timeoutSec w) = Ok (Stable text) ->
  (4 <= showCount text
          (pollsOf (eventsSince w (snd (extractExit env target engine timeoutSec w)))))%nat.
Proof.
  destruct (extractExit_runs env target engine timeoutSec w) as (e & w' & Hrun & _ & _ & _ & Hex).
  rewrite Hrun. cbn [fst snd]. intros [= ->].
  destruct (extraction_replay _ _ _ _ _ Hex) as (out & Hr & [He | [He _]]); [|discriminate].
  destruct out as [t|l]; cbn [exitOf] in He.
  - injection He as <-.
    destruct (replay_stable_text _ _ _ _ _ Hr) as [Ht _].
    apply (replay_stable_count _ "" 0 text [] 0%nat Hr); [lia|]. intros E. congruence.
  - destruct (0 <? String.length l)%nat; discriminate.
Qed.

Lemma stable_text_took_four_polls_witness :
  (4 <= showCount "Paris"
          (pollsOf (eventsSince startWorld
             (snd (extractExit (browser flakyPage) someTab someEngine 90 startWorld)))))%nat.
Proof.
  apply (stable_text_took_four_polls (browser flakyPage) someTab someEngine 90 startWorld).
  vm_compute. reflexivity.
Defined.

Lemma loopState_last polls : forall l s l' s',
  0 <= s < STABLE_CHECKS ->
  loopState polls l s = Some (l', s') ->
  0 <= s' < STABLE_CHECKS /\ l' = lastNonEmpty l polls.
Proof.
  induction polls as [|o polls IH]; intros l s l' s' Hs Hst.
  - injection Hst as <- <-. auto.
  - rewrite lastNonEmpty_cons. destruct o as [v|]; cbn [loopState] in Hst.
    + change (textOf (Returned v)) with (orElse v "").
      destruct (observe_cases (orElse v "") l s) as [(Ht&El&Hge&E)|[(Ht&El&Hlt&E)|[(Ht&Hne&E)|(Ht&E)]]];
        rewrite E in Hst; try discriminate.
      * rewrite (proj2 (length_pos_iff _) Ht), El. apply (IH l (s + 1)); [lia|exact Hst].
      * rewrite (proj2 (length_pos_iff _) Ht).
        apply (IH _ 0); [unfold STABLE_CHECKS; lia|exact Hst].
      * rewrite Ht. cbn [String.length Nat.ltb Nat.leb].
        apply (IH l 0); [unfold STABLE_CHECKS; lia|exact Hst].
    + cbn [textOf String.length Nat.ltb Nat.leb]. apply (IH l s); assumption.
Qed.

(** X4 (extractFromTab, lines 265-291). While the loop goes on, [stableCount]
    is 0, 1 or 2, and [lastText] is the last non-empty text a poll showed
    (empty if none did). *)
Theorem loop_variables polls lastText stableCount :
  loopState polls "" 0 = Some (lastText, stableCount) ->
  0 <= stableCount < STABLE_CHECKS /\ lastText = lastNonEmpty "" polls.
Proof. apply loopState_last. unfold STABLE_CHECKS. lia. Qed.

Lemma loop_variables_witness :
  0 <= 1 < STABLE_CHECKS
  /\ "Paris" = lastNonEmpty "" [Returned (Some "Par"); Returned (Some "Paris");
                                Returned None; Rejected; Returned (Some "Paris")].
Proof.
  apply (loop_variables [Returned (Some "Par"); Returned (Some "Paris");
                         Returned None; Rejected; Returned (Some "Paris")] "Paris" 1).
  reflexivity.
Defined.

(** ** More on slugify *)

Lemma clean_chars l : forall b, clean b l -> Forall (fun c => Js.isAlnum c = true \/ c = Js.hyphen) l.
Proof.
  induction l as [|c r IH]; intros b H; [constructor|].
  destruct H as [[Hc H]|(-> & _ & H)]; constructor; eauto.
Qed.

Lemma clean_no_pair l : forall b pre post,
  clean b l -> l <> (pre ++ Js.hyphen :: Js.hyphen :: post)%list.
Proof.
  induction l as [|c r IH]; intros b pre post H Heq.
  - destruct pre; discriminate.
  - destruct pre as [|p pre]; cbn [app] in Heq; injection Heq as -> ->.
    + destruct H as [[Hc _]|(_ & _ & H)]; [discriminate|].
      destruct H as [[Hc _]|(_ & Hb & _)]; discriminate.
    + destruct H as [[_ H]|(_ & _ & H)]; eapply IH; eauto.
Qed.

Lemma clean_head l : clean true l -> head l <> Some Js.hyphen.
Proof.
  destruct l as [|c r]; [discriminate|]. intros [[Hc _]|(_ & H & _)] [= ->]; discriminate.
Qed.

Lemma dropHyphens_length l : (length (Js.dropHyphens l) <= length l)%nat.
Proof.
  destruct (dropHyphens_suffix l) as [pre H]. rewrite H at 2. rewrite length_app. lia.
Qed.

Lemma dropTrailing_last l : Js.dropTrailingHyphens l = l -> last l <> Some Js.hyphen.
Proof.
  intros Hfix Hlast. destruct (list.last_Some l Js.hyphen) as [[l' ->] _]; [exact Hlast|].
  unfold Js.dropTrailingHyphens in Hfix. rewrite rev_app_distr in Hfix.
  change (rev [Js.hyphen] ++ rev l')%list with (Js.hyphen :: rev l') in Hfix.
  change (Js.dropHyphens (Js.hyphen :: rev l')) with (Js.dropHyphens (rev l')) in Hfix.
  apply (f_equal (@length ascii)) in Hfix. rewrite length_rev, length_app in Hfix.
  cbn [length] in Hfix.
  pose proof (dropHyphens_length (rev l')) as H. rewrite length_rev in H. lia.
Qed.

Lemma replaceRuns_length l : forall b, (length (Js.replaceRuns b l) <= length l)%nat.
Proof.
  induction l as [|c r IH]; intros b; [reflexivity|]. cbn [Js.replaceRuns].
  destruct (Js.isAlnum c); [cbn; specialize (IH false); lia|].
  destruct b; cbn; [specialize (IH true); lia|specialize (IH true); lia].
Qed.

Lemma slice0_length_le e l : (length (Js.slice0 e l) <= length l)%nat.
Proof. unfold Js.slice0. rewrite length_take. lia. Qed.

Lemma slugChars_length_le maxLen l : (length (slugChars maxLen l) <= length l)%nat.
Proof.
  unfold slugChars.
  pose proof (dropTrailing_length
    (Js.slice0 maxLen (Js.dropTrailingHyphens (Js.dropHyphens (Js.replaceRuns false (map Js.lowerChar l)))))).
  pose proof (slice0_length_le maxLen
    (Js.dropTrailingHyphens (Js.dropHyphens (Js.replaceRuns false (map Js.lowerChar l))))).
  pose proof (dropTrailing_length (Js.dropHyphens (Js.replaceRuns false (map Js.lowerChar l)))).
  pose proof (dropHyphens_length (Js.replaceRuns false (map Js.lowerChar l))).
  pose proof (replaceRuns_length (map Js.lowerChar l) false).
  rewrite length_map in *. lia.
Qed.

Lemma length_string_of_list l : String.length (string_of_list_ascii l) = length l.
Proof. induction l as [|c l IH]; [reflexivity|]. cbn. rewrite IH. reflexivity. Qed.

(** X5 (slugify, lines 246-253). A slug is folder-safe: it has only the
    characters a-z, 0-9 and the hyphen, no hyphen at its start or end, no
    two hyphens in a row, at most 60 characters, and no more characters than
    the query has once it is in lower case. *)
Theorem slug_is_folder_safe q :
  let s := list_ascii_of_string (slugify q) in
  Forall (fun c => Js.isAlnum c = true \/ c = Js.hyphen) s
  /\ head s <> Some Js.hyphen
  /\ last s <> Some Js.hyphen
  /\ (forall pre post, s <> (pre ++ Js.hyphen :: Js.hyphen :: post)%list)
  /\ (length s <= 60)%nat
  /\ (length s <= String.length (Js.toLowerCase q))%nat.
Proof.
  cbv zeta. unfold slugify, slugifyTo. rewrite list_ascii_of_string_of_list_ascii.
  destruct (slugChars_shape DEFAULT_MAX_LEN (list_ascii_of_string q)) as (Hc & Ht & Hl);
    [unfold DEFAULT_MAX_LEN; lia|].
  split; [exact (clean_chars _ _ Hc)|]. split; [exact (clean_head _ Hc)|].
  split; [exact (dropTrailing_last _ Ht)|].
  split; [intros pre post; exact (clean_no_pair _ _ pre post Hc)|].
  split; [assert (DEFAULT_MAX_LEN = 60) by reflexivity; lia|].
  pose proof (slugChars_length_le DEFAULT_MAX_LEN (list_ascii_of_string q)) as H.
  unfold Js.toLowerCase. rewrite length_string_of_list, length_map. exact H.
Qed.

Lemma slug_is_folder_safe_witness :
  slugify "What's new in C++ 23?" = "what-s-new-in-c-23"
  /\ (let s := list_ascii_of_string (slugify "What's new in C++ 23?") in
      Forall (fun c => Js.isAlnum c = true \/ c = Js.hyphen) s
      /\ head s <> Some Js.hyphen
      /\ last s <> Some Js.hyphen
      /\ (forall pre post, s <> (pre ++ Js.hyphen :: Js.hyphen :: post)%list)
      /\ (length s <= 60)%nat
      /\ (length s <= String.length (Js.toLowerCase "What's new in C++ 23?"))%nat).
Proof.
  split; [vm_compute; reflexivity|].
  exact (slug_is_folder_safe "What's new in C++ 23?").
Defined.

(** *** The empty slug *)

Lemma wordsFrom_started cur l : cur <> [] -> wordsFrom cur l <> [].
Proof.
  revert cur. induction l as [|c r IH]; intros cur Hne; cbn [wordsFrom].
  - destruct cur; [congruence|discriminate].
  - destruct (Js.isAlnum c); [apply IH; destruct cur; discriminate|].
    destruct cur; [congruence|discriminate].
Qed.

Lemma wordsFrom_none l :
  wordsFrom [] l = [] <-> Forall (fun c => Js.isAlnum c = false) l.
Proof.
  induction l as [|c r IH]; cbn [wordsFrom]; [split; constructor|].
  destruct (Js.isAlnum c) eqn:Hc.
  - split.
    + intros H. exfalso. exact (wordsFrom_started [c] r ltac:(discriminate) H).
    + intros H. inversion H; subst. congruence.
  - rewrite IH. split; [intros H; constructor; assumption|intros H; inversion H; assumption].
Qed.

Lemma wordsFrom_alnum l : forall cur,
  Forall (fun c => Js.isAlnum c = true) cur ->
  Forall (Forall (fun c => Js.isAlnum c = true)) (wordsFrom cur l).
Proof.
  induction l as [|c r IH]; intros cur Hcur; cbn [wordsFrom].
  - destruct cur; [constructor|]. constructor; [exact Hcur|constructor].
  - destruct (Js.isAlnum c) eqn:Hc.
    + apply IH. apply Forall_app. split; [exact Hcur|]. constructor; [exact Hc|constructor].
    + destruct cur; [apply IH; constructor|]. constructor; [exact Hcur|apply IH; constructor].
Qed.

Lemma dropTrailing_cons_alnum c x : Js.isAlnum c = true -> Js.dropTrailingHyphens (c :: x) <> [].
Proof.
  intros Hc. change (c :: x) with ([c] ++ x)%list. rewrite dropTrailing_app.
  destruct (Js.dropTrailingHyphens x); [|discriminate].
  rewrite (dropTrailing_word [c]); [discriminate|]. constructor; [exact Hc|constructor].
Qed.

Lemma slugChars_empty l :
  slugChars DEFAULT_MAX_LEN l = [] <-> Forall (fun c => Js.isAlnum (Js.lowerChar c) = false) l.
Proof.
  rewrite slugChars_words. rewrite <- (Forall_map Js.lowerChar (fun c => Js.isAlnum c = false)).
  rewrite <- wordsFrom_none.
  pose proof (wordsFrom_nonempty (map Js.lowerChar l) []) as Hne.
  pose proof (wordsFrom_alnum (map Js.lowerChar l) [] ltac:(constructor)) as Hal.
  destruct (wordsFrom [] (map Js.lowerChar l)) as [|w ws]; [split; reflexivity|].
  split; [|discriminate]. intros H. exfalso.
  inversion Hne as [|? ? Hw _]; subst. inversion Hal as [|? ? Hwa _]; subst.
  destruct w as [|c w]; [congruence|]. inversion Hwa as [|? ? Hc _]; subst.
  assert (Hj : exists x, joinWords ((c :: w) :: ws) = c :: x).
  { cbn [joinWords]. destruct ws; cbn; eauto. }
  destruct Hj as [x Hj]. rewrite Hj in H.
  unfold Js.slice0 in H. cbn [length] in H.
  replace (Z.to_nat _) with (S (Z.to_nat (Z.min 59 (Z.of_nat (length x))))) in H.
  - cbn [take] in H. exact (dropTrailing_cons_alnum c _ Hc H).
  - unfold DEFAULT_MAX_LEN. cbn [Z.ltb Z.compare]. lia.
Qed.

Lemma string_of_list_nil l : string_of_list_ascii l = "" <-> l = [].
Proof. destruct l; cbn; split; congruence. Qed.

(** X6 (slugify, lines 246-253; collectAll, lines 556-558). The slug is empty
    exactly when the query, once in lower case, has no character of a-z and
    0-9; the folder name of such a query is the stamp followed by a bare
    underscore. *)
Theorem empty_slug q :
  (slugify q = ""
   <-> Forall (fun c => Js.isAlnum c = false) (list_ascii_of_string (Js.toLowerCase q)))
  /\ (slugify q = "" -> forall d, folderNameOf d q = DateFmt.stamp d +:+ "_").
Proof.
  split.
  - unfold slugify, slugifyTo, Js.toLowerCase.
    rewrite string_of_list_nil, list_ascii_of_string_of_list_ascii, Forall_map.
    apply slugChars_empty.
  - intros H d. unfold folderNameOf. rewrite H. reflexivity.
Qed.

Lemma empty_slug_witness :
  slugify "?!" = ""
  /\ folderNameOf noonEarly "?!" = "2024-05-17T12-00-00_".
Proof.
  assert (H : slugify "?!" = "").
  { apply (proj1 (empty_slug "?!")). vm_compute. repeat constructor. }
  split; [exact H|].
  rewrite (proj2 (empty_slug "?!") H noonEarly). vm_compute. reflexivity.
Defined.

Lemma joinWords_clean ws :
  Forall (fun w => w <> []) ws ->
  Forall (Forall (fun c => Js.isAlnum c = true)) ws ->
  Js.dropTrailingHyphens (joinWords ws) = joinWords ws.
Proof.
  induction ws as [|w ws IH]; intros Hne Hal; [reflexivity|].
  inversion Hne as [|? ? Hw Hne']; subst. inversion Hal as [|? ? Hwa Hal']; subst.
  cbn [joinWords]. destruct ws as [|w' ws'] eqn:E; [apply dropTrailing_word, Hwa|].
  rewrite <- E in *.
  change (w ++ Js.hyphen :: joinWords ws)%list with (w ++ [Js.hyphen] ++ joinWords ws)%list.
  rewrite app_assoc, dropTrailing_app, (IH Hne' Hal').
  destruct (joinWords ws) eqn:Ej; [|reflexivity].
  apply joinWords_nil in Ej; [congruence|exact Hne'].
Qed.

Lemma slice0_shorter m n l :
  0 <= m <= n -> exists more, Js.slice0 n l = (Js.slice0 m l ++ more)%list.
Proof.
  intros Hmn. unfold Js.slice0.
  destruct (Z.ltb_spec m 0); [lia|]. destruct (Z.ltb_spec n 0); [lia|].
  set (a := Z.to_nat (Z.min m (Z.of_nat (length l)))).
  set (b := Z.to_nat (Z.min n (Z.of_nat (length l)))).
  assert (Hab : (a <= b)%nat) by (subst a b; lia).
  exists (drop a (take b l)).
  rewrite <- (take_drop a (take b l)) at 1. rewrite take_take.
  replace (a `min` b)%nat with a by lia. reflexivity.
Qed.

Lemma dropTrailing_shorter a more :
  exists rest,
    Js.dropTrailingHyphens (a ++ more)%list = (Js.dropTrailingHyphens a ++ rest)%list.
Proof.
  rewrite dropTrailing_app. destruct (Js.dropTrailingHyphens more) as [|c x].
  - exists []. rewrite app_nil_r. reflexivity.
  - destruct (dropTrailing_prefix a) as [t Ht].
    exists (t ++ c :: x)%list. rewrite app_assoc, <- Ht. reflexivity.
Qed.

(** X7 (slugify, lines 246-253). A shorter cut gives the start of what a
    longer cut gives: for 0 <= m <= n the slug cut at m is a prefix of the
    slug cut at n. So the slug, cut at 60, is the start of the slug under any
    longer cut. *)
Theorem slug_is_cut m n q :
  0 <= m <= n ->
  exists rest, slugifyTo n q = slugifyTo m q +:+ rest.
Proof.
  intros Hmn. unfold slugifyTo, slugChars.
  set (S := Js.dropTrailingHyphens (Js.dropHyphens _)).
  destruct (slice0_shorter m n S Hmn) as [more ->].
  destruct (dropTrailing_shorter (Js.slice0 m S) more) as [rest ->].
  exists (string_of_list_ascii rest). apply string_of_app.
Qed.

Lemma slug_is_cut_witness :
  slugifyTo 6 "Hello, World" = "hello"
  /\ slugify "Hello, World" = "hello-world"
  /\ exists rest, slugifyTo 60 "Hello, World" = slugifyTo 6 "Hello, World" +:+ rest.
Proof.
  split; [vm_compute; reflexivity|]. split; [vm_compute; reflexivity|].
  apply (slug_is_cut 6 60 "Hello, World"). lia.
Defined.

(** ** More on extractQuery *)

Lemma queryFromUrls_find env targets :
  queryFromUrls env targets = option_map (urlParam env) (List.find (carriesQuery env) targets).
Proof.
  induction targets as [|t rest IH]; [reflexivity|].
  cbn [queryFromUrls List.find]. rewrite IH.
  assert (Hcq : carriesQuery env t
                = String.eqb (tab_type t) "page" && (10 <? String.length (urlParam env t))%nat)
    by reflexivity.
  rewrite Hcq. clear Hcq.
  assert (Hp : urlParam env t = match searchParams env (tab_url t) with
                                | Some get => orElse (get "q") (orElse (get "prompt") "")
                                | None => ""
                                end) by reflexivity.
  destruct (String.eqb (tab_type t) "page"); cbn [negb andb]; [|reflexivity].
  rewrite Hp. destruct (searchParams env (tab_url t)) as [get|] eqn:E; [|reflexivity].
  destruct (10 <? String.length _)%nat; [|reflexivity].
  cbn [option_map]. rewrite Hp. reflexivity.
Qed.

(** X8 (extractQuery, lines 322-331). The query is the [q] parameter (else the
    [prompt] parameter) of the first page whose parameter has more than 10
    characters; when there is such a page the browser is not contacted. *)
Theorem query_from_first_url env targets t w :
  List.find (carriesQuery env) targets = Some t ->
  extractQuery env targets w = (Ok (urlParam env t), w)
  /\ tab_type t = "page"
  /\ (10 < String.length (urlParam env t))%nat.
Proof.
  intros Hfind. unfold extractQuery. rewrite queryFromUrls_find, Hfind. cbn [option_map].
  split; [reflexivity|].
  apply List.find_some in Hfind as [_ Hc]. unfold carriesQuery in Hc.
  apply andb_true_iff in Hc as [Hp Hl]. split; [apply String.eqb_eq, Hp|].
  apply Nat.ltb_lt, Hl.
Qed.

Lemma query_from_first_url_witness :
  extractQuery (browserAsked [claudeTab; searchTab] paramsOf titlePage)
               [claudeTab; searchTab] startWorld
  = (Ok "capital of France", startWorld).
Proof.
  exact (proj1 (query_from_first_url (browserAsked [claudeTab; searchTab] paramsOf titlePage)
                  [claudeTab; searchTab] searchTab startWorld eq_refl)).
Defined.

(** X9 (extractQuery, lines 322-355). [extractQuery] always returns a string:
    nothing is thrown, no file is touched, and the connection it may open to
    the Perplexity tab is closed again. *)
Theorem extractQuery_contained env targets w :
  exists q w',
    extractQuery env targets w = (Ok q, w')
    /\ files w' = files w
    /\ (sessionsOf (eventsSince w w') = []
        \/ (exists tab, sessionsOf (eventsSince w w') = [ConnectFailed tab])
        \/ exists tab client resolved,
             sessionsOf (eventsSince w w') = [Connected client tab; Closed client resolved]).
Proof.
  unfold extractQuery.
  destruct (queryFromUrls env targets) as [q|].
  { exists q, w. split; [reflexivity|]. split; [reflexivity|]. left.
    rewrite (eventsSince_app w w []) by (symmetry; apply app_nil_r). reflexivity. }
  destruct (List.find isPerplexitySearch targets) as [tab|].
  2:{ exists PLACEHOLDER_QUERY, w. split; [reflexivity|]. split; [reflexivity|]. left.
      rewrite (eventsSince_app w w []) by (symmetry; apply app_nil_r). reflexivity. }
  unfold cdpOpen. destruct (cdpConnect env (connections w)).
  2:{ eexists PLACEHOLDER_QUERY, _. split; [reflexivity|]. split; [reflexivity|].
      right. left. exists tab.
      rewrite (eventsSince_app w _ [ConnectFailed tab]) by reflexivity. reflexivity. }
  set (c := connections w).
  unfold bind, tryFinally, tryCatch, evaluate, closeQuietly, closeClient, ret.
  cbn [evaluations emit].
  destruct (fst (runtimeEvaluate env (evaluations w))) as [v|];
    destruct (clientClose env c);
    eexists _, _; (split; [reflexivity|]); (split; [reflexivity|]);
    right; right; exists tab, c; eexists;
    (erewrite eventsSince_app; [|cbn [trace emit]; rewrite <- !app_assoc; reflexivity]);
    reflexivity.
Qed.

(** *** The title of the Perplexity page *)

Lemma append_cons x a b : String x a +:+ b = String x (a +:+ b).
Proof. reflexivity. Qed.

Lemma append_assoc a b c : (a +:+ b) +:+ c = a +:+ (b +:+ c).
Proof. induction a as [|x a IH]; [reflexivity|]. rewrite !append_cons, IH. reflexivity. Qed.

Lemma append_nil_r a : a +:+ "" = a.
Proof. induction a as [|x a IH]; [reflexivity|]. rewrite append_cons, IH. reflexivity. Qed.

Lemma splitFrom_nonempty sep s : forall skip cur, Js.splitFrom sep skip cur s <> [].
Proof.
  induction s as [|c rest IH]; intros skip cur; cbn [Js.splitFrom]; [discriminate|].
  destruct skip; [|apply IH]. destruct (String.prefix sep (String c rest)); [discriminate|apply IH].
Qed.

Lemma join_cons sep p rest :
  rest <> [] -> Js.join sep (p :: rest) = p +:+ sep +:+ Js.join sep rest.
Proof. intros H. cbn [Js.join]. destruct rest; [congruence|reflexivity]. Qed.

Lemma prefix_drop p : forall s,
  String.prefix p s = true -> s = p +:+ dropChars (String.length p) s.
Proof.
  induction p as [|x p IH]; intros s H; [reflexivity|].
  destruct s as [|y s]; [discriminate|]. cbn [String.prefix] in H.
  destruct (ascii_dec x y) as [->|]; [|discriminate].
  cbn [String.length dropChars]. rewrite append_cons. f_equal. apply IH, H.
Qed.

(** Joining what [split] gives, gives the string back. *)
Lemma splitFrom_join sep : sep <> "" -> forall s skip cur,
  Js.join sep (Js.splitFrom sep skip cur s) = cur +:+ dropChars skip s.
Proof.
  intros Hsep. induction s as [|c rest IH]; intros skip cur.
  - cbn [Js.splitFrom Js.join]. destruct skip; cbn [dropChars]; rewrite append_nil_r; reflexivity.
  - cbn [Js.splitFrom]. destruct skip as [|k]; [|cbn [dropChars]; apply IH].
    cbn [dropChars]. destruct (String.prefix sep (String c rest)) eqn:Hp.
    + rewrite join_cons by apply splitFrom_nonempty. rewrite IH.
      change ("" +:+ dropChars (String.length sep - 1) rest)
        with (dropChars (String.length sep - 1) rest).
      f_equal. etransitivity; [|symmetry; apply (prefix_drop sep _ Hp)].
      destruct sep as [|x sep]; [congruence|]. cbn [String.length dropChars].
      replace (S (String.length sep) - 1)%nat with (String.length sep) by lia. reflexivity.
    + rewrite IH. rewrite append_assoc. reflexivity.
Qed.

Lemma split_join sep s : sep <> "" -> Js.join sep (Js.split sep s) = s.
Proof. intros Hsep. unfold Js.split. rewrite splitFrom_join by exact Hsep. reflexivity. Qed.

Lemma splitFrom_includes sep : sep <> "" -> forall s cur,
  Js.includes sep s = true ->
  exists p rest, Js.splitFrom sep 0 cur s = p :: rest /\ rest <> [].
Proof.
  intros Hsep. induction s as [|c r IH]; intros cur H.
  - cbn in H. destruct sep; [congruence|discriminate].
  - cbn [Js.includes] in H. cbn [Js.splitFrom].
    destruct (String.prefix sep (String c r)).
    + eexists _, _. split; [reflexivity|]. apply splitFrom_nonempty.
    + cbn [orb] in H. apply IH, H.
Qed.

Lemma join_snoc sep init l :
  init <> [] -> Js.join sep (init ++ [l])%list = Js.join sep init +:+ sep +:+ l.
Proof.
  induction init as [|p init IH]; intros Hne; [congruence|].
  destruct init as [|p' init'].
  - reflexivity.
  - change ((p :: p' :: init') ++ [l])%list with (p :: ((p' :: init') ++ [l]))%list.
    rewrite (join_cons sep p ((p' :: init') ++ [l])%list) by (intros E; simpl in E; discriminate E).
    rewrite IH by discriminate. rewrite (join_cons sep p (p' :: init')) by discriminate.
    rewrite !append_assoc. reflexivity.
Qed.

Lemma prefix_append sep a b : String.prefix sep a = true -> String.prefix sep (a +:+ b) = true.
Proof.
  revert a. induction sep as [|x sep IH]; intros a H; [destruct (a +:+ b); reflexivity|].
  destruct a as [|y a]; [discriminate|]. rewrite append_cons. cbn [String.prefix] in *.
  destruct (ascii_dec x y); [apply IH, H|discriminate].
Qed.

Lemma clearOf_snoc sep c rest cur :
  clearOf sep (cur +:+ String c "") rest
  = clearOf sep cur (String c rest) && negb (String.prefix sep (String c rest)).
Proof.
  induction cur as [|x cur IH].
  { change ("" +:+ String c "") with (String c ""). cbn [clearOf].
    change (String c "" +:+ rest) with (String c rest). rewrite andb_true_r. reflexivity. }
  rewrite append_cons. cbn [clearOf]. rewrite IH.
  rewrite <- append_cons, !append_assoc, andb_assoc. reflexivity.
Qed.

Lemma clearOf_includes sep cur s :
  sep <> "" -> clearOf sep cur s = true -> Js.includes sep cur = false.
Proof.
  intros Hsep. induction cur as [|x cur IH]; intros H.
  - destruct sep; [congruence|reflexivity].
  - cbn [clearOf] in H. apply andb_true_iff in H as [Hp Hc].
    cbn [Js.includes]. rewrite (IH Hc), orb_false_r.
    destruct (String.prefix sep (String x cur)) eqn:E; [|reflexivity].
    rewrite (prefix_append _ _ s E) in Hp. discriminate.
Qed.

(** No piece of a split has the separator in it. *)
Lemma splitFrom_pieces sep : sep <> "" -> forall s skip cur,
  skip = 0%nat \/ cur = "" ->
  clearOf sep cur s = true ->
  Forall (fun p => Js.includes sep p = false) (Js.splitFrom sep skip cur s).
Proof.
  intros Hsep. induction s as [|c rest IH]; intros skip cur Hskip Hclear.
  - cbn [Js.splitFrom]. constructor; [|constructor].
    apply (clearOf_includes sep cur "" Hsep Hclear).
  - cbn [Js.splitFrom]. destruct skip as [|k].
    + destruct (String.prefix sep (String c rest)) eqn:Hp.
      * constructor; [apply (clearOf_includes sep cur _ Hsep Hclear)|].
        apply IH; [right; reflexivity|reflexivity].
      * apply IH; [left; reflexivity|]. rewrite clearOf_snoc, Hclear, Hp. reflexivity.
    + destruct Hskip as [Hz|Hcur]; [discriminate|]. subst cur.
      apply IH; [right; reflexivity|reflexivity].
Qed.

Lemma split_pieces sep s :
  sep <> "" -> Forall (fun p => Js.includes sep p = false) (Js.split sep s).
Proof. intros Hsep. apply splitFrom_pieces; [exact Hsep|left; reflexivity|reflexivity]. Qed.

(** X10 (extractQuery, lines 345-349). For a title with " - " in it,
    [title.split(" - ")] gives some pieces and a last piece; the title is
    those pieces joined by " - ", then " - ", then the last piece, which has
    no " - " in it; and the query is the joined pieces, trimmed. A title
    without " - " is the query, trimmed, when it has more than 5 characters,
    and gives no query otherwise. *)
Theorem query_from_title title :
  (Js.includes " - " title = true ->
   exists parts site,
     Js.split " - " title = (parts ++ [site])%list
     /\ parts <> []
     /\ title = Js.join " - " parts +:+ " - " +:+ site
     /\ Js.includes " - " site = false
     /\ queryFromTitle title = Some (Js.trim (Js.join " - " parts)))
  /\ (Js.includes " - " title = false ->
      queryFromTitle title
      = if (5 <? String.length title)%nat then Some (Js.trim title) else None).
Proof.
  unfold queryFromTitle. split; intros H; rewrite H; [|reflexivity].
  destruct (splitFrom_includes " - " ltac:(discriminate) title "" H) as (p & rest & Hs & Hne).
  fold (Js.split " - " title) in Hs.
  assert (Hparts : exists init l, Js.split " - " title = (init ++ [l])%list /\ init <> []).
  { rewrite Hs. destruct (@exists_last _ rest Hne) as (r' & l & ->).
    exists (p :: r'), l. split; [reflexivity|discriminate]. }
  destruct Hparts as (init & l & Hsplit & Hinit).
  exists init, l. split; [exact Hsplit|]. split; [exact Hinit|]. split; [|split].
  - rewrite <- (join_snoc " - " init l Hinit), <- Hsplit. symmetry. apply split_join. discriminate.
  - pose proof (split_pieces " - " title ltac:(discriminate)) as Hall.
    rewrite Hsplit in Hall. apply Forall_app in Hall as [_ Hl].
    exact (Forall_inv Hl).
  - rewrite Hsplit, removelast_last. reflexivity.
Qed.

Lemma query_from_title_witness :
  queryFromTitle "Rust - The Book - Perplexity" = Some "Rust - The Book"
  /\ queryFromTitle "a - - b" = Some "a"
  /\ (exists parts site,
        Js.split " - " "Rust - The Book - Perplexity" = (parts ++ [site])%list
        /\ parts <> []
        /\ "Rust - The Book - Perplexity" = Js.join " - " parts +:+ " - " +:+ site
        /\ Js.includes " - " site = false
        /\ queryFromTitle "Rust - The Book - Perplexity"
           = Some (Js.trim (Js.join " - " parts)))
  /\ queryFromTitle "Paris"
     = if (5 <? String.length "Paris")%nat then Some (Js.trim "Paris") else None.
Proof.
  split; [vm_compute; reflexivity|]. split; [vm_compute; reflexivity|]. split.
  - apply (proj1 (query_from_title "Rust - The Book - Perplexity")). vm_compute. reflexivity.
  - apply (proj2 (query_from_title "Paris")). vm_compute. reflexivity.
Defined.

(** ** More on the pipeline *)

Lemma truthy_some text t : truthy text = Some t -> text = Some t /\ t <> "".
Proof.
  destruct text as [s|]; cbn; [|discriminate]. destruct s; cbn; [discriminate|].
  intros [= <-]. split; [reflexivity|discriminate].
Qed.

(** One engine, in full. *)
Lemma collectEngine_answers env targets promptDir query timeoutSec acc engine w :
  exists resp w' evs,
    collectEngine env targets promptDir query timeoutSec acc engine w
      = (Ok ((fst acc ++ [resp])%list,
             (snd acc ++ map (fileEntry promptDir) (List.filter isOk [resp]))%list), w')
    /\ trace w' = (trace w ++ evs)%list
    /\ progressOf evs = [engineDone resp]
    /\ synthesisCalls evs = []
    /\ madeDirs evs = []
    /\ now w <= now w'
    /\ (forall p, p <> engineFile promptDir engine -> files w' !! p = files w !! p)
    /\ answered env timeoutSec targets promptDir query (files w') engine resp.
Proof.
  unfold collectEngine, answered. destruct (findTab targets engine) as [tab|].
  - destruct (extractFromTab_effects env tab engine timeoutSec w)
      as (e & w1 & evs & _ & Hrun & Hf & Ht & Hev & Hk).
    unfold bind at 1. rewrite Hrun. unfold bind at 1. unfold newDate at 1.
    destruct (truthy (returned e)) as [t|] eqn:Htruthy.
    + apply truthy_some in Htruthy as [Hret Hne].
      exists (mkResponse (name engine) (slug engine) "ok"
                (Some (Z.of_nat (String.length t))) (Some (slug engine +:+ ".md"))).
      eexists _, (evs ++ [_])%list. split; [reflexivity|].
      cbn [trace files emit store now]. rewrite Ht, <- app_assoc.
      split; [reflexivity|]. split.
      { rewrite progressOf_app, (progressOf_browser _ Hev). reflexivity. }
      split.
      { rewrite synthesisCalls_app, (synthesisCalls_browser _ Hev). reflexivity. }
      split.
      { rewrite madeDirs_app, (madeDirs_browser _ Hev). reflexivity. }
      split; [exact Hk|].
      split.
      { intros p Hp. rewrite lookup_insert_ne by congruence. rewrite Hf. reflexivity. }
      split; [reflexivity|]. split; [reflexivity|]. left. split; [reflexivity|].
      exists (utc env (now w1)), t, w. rewrite Hrun. cbn [fst]. rewrite Hret.
      split; [reflexivity|]. split; [exact Hne|]. split; [reflexivity|].
      split; [reflexivity|]. apply lookup_insert_eq.
    + exists (mkResponse (name engine) (slug engine) "failed" None None).
      eexists _, (evs ++ [_])%list. cbn [List.filter isOk r_status map].
      change (String.eqb "failed" "ok") with false. cbv iota.
      split; [rewrite app_nil_r; reflexivity|].
      cbn [trace files emit store now]. rewrite Ht, <- app_assoc.
      split; [reflexivity|]. split.
      { rewrite progressOf_app, (progressOf_browser _ Hev). reflexivity. }
      split.
      { rewrite synthesisCalls_app, (synthesisCalls_browser _ Hev). reflexivity. }
      split.
      { rewrite madeDirs_app, (madeDirs_browser _ Hev). reflexivity. }
      split; [exact Hk|].
      split.
      { intros p Hp. rewrite lookup_insert_ne by congruence. rewrite Hf. reflexivity. }
      split; [reflexivity|]. split; [reflexivity|]. right.
      split; [reflexivity|]. split; [reflexivity|]. split; [reflexivity|].
      exists (utc env (now w1)), (returned e), w. rewrite Hrun.
      split; [reflexivity|]. split; [exact Htruthy|]. apply lookup_insert_eq.
  - exists (mkResponse (name engine) (slug engine) "no_tab" None None).
    eexists _, [_]. cbn [List.filter isOk r_status map].
    change (String.eqb "no_tab" "ok") with false. cbv iota.
    split; [rewrite app_nil_r; reflexivity|].
    cbn [trace files emit store now].
    split; [reflexivity|]. split; [reflexivity|]. split; [reflexivity|].
    split; [reflexivity|]. split; [lia|].
    split; [reflexivity|]. split; [reflexivity|]. split; [reflexivity|].
    split; [reflexivity|]. split; reflexivity.
Qed.

Lemma answered_later env timeoutSec targets promptDir query mid after e r :
  answered env timeoutSec targets promptDir query mid e r ->
  after !! engineFile promptDir e = mid !! engineFile promptDir e ->
  answered env timeoutSec targets promptDir query after e r.
Proof. unfold answered. intros H Heq. rewrite Heq. exact H. Qed.

Lemma collect_loop_answers env targets promptDir query timeoutSec : forall engines acc w,
  exists rs w' evs,
    forEach (collectEngine env targets promptDir query timeoutSec) engines acc w
      = (Ok ((fst acc ++ rs)%list,
             (snd acc ++ map (fileEntry promptDir) (List.filter isOk rs))%list), w')
    /\ trace w' = (trace w ++ evs)%list
    /\ progressOf evs = map engineDone rs
    /\ synthesisCalls evs = []
    /\ madeDirs evs = []
    /\ now w <= now w'
    /\ (forall p, (forall e, In e engines -> p <> engineFile promptDir e) ->
                  files w' !! p = files w !! p)
    /\ (NoDup (map slug engines) ->
        Forall2 (answered env timeoutSec targets promptDir query (files w')) engines rs).
Proof.
  induction engines as [|engine rest IH]; intros acc w.
  - exists [], w, []. cbn [List.filter map]. rewrite !app_nil_r. destruct acc. cbn.
    repeat split; try reflexivity; try lia. intros _. constructor.
  - destruct (collectEngine_answers env targets promptDir query timeoutSec acc engine w)
      as (resp & w1 & evs1 & Hrun & Ht1 & Hp1 & Hs1 & Hm1 & Hk1 & Hfr & Hans).
    destruct (IH ((fst acc ++ [resp])%list,
                  (snd acc ++ map (fileEntry promptDir) (List.filter isOk [resp]))%list) w1)
      as (rs & w' & evs & Hloop & Ht & Hp & Hs & Hm & Hk & Hfrs & Hanss).
    exists (resp :: rs), w', (evs1 ++ evs)%list.
    cbn [forEach]. unfold bind. rewrite Hrun, Hloop. cbn [fst snd].
    rewrite <- !app_assoc. split.
    { f_equal. f_equal. f_equal.
      change (resp :: rs) with ([resp] ++ rs)%list.
      rewrite List.filter_app, map_app. reflexivity. }
    split; [rewrite Ht, Ht1, <- app_assoc; reflexivity|].
    split; [rewrite progressOf_app, Hp1, Hp; reflexivity|].
    split; [rewrite synthesisCalls_app, Hs1, Hs; reflexivity|].
    split; [rewrite madeDirs_app, Hm1, Hm; reflexivity|].
    split; [lia|].
    split.
    + intros p Hpp. rewrite Hfrs, Hfr; [reflexivity| |].
      * apply Hpp. left. reflexivity.
      * intros e He. apply Hpp. right. exact He.
    + intros Hnd. cbn [map] in Hnd. apply NoDup_cons in Hnd as [Hnotin Hnd].
      constructor; [|exact (Hanss Hnd)].
      eapply answered_later; [exact Hans|]. apply Hfrs. intros e He Heq.
      apply engineFile_inj in Heq. apply Hnotin. apply list_elem_of_In.
      rewrite Heq. apply in_map. exact He.
Qed.

Lemma viewer_reports env dir q rs w :
  exists v w',
    tryCatch
      (do present <- existsSync (pathJoin dir "synthesis.md");
       do htmlPath <- generateViewer env dir q rs
                        (if present then Some (pathJoin dir "synthesis.md") else None);
       ret (Some "index.html"))
      (fun _ => ret None) w = (Ok v, w')
    /\ trace w' = trace w
    /\ now w' = now w
    /\ (forall p, p <> pathJoin dir "index.html" -> files w' !! p = files w !! p)
    /\ match renderViewer env dir q rs
               (match files w !! pathJoin dir "synthesis.md" with
                | Some _ => Some (pathJoin dir "synthesis.md")
                | None => None
                end) with
       | Some html => v = Some "index.html" /\ files w' !! pathJoin dir "index.html" = Some html
       | None => v = None /\ files w' = files w
       end.
Proof.
  unfold tryCatch, bind, existsSync, generateViewer, ret.
  assert (Hsame :
    (if match files w !! pathJoin dir "synthesis.md" with Some _ => true | None => false end
     then Some (pathJoin dir "synthesis.md") else None)
    = match files w !! pathJoin dir "synthesis.md" with
      | Some _ => Some (pathJoin dir "synthesis.md")
      | None => None
      end) by (destruct (files w !! pathJoin dir "synthesis.md"); reflexivity).
  rewrite Hsame.
  destruct (renderViewer env dir q rs _) as [html|].
  - eexists _, _. split; [reflexivity|]. cbn [trace files now store].
    split; [reflexivity|]. split; [reflexivity|]. split.
    + intros p Hp. apply lookup_insert_ne. congruence.
    + split; [reflexivity|]. apply lookup_insert_eq.
  - eexists _, _. split; [reflexivity|]. auto.
Qed.

Lemma collectAll_reports env opts w targets :
  cdpList env = Some targets ->
  exists r w', collectAll env opts w = (Ok r, w') /\ reported env opts targets w r w'.
Proof.
  intros Hlist. unfold collectAll.
  fold (timeoutOf opts). set (timeoutSec := timeoutOf opts).
  fold (synthesisWanted opts).
  rewrite (bind_ok _ _ w targets w) by (unfold listTabs; rewrite Hlist; reflexivity).
  destruct (extractQuery_effects env targets w) as (q & w1 & evs1 & Hq & Hf1 & Ht1 & Hev1 & Hk1).
  rewrite (bind_ok _ _ _ _ _ Hq).
  rewrite (bind_ok _ _ w1 (utc env (now w1)) w1) by reflexivity.
  set (fname := folderNameOf (utc env (now w1)) q).
  set (dir := pathJoin (OUTPUT_DIR env) fname).
  rewrite (bind_ok _ _ w1 tt (emit (MadeDir dir) w1)) by reflexivity.
  rewrite (bind_ok _ _ _ (utc env (now w1)) (emit (MadeDir dir) w1)) by reflexivity.
  set (w2 := store (pathJoin dir "prompt.md") (promptDoc q (utc env (now w1))) (emit (MadeDir dir) w1)).
  rewrite (bind_ok _ _ _ tt w2) by reflexivity.
  set (w3 := emit (Progress "started" (PStarted q (map name ENGINES))) w2).
  rewrite (bind_ok _ _ _ tt w3) by reflexivity.
  destruct (collect_loop_answers env targets dir q timeoutSec ENGINES ([], []) w3)
    as (rs & w4 & evs4 & Hloop & Ht4 & Hp4 & Hs4 & Hm4 & Hk4 & Hfr4 & Hans).
  cbn [fst snd app] in Hloop. rewrite (bind_ok _ _ _ _ _ Hloop). cbn [fst snd].
  specialize (Hans engine_slugs_apart).
  set (rfs := map (fileEntry dir) (List.filter isOk rs)) in *.
  assert (Hlens : length rfs = okCount rs) by (subst rfs; rewrite length_map; reflexivity).
  rewrite Hlens.
  assert (Hsynth : exists sp w5 evs5,
    (if synthesisWanted opts && (2 <=? okCount rs)%nat
     then
       (exec onProgress "synthesizing" PSynthesizing;
        exec synthesize env q rfs dir;
        do present <- existsSync (pathJoin dir "synthesis.md");
        ret (if present then Some (pathJoin dir "synthesis.md") else None))
     else ret None) w4 = (Ok sp, w5)
    /\ trace w5 = (trace w4 ++ evs5)%list
    /\ progressOf evs5 = (if synthesisWanted opts && (2 <=? okCount rs)%nat
                          then [("synthesizing", PSynthesizing)] else [])
    /\ synthesisCalls evs5 = (if synthesisWanted opts && (2 <=? okCount rs)%nat
                              then [(q, rfs)] else [])
    /\ (forall p, p <> pathJoin dir "synthesis.md" -> files w5 !! p = files w4 !! p)
    /\ madeDirs evs5 = []
    /\ now w4 <= now w5
    /\ (synthesisWanted opts && (2 <=? okCount rs)%nat = false ->
        sp = None /\ files w5 = files w4)
    /\ (synthesisWanted opts && (2 <=? okCount rs)%nat = true ->
        forall text, claude env q rfs = Some text ->
          sp = Some (pathJoin dir "synthesis.md")
          /\ exists d, files w5 !! pathJoin dir "synthesis.md"
                       = Some (synthesisDoc q d rfs text))).
  { destruct (synthesisWanted opts && (2 <=? okCount rs)%nat).
    - set (w4' := emit (Progress "synthesizing" PSynthesizing) w4).
      destruct (synthesize_runs env q rfs dir w4') as (w5 & Hsy & Ht5 & Hk5 & Hfr5 & Hdoc).
      rewrite (bind_ok _ _ _ tt w4') by reflexivity.
      rewrite (bind_ok _ _ _ _ _ Hsy).
      unfold bind, existsSync, ret.
      eexists _, w5, _. split; [reflexivity|].
      split; [rewrite Ht5; subst w4'; cbn [trace emit]; rewrite <- app_assoc; reflexivity|].
      split; [reflexivity|]. split; [reflexivity|]. split; [exact Hfr5|].
      split; [reflexivity|]. split; [rewrite Hk5; subst w4'; cbn [now emit]; lia|].
      split; [discriminate|].
      intros _ text Htext. rewrite (Hdoc text Htext). split; [reflexivity|]. eauto.
    - exists None, w4, []. rewrite app_nil_r.
      repeat split; try reflexivity; try lia; discriminate. }
  destruct Hsynth as (sp & w5 & evs5 & Hsy & Ht5 & Hp5 & Hs5 & Hfr5 & Hm5 & Hk5 & Hsp & Hdoc).
  rewrite (bind_ok _ _ _ _ _ Hsy).
  destruct (viewer_reports env dir q rs w5) as (v & w6 & Hv & Ht6 & Hk6 & Hfr6 & Hview).
  rewrite (bind_ok _ _ _ _ _ Hv).
  rewrite (bind_ok _ _ _ tt (emit (Progress "complete" (PComplete fname q rs)) w6)) by reflexivity.
  eexists _, _. split; [reflexivity|].
  assert (Htrace : eventsSince w (emit (Progress "complete" (PComplete fname q rs)) w6)
            = (evs1 ++ [MadeDir dir] ++ [Progress "started" (PStarted q (map name ENGINES))]
                 ++ evs4 ++ evs5 ++ [Progress "complete" (PComplete fname q rs)])%list).
  { unfold eventsSince. cbn [trace emit]. rewrite Ht6, Ht5, Ht4. subst w3 w2.
    cbn [trace emit store]. rewrite Ht1. rewrite <- !app_assoc.
    rewrite drop_app_length. reflexivity. }
  assert (Hsynthesis : files w6 !! pathJoin dir "synthesis.md"
                       = files w5 !! pathJoin dir "synthesis.md").
  { apply Hfr6. intros H. apply pathJoin_inj in H. discriminate. }
  assert (Hstamp : stampedAt env w = now w1).
  { unfold stampedAt. rewrite Hlist, Hq. reflexivity. }
  split; cbn [responses promptDir folderName query synthesisPath synthesisFile viewerFile
              files emit trace now].
  - rewrite Htrace, !progressOf_app, (progressOf_browser _ Hev1), Hp4, Hp5. reflexivity.
  - apply Forall2_same_length_lookup_2; [eapply Forall2_length; exact Hans|].
    intros i e r He Hr. eapply answered_later.
    + eapply Forall2_lookup_lr; [exact Hans|exact He|exact Hr].
    + assert (Hin : In e ENGINES) by (apply list_elem_of_In; eapply list_elem_of_lookup_2; exact He).
      destruct (engine_files_apart dir e Hin) as (_ & H2 & H3).
      rewrite Hfr6, Hfr5; [reflexivity|congruence|congruence].
  - rewrite Htrace, !synthesisCalls_app, (synthesisCalls_browser _ Hev1), Hs4, Hs5.
    cbn [synthesisCalls app]. rewrite app_nil_r. reflexivity.
  - intros Hoff. destruct (Hsp Hoff) as [-> Hsame]. split; [reflexivity|].
    split; [reflexivity|]. rewrite Hsynthesis, Hsame, Hfr4.
    + subst w3 w2. cbn [files emit store].
      rewrite lookup_insert_ne by (intros H; apply pathJoin_inj in H; discriminate).
      rewrite Hf1. reflexivity.
    + intros e He. destruct (engine_files_apart dir e He) as (_ & H2 & _). exact H2.
  - rewrite Hq. reflexivity.
  - rewrite Hstamp. reflexivity.
  - reflexivity.
  - rewrite Hstamp. split; [exact Hk1|]. rewrite Hk6.
    subst w3 w2. cbn [now emit store] in Hk4. lia.
  - rewrite Htrace, !madeDirs_app, (madeDirs_browser _ Hev1), Hm4, Hm5. reflexivity.
  - intros Hw text Htext. destruct (Hdoc Hw text Htext) as [-> [d Hd]].
    split; [reflexivity|]. exists d. rewrite Hsynthesis. exact Hd.
  - rewrite Hsynthesis.
    destruct (renderViewer env dir q rs _) as [html|].
    + exact Hview.
    + destruct Hview as [-> Hsame]. split; [reflexivity|].
      rewrite Hsame, Hfr5 by (intros H; apply pathJoin_inj in H; discriminate).
      rewrite Hfr4.
      * subst w3 w2. cbn [files emit store].
        rewrite lookup_insert_ne by (intros H; apply pathJoin_inj in H; discriminate).
        rewrite Hf1. reflexivity.
      * intros e He. destruct (engine_files_apart dir e He) as (_ & _ & H3). exact H3.
Qed.

Lemma collectAll_reported env opts w r w' :
  collectAll env opts w = (Ok r, w') ->
  exists targets, cdpList env = Some targets /\ reported env opts targets w r w'.
Proof.
  intros Hrun. destruct (cdpList env) as [targets|] eqn:Hlist.
  - destruct (collectAll_reports env opts w targets Hlist) as (r0 & w0 & Hrun0 & Hrep).
    rewrite Hrun in Hrun0. injection Hrun0 as <- <-. eauto.
  - rewrite (collectAll_refused env opts w Hlist) in Hrun. discriminate.
Qed.

(** ** main *)

Lemma collectedFrom_later env t targets dir q before mid after e s :
  collectedFrom env t targets dir q before mid e s ->
  after !! engineFile dir e = mid !! engineFile dir e ->
  collectedFrom env t targets dir q before after e s.
Proof. unfold collectedFrom. intros H Heq. rewrite Heq. exact H. Qed.

Lemma collectedFrom_earlier env t targets dir q before mid after e s :
  collectedFrom env t targets dir q mid after e s ->
  mid !! engineFile dir e = before !! engineFile dir e ->
  collectedFrom env t targets dir q before after e s.
Proof. unfold collectedFrom. intros H Heq. rewrite <- Heq. exact H. Qed.

Lemma collectedFrom_all_earlier env t targets dir q before mid after es ss :
  Forall2 (collectedFrom env t targets dir q mid after) es ss ->
  (forall e, In e es -> mid !! engineFile dir e = before !! engineFile dir e) ->
  Forall2 (collectedFrom env t targets dir q before after) es ss.
Proof.
  induction 1 as [|e s es ss Hone _ IH]; intros Hin; constructor.
  - eapply collectedFrom_earlier; [exact Hone|]. apply Hin. left. reflexivity.
  - apply IH. intros e' He'. apply Hin. right. exact He'.
Qed.

Lemma collectedFrom_all_later env t targets dir q before mid after es ss :
  Forall2 (collectedFrom env t targets dir q before mid) es ss ->
  (forall e, In e es -> after !! engineFile dir e = mid !! engineFile dir e) ->
  Forall2 (collectedFrom env t targets dir q before after) es ss.
Proof.
  induction 1 as [|e s es ss Hone _ IH]; intros Hin; constructor.
  - eapply collectedFrom_later; [exact Hone|]. apply Hin. left. reflexivity.
  - apply IH. intros e' He'. apply Hin. right. exact He'.
Qed.

(** One engine of [main]. *)
Lemma mainEngine_runs env targets dir q t rfs engine w :
  exists status w' evs,
    mainEngine env targets dir q t rfs engine w
      = (Ok (rfs ++ okFiles dir [engine] [status])%list, w')
    /\ trace w' = (trace w ++ evs)%list
    /\ Forall browserEvent evs
    /\ now w <= now w'
    /\ (forall p, p <> engineFile dir engine -> files w' !! p = files w !! p)
    /\ collectedFrom env t targets dir q (files w) (files w') engine status.
Proof.
  unfold mainEngine, collectedFrom. destruct (findTab targets engine) as [tab|].
  - destruct (extractFromTab_effects env tab engine t w)
      as (e & w1 & evs & _ & Hrun & Hf & Ht & Hev & Hk).
    unfold bind at 1. rewrite Hrun. unfold bind at 1. unfold newDate at 1.
    exists (engineStatus (returned e)). unfold engineStatus, engineText.
    destruct (truthy (returned e)) as [text|] eqn:Htruthy.
    + eexists _, evs. cbn [okFiles String.eqb Ascii.eqb Bool.eqb app].
      split; [reflexivity|]. cbn [trace files now store].
      split; [exact Ht|]. split; [exact Hev|]. split; [exact Hk|]. split.
      { intros p Hp. rewrite lookup_insert_ne by congruence. rewrite Hf. reflexivity. }
      exists (utc env (now w1)), (returned e), w. rewrite Hrun, Htruthy.
      split; [reflexivity|]. split; [reflexivity|]. apply lookup_insert_eq.
    + eexists _, evs. cbn [okFiles String.eqb Ascii.eqb Bool.eqb app]. rewrite app_nil_r.
      split; [reflexivity|]. cbn [trace files now store].
      split; [exact Ht|]. split; [exact Hev|]. split; [exact Hk|]. split.
      { intros p Hp. rewrite lookup_insert_ne by congruence. rewrite Hf. reflexivity. }
      exists (utc env (now w1)), (returned e), w. rewrite Hrun, Htruthy.
      split; [reflexivity|]. split; [reflexivity|]. apply lookup_insert_eq.
  - exists "no_tab", w, []. cbn [okFiles String.eqb Ascii.eqb Bool.eqb app].
    rewrite !app_nil_r. split; [reflexivity|]. split; [reflexivity|].
    split; [constructor|]. split; [lia|]. split; [reflexivity|]. split; reflexivity.
Qed.

Lemma okFiles_cons dir e es s ss :
  okFiles dir (e :: es) (s :: ss) = (okFiles dir [e] [s] ++ okFiles dir es ss)%list.
Proof. cbn [okFiles]. rewrite app_nil_r. reflexivity. Qed.

Lemma main_loop env targets dir q t : forall engines rfs w,
  exists statuses w' evs,
    forEach (mainEngine env targets dir q t) engines rfs w
      = (Ok (rfs ++ okFiles dir engines statuses)%list, w')
    /\ trace w' = (trace w ++ evs)%list
    /\ Forall browserEvent evs
    /\ now w <= now w'
    /\ (forall p, (forall e, In e engines -> p <> engineFile dir e) ->
                  files w' !! p = files w !! p)
    /\ (NoDup (map slug engines) ->
        Forall2 (collectedFrom env t targets dir q (files w) (files w')) engines statuses).
Proof.
  induction engines as [|engine rest IH]; intros rfs w.
  - exists [], w, []. cbn [okFiles forEach]. rewrite !app_nil_r.
    split; [reflexivity|]. split; [reflexivity|]. split; [constructor|].
    split; [lia|]. split; [reflexivity|]. intros _. constructor.
  - destruct (mainEngine_runs env targets dir q t rfs engine w)
      as (status & w1 & evs1 & Hrun & Ht1 & Hev1 & Hk1 & Hfr & Hone).
    destruct (IH (rfs ++ okFiles dir [engine] [status])%list w1)
      as (statuses & w' & evs & Hloop & Ht & Hev & Hk & Hfrs & Hall).
    exists (status :: statuses), w', (evs1 ++ evs)%list.
    cbn [forEach]. unfold bind.
    rewrite Hrun, Hloop, (okFiles_cons dir engine rest status statuses), <- app_assoc.
    split; [reflexivity|]. split; [rewrite Ht, Ht1, <- app_assoc; reflexivity|].
    split; [apply Forall_app; split; assumption|]. split; [lia|]. split.
    + intros p Hp. rewrite Hfrs, Hfr; [reflexivity| |].
      * apply Hp. left. reflexivity.
      * intros e He. apply Hp. right. exact He.
    + intros Hnd. cbn [map] in Hnd. apply NoDup_cons in Hnd as [Hnotin Hnd].
      constructor.
      * eapply collectedFrom_later; [exact Hone|]. apply Hfrs. intros e He Heq.
        apply engineFile_inj in Heq. apply Hnotin. apply list_elem_of_In.
        rewrite Heq. apply in_map. exact He.
      * apply (collectedFrom_all_earlier _ _ _ _ _ _ (files w1)); [exact (Hall Hnd)|].
        intros e He. apply Hfr. intros Heq.
        apply engineFile_inj in Heq. apply Hnotin. apply list_elem_of_In.
        rewrite <- Heq. apply in_map. exact He.
Qed.

Lemma viewerResponse_reads r w :
  (exists resp, viewerResponse r w = (Ok resp, w))
  \/ viewerResponse r w = (Thrown NoSuchFile, w).
Proof.
  unfold viewerResponse, bind, statSize, ret.
  destruct (files w !! rf_path r); [left; eexists|right]; reflexivity.
Qed.

Lemma viewerResponses_read rfs w :
  (exists rs, mapEach viewerResponse rfs w = (Ok rs, w))
  \/ (exists e, mapEach viewerResponse rfs w = (Thrown e, w)).
Proof.
  induction rfs as [|r rfs IH]; [left; exists []; reflexivity|].
  cbn [mapEach].
  destruct (viewerResponse_reads r w) as [[resp H]|H].
  - rewrite (bind_ok _ _ _ _ _ H).
    destruct IH as [[rs Hrs]|[e He]].
    + left. rewrite (bind_ok _ _ _ _ _ Hrs). eexists. reflexivity.
    + right. rewrite (bind_thrown _ _ _ _ _ He). eexists. reflexivity.
  - right. rewrite (bind_thrown _ _ _ _ _ H). eexists. reflexivity.
Qed.

Lemma main_viewer env dir q rfs w :
  exists w',
    tryCatch
      (let synthPath := pathJoin dir "synthesis.md" in
       do viewerResponses <- mapEach viewerResponse rfs;
       do present <- existsSync synthPath;
       do htmlPath <- generateViewer env dir q viewerResponses
                        (if present then Some synthPath else None);
       ret tt)
      (fun _ => ret tt) w = (Ok tt, w')
    /\ trace w' = trace w
    /\ now w' = now w
    /\ (forall p, p <> pathJoin dir "index.html" -> files w' !! p = files w !! p).
Proof.
  cbv zeta. unfold tryCatch, bind at 1.
  destruct (viewerResponses_read rfs w) as [[rs ->]|[e ->]].
  - unfold bind, existsSync, generateViewer, ret.
    destruct (renderViewer env dir q rs _) as [html|].
    + eexists. split; [reflexivity|]. cbn [trace now files store].
      split; [reflexivity|]. split; [reflexivity|].
      intros p Hp. apply lookup_insert_ne. congruence.
    + eexists. split; [reflexivity|]. auto.
  - eexists. split; [reflexivity|]. auto.
Qed.

Lemma main_runs env argv w targets :
  cdpList env = Some targets ->
  exists ended w' q statuses,
    main env argv w = (Ok ended, w')
    /\ mainReport env argv targets w ended w' q statuses.
Proof.
  intros Hlist. unfold main.
  set (t := secondsOf (cliTimeout (parseArgs argv))).
  rewrite (bind_ok _ _ w (Some targets) w)
    by (unfold tryCatch, bind, listTabs; rewrite Hlist; reflexivity).
  destruct (extractQuery_effects env targets w) as (q & w1 & evs1 & Hq & Hf1 & Ht1 & Hev1 & Hk1).
  rewrite (bind_ok _ _ _ _ _ Hq).
  rewrite (bind_ok _ _ w1 (utc env (now w1)) w1) by reflexivity.
  assert (Hstamp : stampedAt env w = now w1).
  { unfold stampedAt. rewrite Hlist, Hq. reflexivity. }
  set (dir := pathJoin (OUTPUT_DIR env) (folderNameOf (utc env (now w1)) q)).
  rewrite (bind_ok _ _ w1 tt (emit (MadeDir dir) w1)) by reflexivity.
  rewrite (bind_ok _ _ _ (utc env (now w1)) (emit (MadeDir dir) w1)) by reflexivity.
  set (w2 := store (pathJoin dir "prompt.md") (promptDoc q (utc env (now w1)))
                   (emit (MadeDir dir) w1)).
  rewrite (bind_ok _ _ _ tt w2) by reflexivity.
  destruct (main_loop env targets dir q t ENGINES [] w2)
    as (statuses & w3 & evs3 & Hloop & Ht3 & Hev3 & Hk3 & Hfr3 & Hall).
  cbn [app] in Hloop. rewrite (bind_ok _ _ _ _ _ Hloop).
  specialize (Hall engine_slugs_apart).
  remember (okFiles dir ENGINES statuses) as rfs eqn:Hrfs.
  assert (Hpre : forall e, In e ENGINES ->
            files w2 !! engineFile dir e = files w !! engineFile dir e).
  { intros e He. destruct (engine_files_apart dir e He) as (H1 & _ & _).
    subst w2. cbn [files emit store]. rewrite lookup_insert_ne by exact H1.
    rewrite Hf1. reflexivity. }
  assert (Hprompt : files w3 !! pathJoin dir "prompt.md" = Some (promptDoc q (utc env (now w1)))).
  { rewrite Hfr3.
    - subst w2. cbn [files emit store]. apply lookup_insert_eq.
    - intros e He. apply (engine_files_apart dir e He). }
  exists (if (length rfs =? 0)%nat then Exited 1 else Done).
  destruct (length rfs =? 0)%nat eqn:Hnone.
  - apply Nat.eqb_eq in Hnone. destruct rfs as [|rf rfs']; [|discriminate].
    assert (Htrace : eventsSince w w3 = (evs1 ++ [MadeDir dir] ++ evs3)%list).
    { apply eventsSince_app. rewrite Ht3. subst w2. cbn [trace emit store].
      rewrite Ht1, <- !app_assoc. reflexivity. }
    exists w3, q, statuses. split; [reflexivity|].
    split; rewrite ?Hstamp; fold dir; rewrite <- ?Hrfs.
    + rewrite Hq. reflexivity.
    + rewrite Htrace, !madeDirs_app, (madeDirs_browser _ Hev1), (madeDirs_browser _ Hev3).
      reflexivity.
    + eauto.
    + apply (collectedFrom_all_earlier _ _ _ _ _ _ (files w2)); [exact Hall|exact Hpre].
    + reflexivity.
    + rewrite Htrace, !synthesisCalls_app, (synthesisCalls_browser _ Hev1),
        (synthesisCalls_browser _ Hev3). reflexivity.
    + intros text Hne. congruence.
  - destruct (synthesize_runs env q rfs dir w3) as (w4 & Hsy & Ht4 & Hk4 & Hfr4 & Hdoc).
    rewrite (bind_ok _ _ _ _ _ Hsy).
    destruct (main_viewer env dir q rfs w4) as (w5 & Hv & Ht5 & Hk5 & Hfr5).
    rewrite (bind_ok _ _ _ _ _ Hv).
    assert (Htrace : eventsSince w w5
                     = (evs1 ++ [MadeDir dir] ++ evs3 ++ [SynthesisRun q rfs])%list).
    { apply eventsSince_app. rewrite Ht5, Ht4, Ht3. subst w2. cbn [trace emit store].
      rewrite Ht1, <- !app_assoc. reflexivity. }
    exists w5, q, statuses. split; [reflexivity|].
    split; rewrite ?Hstamp; fold dir; rewrite <- ?Hrfs.
    + rewrite Hq. reflexivity.
    + rewrite Htrace, !madeDirs_app, (madeDirs_browser _ Hev1), (madeDirs_browser _ Hev3).
      reflexivity.
    + exists (utc env (now w1)). rewrite Hfr5, Hfr4; [exact Hprompt| |];
        intros H; apply pathJoin_inj in H; discriminate.
    + apply (collectedFrom_all_later _ _ _ _ _ _ (files w3)).
      * apply (collectedFrom_all_earlier _ _ _ _ _ _ (files w2)); [exact Hall|exact Hpre].
      * intros e He. destruct (engine_files_apart dir e He) as (_ & H2 & H3).
        rewrite Hfr5, Hfr4; [reflexivity|congruence|congruence].
    + rewrite Hnone. reflexivity.
    + rewrite Htrace, !synthesisCalls_app,
        (synthesisCalls_browser _ Hev1), (synthesisCalls_browser _ Hev3).
      cbn [synthesisCalls app]. destruct rfs; [discriminate|reflexivity].
    + intros text _ Htext. eexists.
      rewrite Hfr5 by (intros H; apply pathJoin_inj in H; discriminate).
      apply (Hdoc text Htext).
Qed.

Lemma main_refused env argv w :
  cdpList env = None -> main env argv w = (Ok (Exited 1), w).
Proof.
  intros Hlist. unfold main, bind, tryCatch, listTabs. rewrite Hlist. reflexivity.
Qed.




(** ** Folder names *)

(** C8, as the code has it. The folder name of a run is the stamp of the
    instant at which [extractQuery] has returned, which is not before the
    start of the run, followed by the slug of the query; [collectAll]
    makes the directory of that name and [main], started in the same world,
    makes the same one. For two runs whose stamps are taken on the calendar,
    in the years 0000 to 9999: the folder names are equal exactly when the
    stamps fall in the same second and the queries have the same slug; the
    run stamped in the earlier second has the smaller folder name; and runs
    stamped in the same second are ordered as their slugs are. *)
Theorem folder_names_by_second :
  (forall env opts w targets,
      cdpList env = Some targets ->
      exists r w',
        collectAll env opts w = (Ok r, w')
        /\ folderName r = folderNameOf (utc env (stampedAt env w)) (query r)
        /\ promptDir r = pathJoin (OUTPUT_DIR env) (folderName r)
        /\ madeDirs (eventsSince w w') = [promptDir r]
        /\ now w <= stampedAt env w <= now w'
        /\ forall argv,
             exactTimeout argv ->
             exists ended w'',
               main env argv w = (Ok ended, w'')
               /\ madeDirs (eventsSince w w'') = [promptDir r])
  /\ (forall env1 opts1 w1 r1 w1' env2 opts2 w2 r2 w2',
         collectAll env1 opts1 w1 = (Ok r1, w1') ->
         collectAll env2 opts2 w2 = (Ok r2, w2') ->
         onCalendar env1 (stampedAt env1 w1) ->
         onCalendar env2 (stampedAt env2 w2) ->
         let s1 := stampedAt env1 w1 / 1000 in
         let s2 := stampedAt env2 w2 / 1000 in
         (folderName r1 = folderName r2
          <-> s1 = s2 /\ slugify (query r1) = slugify (query r2))
         /\ (s1 < s2 -> String.ltb (folderName r1) (folderName r2) = true)
         /\ (s1 = s2 ->
             String.compare (folderName r1) (folderName r2)
             = String.compare (slugify (query r1)) (slugify (query r2)))).
Proof.
  split.
  - intros env opts w targets Hlist.
    destruct (collectAll_reports env opts w targets Hlist) as (r & w' & Hrun & Hrep).
    exists r, w'. split; [exact Hrun|].
    split; [exact (rep_folder _ _ _ _ _ _ Hrep)|].
    split; [exact (rep_dir _ _ _ _ _ _ Hrep)|].
    split; [exact (rep_made _ _ _ _ _ _ Hrep)|].
    split; [exact (rep_clock _ _ _ _ _ _ Hrep)|].
    intros argv _.
    destruct (main_runs env argv w targets Hlist) as (ended & w'' & q & statuses & Hmain & Hm).
    exists ended, w''. split; [exact Hmain|].
    rewrite (main_made _ _ _ _ _ _ _ _ Hm), (rep_dir _ _ _ _ _ _ Hrep),
      (rep_folder _ _ _ _ _ _ Hrep).
    pose proof (main_query _ _ _ _ _ _ _ _ Hm) as Hq.
    rewrite (rep_query _ _ _ _ _ _ Hrep) in Hq. injection Hq as <-. reflexivity.
  - intros env1 opts1 w1 r1 w1' env2 opts2 w2 r2 w2' Hrun1 Hrun2
      (V1 & T1 & Y1) (V2 & T2 & Y2) s1 s2.
    destruct (collectAll_reported _ _ _ _ _ Hrun1) as (targets1 & _ & Hrep1).
    destruct (collectAll_reported _ _ _ _ _ Hrun2) as (targets2 & _ & Hrep2).
    rewrite (rep_folder _ _ _ _ _ _ Hrep1), (rep_folder _ _ _ _ _ _ Hrep2).
    pose proof (folderName_compare _ (query r1) _ (query r2) V1 V2 Y1 Y2) as Hcmp.
    unfold DateFmt.secondOf in Hcmp. rewrite T1, T2 in Hcmp. fold s1 s2 in Hcmp.
    split; [split|split].
    + intros Heq. rewrite Heq, compare_refl in Hcmp.
      destruct (Z.compare_spec s1 s2); try discriminate.
      split; [assumption|]. apply String.compare_eq_iff. symmetry. exact Hcmp.
    + intros [Hs Hq]. apply String.compare_eq_iff.
      rewrite Hcmp, Hs, Z.compare_refl, Hq. apply compare_refl.
    + intros Hlt. unfold String.ltb. rewrite Hcmp.
      rewrite (proj2 (Z.compare_lt_iff _ _) Hlt). reflexivity.
    + intros Hs. rewrite Hcmp, Hs, Z.compare_refl. reflexivity.
Qed.

Lemma folder_names_by_second_witness :
  (exists r w',
      collectAll (askedBrowser "zebra crossing rules" 0) defaults (worldAt noonEarly) = (Ok r, w')
      /\ folderName r = "2024-05-17T12-00-00_zebra-crossing-rules"
      /\ folderName r
         = folderNameOf (utc (askedBrowser "zebra crossing rules" 0)
                             (stampedAt (askedBrowser "zebra crossing rules" 0)
                                        (worldAt noonEarly)))
                        (query r)
      /\ promptDir r = pathJoin (OUTPUT_DIR (askedBrowser "zebra crossing rules" 0)) (folderName r)
      /\ madeDirs (eventsSince (worldAt noonEarly) w') = [promptDir r]
      /\ now (worldAt noonEarly)
         <= stampedAt (askedBrowser "zebra crossing rules" 0) (worldAt noonEarly) <= now w'
      /\ forall argv,
           exactTimeout argv ->
           exists ended w'',
             main (askedBrowser "zebra crossing rules" 0) argv (worldAt noonEarly) = (Ok ended, w'')
             /\ madeDirs (eventsSince (worldAt noonEarly) w'') = [promptDir r])
  /\ (exists r1 w1' r2 w2',
         collectAll (askedBrowser "zebra" 5000) defaults (worldAt noonEarly) = (Ok r1, w1')
         /\ collectAll (askedBrowser "apple pie recipes" 0) defaults (worldAt afterNoon)
            = (Ok r2, w2')
         /\ folderName r1 = "2024-05-17T12-00-05_zebra"
         /\ folderName r2 = "2024-05-17T12-00-01_apple-pie-recipes"
         /\ let s1 := stampedAt (askedBrowser "zebra" 5000) (worldAt noonEarly) / 1000 in
            let s2 := stampedAt (askedBrowser "apple pie recipes" 0) (worldAt afterNoon) / 1000 in
            (folderName r2 = folderName r1
             <-> s2 = s1 /\ slugify (query r2) = slugify (query r1))
            /\ (s2 < s1 -> String.ltb (folderName r2) (folderName r1) = true)
            /\ (s2 = s1 ->
                String.compare (folderName r2) (folderName r1)
                = String.compare (slugify (query r2)) (slugify (query r1)))).
Proof.
  split.
  - destruct (proj1 folder_names_by_second (askedBrowser "zebra crossing rules" 0) defaults
                (worldAt noonEarly) [searchPage "zebra crossing rules"] eq_refl)
      as (r & w' & Hrun & H).
    exists r, w'. split; [exact Hrun|]. split; [|exact H].
    assert (Hr : fst (collectAll (askedBrowser "zebra crossing rules" 0) defaults
                        (worldAt noonEarly)) = Ok r) by (rewrite Hrun; reflexivity).
    vm_compute in Hr. injection Hr as <-. reflexivity.
  - assert (Hrun1 : exists r1 w1',
              collectAll (askedBrowser "zebra" 5000) defaults (worldAt noonEarly) = (Ok r1, w1')).
    { destruct (proj1 folder_names_by_second (askedBrowser "zebra" 5000) defaults
                  (worldAt noonEarly) [searchPage "zebra"] eq_refl) as (r & w' & Hrun & _).
      eauto. }
    assert (Hrun2 : exists r2 w2',
              collectAll (askedBrowser "apple pie recipes" 0) defaults (worldAt afterNoon)
              = (Ok r2, w2')).
    { destruct (proj1 folder_names_by_second (askedBrowser "apple pie recipes" 0) defaults
                  (worldAt afterNoon) [searchPage "apple pie recipes"] eq_refl)
        as (r & w' & Hrun & _).
      eauto. }
    destruct Hrun1 as (r1 & w1' & Hrun1). destruct Hrun2 as (r2 & w2' & Hrun2).
    exists r1, w1', r2, w2'. split; [exact Hrun1|]. split; [exact Hrun2|].
    split.
    { assert (Hr : fst (collectAll (askedBrowser "zebra" 5000) defaults (worldAt noonEarly))
                   = Ok r1) by (rewrite Hrun1; reflexivity).
      vm_compute in Hr. injection Hr as <-. reflexivity. }
    split.
    { assert (Hr : fst (collectAll (askedBrowser "apple pie recipes" 0) defaults
                          (worldAt afterNoon)) = Ok r2) by (rewrite Hrun2; reflexivity).
      vm_compute in Hr. injection Hr as <-. reflexivity. }
    apply (proj2 folder_names_by_second _ _ _ _ _ _ _ _ _ _ Hrun2 Hrun1).
    + vm_compute. repeat split; congruence.
    + vm_compute. repeat split; congruence.
Defined.

(** Two runs started in the same second with queries of the same slug share
    a folder; two runs started in the same second are ordered by their
    slugs, not by their starts; and a run that starts earlier but spends five
    seconds on the title of the page gets the larger folder name. *)
Lemma same_second_same_folder :
  let early := collectAll (askedBrowser "zebra crossing rules" 0) defaults (worldAt noonEarly) in
  let late := collectAll (askedBrowser "apple pie recipes" 0) defaults (worldAt noonLate) in
  let again := collectAll (askedBrowser "Zebra crossing: rules?" 0) defaults (worldAt noonLate) in
  let slow := collectAll (askedBrowser "zebra" 5000) defaults (worldAt noonEarly) in
  now (worldAt noonEarly) < now (worldAt noonLate)
  /\ exists r1 r2 r3 r4,
       fst early = Ok r1 /\ fst late = Ok r2 /\ fst again = Ok r3 /\ fst slow = Ok r4
       /\ folderName r1 = "2024-05-17T12-00-00_zebra-crossing-rules"
       /\ folderName r2 = "2024-05-17T12-00-00_apple-pie-recipes"
       /\ folderName r3 = folderName r1
       /\ String.ltb (folderName r1) (folderName r2) = false
       /\ folderName r4 = "2024-05-17T12-00-05_zebra"
       /\ String.ltb (folderName r4) (folderName r2) = false.
Proof.
  cbv zeta. split; [vm_compute; reflexivity|].
  eexists _, _, _, _. vm_compute. repeat split; reflexivity.
Qed.

(** ** What the pipeline does, beyond the claims *)

(** X11 (synthesize, lines 361-410). [synthesize] never throws: it runs the
    process once, on the query and the files it was given; when the process
    prints a text the only file that changes is [synthesis.md] of the run
    directory, which becomes the synthesis document of that text, and when the
    process fails no file changes. *)
Theorem synthesize_contained env query rfs promptDir w :
  exists w',
    synthesize env query rfs promptDir w = (Ok tt, w')
    /\ eventsSince w w' = [SynthesisRun query rfs]
    /\ match claude env query rfs with
       | Some text =>
           exists d, files w' = <[pathJoin promptDir "synthesis.md" :=
                                   synthesisDoc query d rfs text]> (files w)
       | None => files w' = files w
       end.
Proof.
  unfold synthesize, tryCatch, bind, execClaude, newDate, writeFileSync, ret, eventsSince.
  destruct (claude env query rfs) as [text|].
  - eexists. split; [reflexivity|]. cbn [trace files now emit store].
    rewrite drop_app_length. split; [reflexivity|]. eexists. reflexivity.
  - eexists. split; [reflexivity|]. cbn [trace files now emit store].
    rewrite drop_app_length. split; reflexivity.
Qed.

(** X12 (collectAll, lines 548-640). With a file system that takes the writes
    and an [onProgress] that returns, the one way [collectAll] fails is the
    listing of the tabs: when the endpoint refuses, the error is thrown before
    anything is done, and when the tabs are listed the run returns a result,
    whatever the tabs, the pages, the synthesis process and the viewer do. *)
Theorem collectAll_outcome env opts w :
  match cdpList env with
  | None => collectAll env opts w = (Thrown ConnectionRefused, w)
  | Some _ => exists r w', collectAll env opts w = (Ok r, w')
  end.
Proof.
  destruct (cdpList env) as [targets|] eqn:Hlist.
  - destruct (collectAll_reports env opts w targets Hlist) as (r & w' & Hrun & _). eauto.
  - apply collectAll_refused, Hlist.
Qed.

(** X13 (collectAll, lines 550-622). With [doSynthesize: false] the synthesis
    process is not run, no "synthesizing" event is sent, the result has
    neither [synthesisPath] nor [synthesisFile], and [synthesis.md] of the run
    directory is what it was before the run. *)
Theorem synthesis_switched_off env opts w r w' :
  doSynthesize opts = Some false ->
  collectAll env opts w = (Ok r, w') ->
  synthesisCalls (eventsSince w w') = []
  /\ ~ In ("synthesizing", PSynthesizing) (progressOf (eventsSince w w'))
  /\ synthesisPath r = None /\ synthesisFile r = None
  /\ files w' !! pathJoin (promptDir r) "synthesis.md"
     = files w !! pathJoin (promptDir r) "synthesis.md".
Proof.
  intros Hoff Hrun. destruct (collectAll_reported _ _ _ _ _ Hrun) as (targets & _ & Hrep).
  assert (Hw : synthesisWanted opts && (2 <=? okCount (responses r))%nat = false).
  { unfold synthesisWanted. rewrite Hoff. reflexivity. }
  pose proof (rep_synthesis _ _ _ _ _ _ Hrep) as Hcalls.
  pose proof (rep_progress _ _ _ _ _ _ Hrep) as Hprog.
  rewrite Hw in Hcalls, Hprog. split; [exact Hcalls|]. split.
  - rewrite Hprog. cbn [app]. intros [H|H]; [discriminate|].
    apply in_app_or in H as [H|H].
    + apply in_map_iff in H as (resp & H & _). discriminate.
    + destruct H as [H|[]]. discriminate.
  - exact (rep_skipped _ _ _ _ _ _ Hrep Hw).
Qed.

Lemma synthesis_switched_off_witness :
  exists r w',
    collectAll threeTabs (within 10 (Some false)) startWorld = (Ok r, w')
    /\ map r_status (responses r) = ["ok"; "ok"; "no_tab"; "failed"]
    /\ (synthesisCalls (eventsSince startWorld w') = []
        /\ ~ In ("synthesizing", PSynthesizing) (progressOf (eventsSince startWorld w'))
        /\ synthesisPath r = None /\ synthesisFile r = None
        /\ files w' !! pathJoin (promptDir r) "synthesis.md"
           = files startWorld !! pathJoin (promptDir r) "synthesis.md").
Proof.
  assert (Hrun : exists r w',
            collectAll threeTabs (within 10 (Some false)) startWorld = (Ok r, w'))
    by (eexists _, _; vm_compute; reflexivity).
  destruct Hrun as (r & w' & Hrun). exists r, w'. split; [exact Hrun|]. split.
  - assert (Hr : fst (collectAll threeTabs (within 10 (Some false)) startWorld) = Ok r)
      by (rewrite Hrun; reflexivity).
    vm_compute in Hr. injection Hr as <-. reflexivity.
  - apply (synthesis_switched_off threeTabs (within 10 (Some false)) startWorld r w');
      [reflexivity|exact Hrun].
Defined.

(** X14 (collectAll, lines 570-638). The calls of [onProgress] of a run, in
    order: "started" with the query and the names of the engines, one
    "engine_done" per engine in the order of [ENGINES] with the status and the
    character count of its response (0 when it has none), "synthesizing" when
    synthesis is wanted and at least two responses are "ok", and "complete"
    with the folder name, the query and the responses, last. *)
Theorem progress_in_order env opts w r w' :
  collectAll env opts w = (Ok r, w') ->
  progressOf (eventsSince w w') =
  (("started", PStarted (query r) (map name ENGINES))
     :: map engineDone (responses r)
     ++ (if synthesisWanted opts && (2 <=? okCount (responses r))%nat
         then [("synthesizing", PSynthesizing)] else [])
     ++ [("complete", PComplete (folderName r) (query r) (responses r))])%list.
Proof.
  intros Hrun. destruct (collectAll_reported _ _ _ _ _ Hrun) as (targets & _ & Hrep).
  exact (rep_progress _ _ _ _ _ _ Hrep).
Qed.

Lemma progress_in_order_witness :
  exists r w',
    collectAll threeTabs (within 10 None) startWorld = (Ok r, w')
    /\ map r_status (responses r) = ["ok"; "ok"; "no_tab"; "failed"]
    /\ map r_chars (responses r) = [Some 5; Some 5; None; None]
    /\ map fst (progressOf (eventsSince startWorld w'))
       = ["started"; "engine_done"; "engine_done"; "engine_done"; "engine_done";
          "synthesizing"; "complete"]
    /\ progressOf (eventsSince startWorld w') =
       (("started", PStarted (query r) (map name ENGINES))
          :: map engineDone (responses r)
          ++ (if synthesisWanted (within 10 None) && (2 <=? okCount (responses r))%nat
              then [("synthesizing", PSynthesizing)] else [])
          ++ [("complete", PComplete (folderName r) (query r) (responses r))])%list.
Proof.
  assert (Hrun : exists r w',
            collectAll threeTabs (within 10 None) startWorld = (Ok r, w'))
    by (eexists _, _; vm_compute; reflexivity).
  destruct Hrun as (r & w' & Hrun). exists r, w'. split; [exact Hrun|].
  pose proof (progress_in_order threeTabs (within 10 None) startWorld r w' Hrun) as Hp.
  assert (Hr : fst (collectAll threeTabs (within 10 None) startWorld) = Ok r)
    by (rewrite Hrun; reflexivity).
  vm_compute in Hr. injection Hr as Hr. rewrite <- Hr in Hp |- *.
  split; [reflexivity|]. split; [reflexivity|]. split; [rewrite Hp; reflexivity|exact Hp].
Defined.



(** X16 (collectAll, lines 613-622). When the synthesis process is run, it is
    run once, on the query of the run and on the files of the engines whose
    status is "ok", in the order of [ENGINES]; it is run exactly when
    synthesis is wanted and at least two responses are "ok". *)
Theorem synthesis_reads_ok_files env opts w r w' :
  collectAll env opts w = (Ok r, w') ->
  synthesisCalls (eventsSince w w') =
  if synthesisWanted opts && (2 <=? okCount (responses r))%nat
  then [(query r, map (fileEntry (promptDir r)) (List.filter isOk (responses r)))]
  else [].
Proof.
  intros Hrun. destruct (collectAll_reported _ _ _ _ _ Hrun) as (targets & _ & Hrep).
  exact (rep_synthesis _ _ _ _ _ _ Hrep).
Qed.

Lemma synthesis_reads_ok_files_witness :
  exists r w',
    collectAll (studio [someTab; claudeTab] steadyPage "Both agree." "<html></html>")
               defaults startWorld = (Ok r, w')
    /\ map r_status (responses r) = ["ok"; "ok"; "no_tab"; "no_tab"]
    /\ synthesisCalls (eventsSince startWorld w') =
       if synthesisWanted defaults && (2 <=? okCount (responses r))%nat
       then [(query r, map (fileEntry (promptDir r)) (List.filter isOk (responses r)))]
       else [].
Proof.
  eexists _, _. split; [vm_compute; reflexivity|]. split; [vm_compute; reflexivity|].
  eapply (synthesis_reads_ok_files
            (studio [someTab; claudeTab] steadyPage "Both agree." "<html></html>")
            defaults startWorld).
  vm_compute. reflexivity.
Defined.

(** X17 (collectAll, lines 624-636). The viewer is rendered from the run
    directory, the query, the responses and the path of [synthesis.md] when
    that file exists at the end of the run. When it renders, [viewerFile] is
    "index.html" and the page is stored under that name in the run directory;
    when it throws, the run still returns, [viewerFile] is [null] and
    [index.html] is what it was before the run. *)
Theorem viewer_failure_is_contained env opts w r w' :
  collectAll env opts w = (Ok r, w') ->
  match renderViewer env (promptDir r) (query r) (responses r)
          (match files w' !! pathJoin (promptDir r) "synthesis.md" with
           | Some _ => Some (pathJoin (promptDir r) "synthesis.md")
           | None => None
           end) with
  | Some html =>
      viewerFile r = Some "index.html"
      /\ files w' !! pathJoin (promptDir r) "index.html" = Some html
  | None =>
      viewerFile r = None
      /\ files w' !! pathJoin (promptDir r) "index.html"
         = files w !! pathJoin (promptDir r) "index.html"
  end.
Proof.
  intros Hrun. destruct (collectAll_reported _ _ _ _ _ Hrun) as (targets & _ & Hrep).
  exact (rep_viewer _ _ _ _ _ _ Hrep).
Qed.

Lemma viewer_failure_is_contained_witness :
  exists r w',
    collectAll (browserWith [] mixedPage) defaults startWorld = (Ok r, w')
    /\ match renderViewer (browserWith [] mixedPage)
                 (promptDir r) (query r) (responses r)
                 (match files w' !! pathJoin (promptDir r) "synthesis.md" with
                  | Some _ => Some (pathJoin (promptDir r) "synthesis.md")
                  | None => None
                  end) with
       | Some html =>
           viewerFile r = Some "index.html"
           /\ files w' !! pathJoin (promptDir r) "index.html" = Some html
       | None =>
           viewerFile r = None
           /\ files w' !! pathJoin (promptDir r) "index.html"
              = files startWorld !! pathJoin (promptDir r) "index.html"
       end.
Proof.
  eexists _, _. split; [vm_compute; reflexivity|].
  eapply (viewer_failure_is_contained (browserWith [] mixedPage) defaults
            startWorld).
  vm_compute. reflexivity.
Defined.

(** X23 (collectAll, lines 549 and 587). [opts.timeout || DEFAULT_TIMEOUT]: a
    timeout of 0 is not "no waiting" but the default, so a run with timeout 0
    is the run without a timeout, which is the run with timeout 90. A negative
    timeout is passed on as it is: no engine is polled, so no response is
    "ok" (an engine with a tab is "failed") and the synthesis process is not
    run. *)
Theorem timeout_edge_cases env doSynthesize w :
  collectAll env (within 0 doSynthesize) w = collectAll env (mkOptions None doSynthesize) w
  /\ collectAll env (mkOptions None doSynthesize) w
     = collectAll env (within DEFAULT_TIMEOUT doSynthesize) w
  /\ forall t r w',
       t < 0 ->
       collectAll env (within t doSynthesize) w = (Ok r, w') ->
       Forall (fun resp => r_status resp = "no_tab" \/ r_status resp = "failed") (responses r)
       /\ synthesisCalls (eventsSince w w') = [].
Proof.
  split; [reflexivity|]. split; [reflexivity|].
  intros t r w' Ht Hrun.
  destruct (collectAll_reported _ _ _ _ _ Hrun) as (targets & _ & Hrep).
  pose proof (rep_answers _ _ _ _ _ _ Hrep) as Hans.
  assert (Htime : timeoutOf (within t doSynthesize) = t).
  { unfold timeoutOf, within. cbn [timeout]. destruct (Z.eqb_spec t 0); [lia|reflexivity]. }
  rewrite Htime in Hans.
  assert (Hst : Forall (fun resp => r_status resp = "no_tab" \/ r_status resp = "failed")
                       (responses r)).
  { clear -Hans Ht. induction Hans as [|e resp es rs (_ & _ & H) _ IH]; constructor; [|exact IH].
    destruct (findTab targets e) as [tab|]; [|left; apply H].
    destruct H as [(_ & d & text & w0 & Hret & _)|(H & _)]; [|right; exact H].
    rewrite (extractFromTab_no_time env tab e t w0) in Hret by lia. discriminate. }
  split; [exact Hst|].
  rewrite (rep_synthesis _ _ _ _ _ _ Hrep).
  assert (Hok : okCount (responses r) = 0%nat).
  { clear -Hst. unfold okCount. induction Hst as [|resp rs H _ IH]; [reflexivity|].
    cbn [List.filter]. destruct H as [-> | ->]; exact IH. }
  rewrite Hok, andb_false_r. reflexivity.
Qed.

Lemma timeout_edge_cases_witness :
  exists r w',
    collectAll (browserWith [someTab; claudeTab] steadyPage) (within (-5) None) startWorld
    = (Ok r, w')
    /\ map r_status (responses r) = ["failed"; "failed"; "no_tab"; "no_tab"]
    /\ (Forall (fun resp => r_status resp = "no_tab" \/ r_status resp = "failed") (responses r)
        /\ synthesisCalls (eventsSince startWorld w') = []).
Proof.
  eexists _, _. split; [vm_compute; reflexivity|]. split; [vm_compute; reflexivity|].
  eapply (proj2 (proj2 (timeout_edge_cases (browserWith [someTab; claudeTab] steadyPage)
                          None startWorld)) (-5)); [lia|vm_compute; reflexivity].
Defined.

(** * submit.js *)

Lemma clientsOf_app a b : clientsOf (a ++ b)%list = (clientsOf a ++ clientsOf b)%list.
Proof. induction a as [|[] a IH]; simpl; rewrite ?IH; reflexivity. Qed.

Lemma evaluatorsOf_app a b :
  evaluatorsOf (a ++ b)%list = (evaluatorsOf a ++ evaluatorsOf b)%list.
Proof. induction a as [|[] a IH]; simpl; rewrite ?IH; reflexivity. Qed.

Lemma sleepsOf_app a b : sleepsOf (a ++ b)%list = (sleepsOf a ++ sleepsOf b)%list.
Proof. induction a as [|[] a IH]; simpl; rewrite ?IH; reflexivity. Qed.

Lemma closedInTurn_app_upto n : forall a b,
  (length a <= n)%nat ->
  closedInTurn a = true -> closedInTurn b = true -> closedInTurn (a ++ b)%list = true.
Proof.
  induction n as [|n IH]; intros a b Hn Ha Hb.
  - destruct a; [exact Hb|cbn in Hn; lia].
  - destruct a as [|e a]; [exact Hb|].
    destruct e; cbn in Ha; try discriminate.
    + destruct a as [|e' a]; [discriminate|]. destruct e'; try discriminate.
      apply andb_true_iff in Ha as [Hc Ha]. cbn. rewrite Hc. cbn.
      apply IH; [cbn in Hn; lia|exact Ha|exact Hb].
    + cbn. apply IH; [cbn in Hn; lia|exact Ha|exact Hb].
Qed.

Lemma closedInTurn_app a b :
  closedInTurn a = true -> closedInTurn b = true -> closedInTurn (a ++ b)%list = true.
Proof. apply (closedInTurn_app_upto (length a)). lia. Qed.

Lemma orElse_nonempty value fallback : fallback <> "" -> orElse value fallback <> "".
Proof.
  intros Hf. unfold orElse. destruct value as [s|]; [|exact Hf].
  destruct s; cbn; [exact Hf|discriminate].
Qed.

(** One submitter. *)
Lemma submitOne_runs env targets results sub w :
  exists entry w' evs,
    Submit.submitOne env targets results sub w = (Ok (results ++ [entry])%list, w')
    /\ trace w' = (trace w ++ evs)%list
    /\ files w' = files w
    /\ submitted targets sub entry
    /\ closedInTurn (sessionsOf evs) = true
    /\ evaluatorsOf evs = clientsOf evs
    /\ sleepsOf evs = []
    /\ progressOf evs = [] /\ synthesisCalls evs = []
    /\ (length (clientsOf evs) <= 1)%nat.
Proof.
  unfold Submit.submitOne, submitted. destruct (Submit.findTab targets sub) as [tab|].
  - unfold cdpOpen. destruct (cdpConnect env (connections w)).
    + unfold tryFinally, tryCatch, bind, evaluate, closeQuietly, closeClient, ret.
      cbn [evaluations connections now files trace emit].
      destruct (fst (runtimeEvaluate env (evaluations w))) as [v|];
        destruct (clientClose env (connections w));
        (eexists _, _, [_; _; _]; split; [reflexivity|];
         cbn [trace files emit]; rewrite <- ?app_assoc;
         split; [reflexivity|]; split; [reflexivity|];
         split; [split; [reflexivity|]|
                 cbn; rewrite ?Nat.eqb_refl; repeat split; reflexivity || lia]).
      * left. split; [reflexivity|]. eexists. split; [|reflexivity].
        apply orElse_nonempty. discriminate.
      * left. split; [reflexivity|]. eexists. split; [|reflexivity].
        apply orElse_nonempty. discriminate.
      * right. split; [reflexivity|]. eexists. reflexivity.
      * right. split; [reflexivity|]. eexists. reflexivity.
    + eexists _, _, [_]. split; [reflexivity|]. cbn [trace files emit].
      split; [reflexivity|]. split; [reflexivity|]. split.
      * split; [reflexivity|]. right. split; [reflexivity|]. eexists. reflexivity.
      * cbn. repeat split; reflexivity || lia.
  - eexists _, w, []. rewrite app_nil_r. split; [reflexivity|].
    split; [reflexivity|]. split; [reflexivity|]. split.
    + split; [reflexivity|]. split; reflexivity.
    + cbn. repeat split; reflexivity || lia.
Qed.

Lemma submit_loop env targets : forall subs results w,
  exists entries w' evs,
    forEach (Submit.submitOne env targets) subs results w = (Ok (results ++ entries)%list, w')
    /\ trace w' = (trace w ++ evs)%list
    /\ files w' = files w
    /\ Forall2 (submitted targets) subs entries
    /\ closedInTurn (sessionsOf evs) = true
    /\ evaluatorsOf evs = clientsOf evs
    /\ sleepsOf evs = []
    /\ progressOf evs = [] /\ synthesisCalls evs = []
    /\ (length (clientsOf evs) <= length subs)%nat.
Proof.
  induction subs as [|sub rest IH]; intros results w.
  - exists [], w, []. rewrite !app_nil_r. cbn. repeat split; try reflexivity; try lia.
    constructor.
  - destruct (submitOne_runs env targets results sub w)
      as (entry & w1 & evs1 & Hrun & Ht1 & Hf1 & Hsub & Hc1 & He1 & Hsl1 & Hp1 & Hs1 & Hn1).
    destruct (IH (results ++ [entry])%list w1)
      as (entries & w' & evs & Hloop & Ht & Hf & Hsubs & Hc & He & Hsl & Hp & Hs & Hn).
    exists (entry :: entries), w', (evs1 ++ evs)%list.
    cbn [forEach]. unfold bind. rewrite Hrun, Hloop, <- app_assoc.
    split; [reflexivity|]. split; [rewrite Ht, Ht1, <- app_assoc; reflexivity|].
    split; [congruence|]. split; [constructor; assumption|].
    rewrite sessionsOf_app, evaluatorsOf_app, clientsOf_app, sleepsOf_app,
      progressOf_app, synthesisCalls_app, He1, He, Hsl1, Hsl, Hp1, Hp, Hs1, Hs.
    split; [apply closedInTurn_app; assumption|].
    repeat split. rewrite length_app. cbn [length]. lia.
Qed.


(** X19 (submitAll, submit.js lines 136-150). The tabs are handled one after
    the other: a client that was opened is closed before the next connection
    is made, also when the script or the [close] itself fails. A client
    evaluates one script, no more; nothing waits, nothing is reported through
    [onProgress], and at most one client per submitter is opened. *)
Theorem submitAll_sessions env w :
  let evs := eventsSince w (snd (Submit.submitAll env w)) in
  closedInTurn (sessionsOf evs) = true
  /\ evaluatorsOf evs = clientsOf evs
  /\ sleepsOf evs = []
  /\ progressOf evs = []
  /\ (length (clientsOf evs) <= length Submit.SUBMITTERS)%nat.
Proof.
  cbv zeta. unfold Submit.submitAll, listTabs, bind.
  destruct (cdpList env) as [targets|].
  - destruct (submit_loop env targets Submit.SUBMITTERS [] w)
      as (entries & w' & evs & Hloop & Ht & _ & _ & Hc & He & Hsl & Hp & _ & Hn).
    rewrite Hloop. cbn [snd]. rewrite (eventsSince_app _ _ _ Ht). repeat split; assumption.
  - cbn [snd]. unfold eventsSince. rewrite drop_all. cbn. repeat split; lia.
Qed.

(** X20 (SUBMITTERS of submit.js, ENGINES of collect.js). Every submitter is
    an engine of the collector under the same name, and both pick the same tab
    from any list of tabs: the tab whose button [submitAll] clicks is the tab
    [collectAll] reads. Perplexity is the one engine without a submitter. *)
Theorem submitters_are_engines :
  Forall (fun sub =>
            exists e, In e ENGINES /\ name e = Submit.name sub
                      /\ forall targets, findTab targets e = Submit.findTab targets sub)
         Submit.SUBMITTERS
  /\ List.filter (fun e => negb (existsb (fun sub => String.eqb (Submit.name sub) (name e))
                                         Submit.SUBMITTERS)) ENGINES
     = List.filter (fun e => String.eqb (name e) "Perplexity") ENGINES.
Proof.
  split; [|reflexivity].
  repeat constructor.
  - exists (mkEngine "ChatGPT" "chatgpt" (Js.includes "chatgpt.com")
                     "(() => { /* ChatGPT selectors */ })()").
    split; [cbn; tauto|]. split; reflexivity.
  - exists (mkEngine "Google AI Studio" "google-ai-studio" (Js.includes "aistudio.google.com")
                     "(() => { /* Google AI Studio selectors */ })()").
    split; [cbn; tauto|]. split; reflexivity.
  - exists (mkEngine "Claude" "claude" (Js.includes "claude.ai")
                     "(() => { /* Claude selectors */ })()").
    split; [cbn; tauto|]. split; reflexivity.
Qed.

(** * viewer.js *)

Lemma replaceAll_app c rep a b :
  Viewer.replaceAll c rep (a +:+ b) = Viewer.replaceAll c rep a +:+ Viewer.replaceAll c rep b.
Proof.
  induction a as [|x a IH]; [reflexivity|].
  rewrite append_cons. cbn [Viewer.replaceAll]. rewrite IH.
  destruct (Ascii.eqb x c); [rewrite append_assoc; reflexivity|rewrite append_cons; reflexivity].
Qed.

Lemma escapeHtml_app a b :
  Viewer.escapeHtml (a +:+ b) = Viewer.escapeHtml a +:+ Viewer.escapeHtml b.
Proof. unfold Viewer.escapeHtml. rewrite !replaceAll_app. reflexivity. Qed.

Lemma escapeHtml_char c : Viewer.escapeHtml (String c "") = escapeChar c.
Proof.
  unfold escapeChar.
  destruct (Ascii.eqb_spec c Viewer.amp) as [->|Hamp]; [reflexivity|].
  destruct (Ascii.eqb_spec c Viewer.lt) as [->|Hlt]; [reflexivity|].
  destruct (Ascii.eqb_spec c Viewer.gt) as [->|Hgt]; [reflexivity|].
  destruct (Ascii.eqb_spec c Viewer.quot) as [->|Hquot]; [reflexivity|].
  apply Ascii.eqb_neq in Hamp, Hlt, Hgt, Hquot.
  unfold Viewer.escapeHtml. cbn [Viewer.replaceAll].
  rewrite Hamp. cbn [Viewer.replaceAll]. rewrite Hlt. cbn [Viewer.replaceAll].
  rewrite Hgt. cbn [Viewer.replaceAll]. rewrite Hquot. reflexivity.
Qed.

Lemma escapeHtml_cons c text :
  Viewer.escapeHtml (String c text) = escapeChar c +:+ Viewer.escapeHtml text.
Proof.
  change (String c text) with (String c "" +:+ text).
  rewrite escapeHtml_app, escapeHtml_char. reflexivity.
Qed.

Lemma occurs_app c a b : occurs c (a +:+ b) = occurs c a || occurs c b.
Proof.
  induction a as [|x a IH]; [reflexivity|].
  rewrite append_cons. cbn [occurs]. rewrite IH, orb_assoc. reflexivity.
Qed.

Lemma escapeChar_clean c :
  occurs Viewer.lt (escapeChar c) = false
  /\ occurs Viewer.gt (escapeChar c) = false
  /\ occurs Viewer.quot (escapeChar c) = false.
Proof.
  unfold escapeChar.
  destruct (Ascii.eqb_spec c Viewer.amp) as [->|Hamp]; [repeat split; reflexivity|].
  destruct (Ascii.eqb_spec c Viewer.lt) as [->|Hlt]; [repeat split; reflexivity|].
  destruct (Ascii.eqb_spec c Viewer.gt) as [->|Hgt]; [repeat split; reflexivity|].
  destruct (Ascii.eqb_spec c Viewer.quot) as [->|Hquot]; [repeat split; reflexivity|].
  apply Ascii.eqb_neq in Hlt, Hgt, Hquot. cbn [occurs]. rewrite Hlt, Hgt, Hquot.
  repeat split; reflexivity.
Qed.

(** The characters an escaped character starts with. *)
Lemma escapeChar_head c :
  (c = Viewer.amp /\ escapeChar c = "&amp;")
  \/ (c = Viewer.lt /\ escapeChar c = "&lt;")
  \/ (c = Viewer.gt /\ escapeChar c = "&gt;")
  \/ (c = Viewer.quot /\ escapeChar c = "&quot;")
  \/ (c <> Viewer.amp /\ escapeChar c = String c "").
Proof.
  unfold escapeChar.
  destruct (Ascii.eqb_spec c Viewer.amp) as [->|Hamp]; [left; split; reflexivity|].
  destruct (Ascii.eqb_spec c Viewer.lt) as [->|Hlt]; [right; left; split; reflexivity|].
  destruct (Ascii.eqb_spec c Viewer.gt) as [->|Hgt]; [right; right; left; split; reflexivity|].
  destruct (Ascii.eqb_spec c Viewer.quot) as [->|Hquot];
    [right; right; right; left; split; reflexivity|].
  right; right; right; right. split; [exact Hamp|reflexivity].
Qed.

Lemma escapeChar_nonempty c : escapeChar c <> "".
Proof.
  destruct (escapeChar_head c) as [[_ ->]|[[_ ->]|[[_ ->]|[[_ ->]|[_ ->]]]]]; discriminate.
Qed.

(** X21 (escapeHtml, viewer.js lines 143-149). The four replacements
    together are one pass over the text in which [&], [<], [>] and the double
    quote become their entities and every other character stays: a later
    replacement does not touch what an earlier one wrote. Hence escaping goes
    through concatenation, and the escaped text has no [<], no [>] and no
    double quote. *)
Theorem escapeHtml_one_pass text :
  Viewer.escapeHtml text = escapeOnce text
  /\ (forall more, Viewer.escapeHtml (text +:+ more)
                   = Viewer.escapeHtml text +:+ Viewer.escapeHtml more)
  /\ occurs Viewer.lt (Viewer.escapeHtml text) = false
  /\ occurs Viewer.gt (Viewer.escapeHtml text) = false
  /\ occurs Viewer.quot (Viewer.escapeHtml text) = false.
Proof.
  split; [|split; [intros more; apply escapeHtml_app|]].
  - induction text as [|c text IH]; [reflexivity|].
    rewrite escapeHtml_cons, IH. reflexivity.
  - induction text as [|c text IH]; [repeat split; reflexivity|].
    rewrite escapeHtml_cons, !occurs_app.
    destruct (escapeChar_clean c) as (-> & -> & ->). exact IH.
Qed.

(** X22 (escapeHtml, viewer.js lines 143-149). Escaping loses nothing: two
    texts with the same escaped text are the same text. *)
Theorem escapeHtml_injective a b :
  Viewer.escapeHtml a = Viewer.escapeHtml b -> a = b.
Proof.
  revert b. induction a as [|c a IH]; intros b H.
  - destruct b as [|d b]; [reflexivity|]. rewrite escapeHtml_cons in H.
    change (Viewer.escapeHtml "") with "" in H.
    destruct (escapeChar_head d) as [[_ E]|[[_ E]|[[_ E]|[[_ E]|[_ E]]]]];
      rewrite E in H; discriminate.
  - destruct b as [|d b].
    + rewrite escapeHtml_cons in H. change (Viewer.escapeHtml "") with "" in H.
      destruct (escapeChar_head c) as [[_ E]|[[_ E]|[[_ E]|[[_ E]|[_ E]]]]];
        rewrite E in H; discriminate.
    + rewrite !escapeHtml_cons in H.
      destruct (escapeChar_head c) as [[Hc E]|[[Hc E]|[[Hc E]|[[Hc E]|[Hc E]]]]];
        destruct (escapeChar_head d) as [[Hd E']|[[Hd E']|[[Hd E']|[[Hd E']|[Hd E']]]]];
        rewrite E, E' in H; rewrite ?append_cons in H;
        try discriminate;
        try (injection H as H; subst c d; f_equal; apply IH; exact H);
        try (injection H as Hx H; unfold Viewer.amp in *; congruence).
      injection H as -> H. f_equal. apply IH. exact H.
Qed.

Lemma escapeHtml_injective_witness :
  Viewer.escapeHtml "a<b" = Viewer.escapeHtml ("a" +:+ "<b") /\ "a<b" = "a" +:+ "<b".
Proof.
  split; [vm_compute; reflexivity|].
  apply (escapeHtml_injective "a<b" ("a" +:+ "<b")). vm_compute. reflexivity.
Defined.
